(** * TRT-Edge-Server: the TensorRT session manager and the YOLO decoder

    A shallow embedding of [TrtInferenceEngine] (TRT_inference_engine.hpp and
    its implementation file) and of the [TRT::YOLO] module built on it,
    with the properties of the session manager stated and settled on the
    embedding.

    Conventions.
    - C++ [int] / [int32_t] values are [Z]; [size_t] values are [Z] reduced
      modulo 2^64 where the code multiplies; a [std::vector<T>] is a
      [list T]; a [void*] is the base address of a buffer, [0] being
      [nullptr].
    - A [float] is kept in memory as its IEEE-754 binary32 bit pattern and
      is decoded to [spec_float] (precision 24, emax 128) wherever the code
      compares or subtracts.
    - The CUDA runtime and the TensorRT execution context are external: the
      outcome of each [cudaMalloc] and the effect of [executeV2] on device
      memory are components of the world a computation runs in.
    - [std::cout] output is not modelled; [std::cerr] diagnostics and
      runtime calls are recorded as events. *)

From Stdlib Require Import String ZArith List Bool Lia.
From Stdlib Require Import Floats.SpecFloat.
Import ListNotations.
Open Scope Z_scope.

(* ================================================================== *)
(** ** Machine integers and binary32 *)

Definition SIZE_MAX_plus_1 : Z := 2 ^ 64.

(** Conversion to [size_t]: reduction modulo 2^64. *)
Definition to_size_t (z : Z) : Z := z mod SIZE_MAX_plus_1.

(** [static_cast<int>] of an integer value: two's complement, 32 bits. *)
Definition to_int (z : Z) : Z := (z + 2 ^ 31) mod 2 ^ 32 - 2 ^ 31.

Definition sizeof_float : Z := 4.

Definition prec32 : Z := 24.
Definition emax32 : Z := 128.

(** The value of a binary32 bit pattern (sign bit 31, exponent bits 30..23,
    fraction bits 22..0). *)
Definition float_of_bits (w : Z) : spec_float :=
  let s := Z.testbit w 31 in
  let e := Z.land (Z.shiftr w 23) 255 in
  let m := Z.land w (2 ^ 23 - 1) in
  if e =? 0 then
    if m =? 0 then S754_zero s else S754_finite s (Z.to_pos m) (-149)
  else if e =? 255 then
    if m =? 0 then S754_infinity s else S754_nan
  else S754_finite s (Z.to_pos (m + 2 ^ 23)) (e - 150).

(** Conversion of a [float] to [int]: the fractional part is discarded. *)
Definition float_to_int (f : spec_float) : Z :=
  match f with
  | S754_finite s m e =>
      let mag := if 0 <=? e then Z.shiftl (Zpos m) e
                 else Z.shiftr (Zpos m) (- e) in
      if s then - mag else mag
  | _ => 0
  end.

(** Conversion of an [int] to [float] (round to nearest even). *)
Definition int_to_float (z : Z) : spec_float :=
  binary_normalize prec32 emax32 z 0 false.

Definition float_lt (a b : spec_float) : bool := SFltb a b.
Definition float_sub (a b : spec_float) : spec_float := SFsub prec32 emax32 a b.

(** Little-endian bytes of a 32-bit word, and back. *)
Definition bytes_of_word (w : Z) : list Z :=
  [ w mod 256; (w / 256) mod 256; (w / 65536) mod 256; (w / 16777216) mod 256 ].

Definition word_of_bytes (b0 b1 b2 b3 : Z) : Z :=
  b0 + 256 * b1 + 65536 * b2 + 16777216 * b3.

(* ================================================================== *)
(** ** Outcomes: results, exceptions and undefined behaviour *)

(** The exceptions the code throws. *)
Inductive exception : Type :=
| EngineNotInitialized
| InvalidBindingDimension (binding axis : Z)
| NoDimensionsDetected (role : string)
| InvalidDimension (role : string) (axis value : Z)
| VectorLengthError.

(** Behaviour the language leaves undefined. *)
Inductive fault : Type :=
| OutOfBounds        (* operator[] past the end of a vector or of a buffer *)
| NullString         (* std::string built from a null char pointer *)
| NullDereference    (* call through an empty unique_ptr *)
| InvalidPointer     (* access through, or free of, a dead pointer *).

Inductive res (A : Type) : Type :=
| Ok (a : A)
| Throw (e : exception)
| Undefined (f : fault).
Arguments Ok {A} a.
Arguments Throw {A} e.
Arguments Undefined {A} f.

Definition rbind {A B} (m : res A) (k : A -> res B) : res B :=
  match m with
  | Ok a => k a
  | Throw e => Throw e
  | Undefined f => Undefined f
  end.

(** [v[i]] for a vector [v]. *)
Definition at_ {A} (v : list A) (i : Z) : res A :=
  if i <? 0 then Undefined OutOfBounds
  else match nth_error v (Z.to_nat i) with
       | Some x => Ok x
       | None => Undefined OutOfBounds
       end.

(** [v[i] = x] for [i] in range. *)
Fixpoint set_nth {A} (v : list A) (n : nat) (x : A) : list A :=
  match v, n with
  | [], _ => []
  | _ :: r, O => x :: r
  | y :: r, S k => y :: set_nth r k x
  end.

(** [v.resize(n)] on a vector of pointers. *)
Definition resize (v : list Z) (n : Z) : list Z :=
  firstn (Z.to_nat n) v ++ repeat 0 (Z.to_nat n - length v).

Definition is_empty {A} (v : list A) : bool :=
  match v with [] => true | _ => false end.

Definition size {A} (v : list A) : Z := Z.of_nat (length v).

Fixpoint list_eqb (a b : list Z) : bool :=
  match a, b with
  | [], [] => true
  | x :: a', y :: b' => (x =? y) && list_eqb a' b'
  | _, _ => false
  end.

(* ================================================================== *)
(** ** The runtime: memory, events and the monad of effects *)

(** Memory: the live buffers, by base address, newest first. *)
Definition memory : Type := list (Z * list Z).

Fixpoint lookup (m : memory) (p : Z) : option (list Z) :=
  match m with
  | [] => None
  | (q, b) :: r => if q =? p then Some b else lookup r p
  end.

Fixpoint store (m : memory) (p : Z) (b : list Z) : memory :=
  match m with
  | [] => []
  | (q, c) :: r => if q =? p then (q, b) :: r else (q, c) :: store r p b
  end.

Definition release (m : memory) (p : Z) : memory :=
  filter (fun e => negb (fst e =? p)) m.

Inductive diagnostic : Type :=
(* TrtInferenceEngine *)
| BufferSizeMismatch (expected_in received_in expected_out received_out : list Z)
| BufferCountMismatch (actual_in expected_in actual_out expected_out : Z)
| AlreadyAllocated
| InvalidIOCounts (inputs outputs : Z)
| AllocInputFailed (i bytes : Z)
| AllocOutputFailed (i bytes : Z)
| ValidateCountMismatch (expected_in got_in expected_out got_out : Z)
| NullInputBuffer (i : Z)
| InputSizeMismatch (i expected got : Z)
| NullOutputBuffer (i : Z)
| OutputSizeMismatch (i expected got : Z)
(* TRT::YOLO *)
| NotInitialized
| UnexpectedIOCount (inputs outputs : Z)
| InputSizesDoNotMatch (expected got : Z)
| InferenceFailed
| ImpossibleDetections (n : Z).

Inductive event : Type :=
| CudaMalloc (bytes : Z) (result : option Z)
| CudaFree (p : Z)
| MemcpyHostToDevice (dst src bytes : Z)
| MemcpyDeviceToHost (dst src bytes : Z)
| ExecuteV2 (bindings : list Z)
| Cerr (d : diagnostic).

Record world : Type := mkWorld {
  dev : memory;        (* device memory *)
  host : memory;       (* host heap *)
  next_ptr : Z;        (* next address the runtime hands out *)
  mallocs : nat;       (* cudaMalloc calls made so far *)
  malloc_ok : nat -> Z -> bool;
                       (* whether the n-th cudaMalloc, of so many bytes,
                          succeeds *)
  graph : memory -> list Z -> memory
                       (* what executeV2 does to device memory, given the
                          binding table *)
}.

(** A computation reads and updates the world, and yields a value and the
    events it emitted, oldest first. *)
Definition M (A : Type) : Type := world -> res (A * world * list event).

Definition ret {A} (a : A) : M A := fun w => Ok (a, w, []).

Definition bind {A B} (m : M A) (k : A -> M B) : M B :=
  fun w =>
    match m w with
    | Ok (a, w1, t1) =>
        match k a w1 with
        | Ok (b, w2, t2) => Ok (b, w2, t1 ++ t2)
        | Throw e => Throw e
        | Undefined f => Undefined f
        end
    | Throw e => Throw e
    | Undefined f => Undefined f
    end.

Definition lift {A} (r : res A) : M A :=
  fun w => match r with
           | Ok a => Ok (a, w, [])
           | Throw e => Throw e
           | Undefined f => Undefined f
           end.

Definition emit (e : event) : M unit := fun w => Ok (tt, w, [e]).

Definition cerr (d : diagnostic) : M unit := emit (Cerr d).

Declare Scope eff_scope.
Delimit Scope eff_scope with eff.
Notation "x <- m ;; k" := (bind m (fun x => k))
  (at level 61, m at next level, right associativity) : eff_scope.
Notation "m ;;; k" := (bind m (fun _ => k))
  (at level 61, right associativity) : eff_scope.
Notation "'try' x <- m ; k" := (rbind m (fun x => k))
  (at level 61, x name, m at next level, right associativity) : eff_scope.
Open Scope eff_scope.

(** *** Runtime primitives *)

Definition with_dev (w : world) (d : memory) : world :=
  mkWorld d (host w) (next_ptr w) (mallocs w) (malloc_ok w) (graph w).

Definition with_host (w : world) (h : memory) : world :=
  mkWorld (dev w) h (next_ptr w) (mallocs w) (malloc_ok w) (graph w).

(** [cudaMalloc(&p, bytes)]: on success a fresh buffer is live and its
    address is returned; on failure nothing is allocated and the pointer
    variable keeps its value.  The contents of a new buffer are unspecified
    in CUDA; they are zero here, and nothing below depends on them. *)
Definition cudaMalloc (bytes : Z) : M (option Z) :=
  fun w =>
    if malloc_ok w (mallocs w) bytes then
      let p := next_ptr w in
      Ok (Some p,
          mkWorld ((p, repeat 0 (Z.to_nat bytes)) :: dev w) (host w) (p + 1)
                  (S (mallocs w)) (malloc_ok w) (graph w),
          [CudaMalloc bytes (Some p)])
    else
      Ok (None,
          mkWorld (dev w) (host w) (next_ptr w) (S (mallocs w))
                  (malloc_ok w) (graph w),
          [CudaMalloc bytes None]).

Definition cudaFree (p : Z) : M unit :=
  fun w => Ok (tt, with_dev w (release (dev w) p), [CudaFree p]).

(** The first [n] bytes of [src] written over the start of [dst]. *)
Definition overwrite (dst src : list Z) (n : Z) : list Z :=
  firstn (Z.to_nat n) src ++ skipn (Z.to_nat n) dst.

(** A copy of [n] bytes between two live buffers that hold at least [n]
    bytes each.  Any other copy is a fault: what the runtime does with it
    (an error code, which the callers below discard, or a stray write) is
    not the program's to decide. *)
Definition copy_checked (from to : memory) (src dst n : Z) : res memory :=
  match lookup from src, lookup to dst with
  | Some s, Some d =>
      if (n <=? size s) && (n <=? size d)
      then Ok (store to dst (overwrite d s n))
      else Undefined OutOfBounds
  | _, _ => Undefined InvalidPointer
  end.

Definition cudaMemcpyHostToDevice (dst src n : Z) : M unit :=
  fun w =>
    match copy_checked (host w) (dev w) src dst n with
    | Ok d => Ok (tt, with_dev w d, [MemcpyHostToDevice dst src n])
    | Throw e => Throw e
    | Undefined f => Undefined f
    end.

Definition cudaMemcpyDeviceToHost (dst src n : Z) : M unit :=
  fun w =>
    match copy_checked (dev w) (host w) src dst n with
    | Ok h => Ok (tt, with_host w h, [MemcpyDeviceToHost dst src n])
    | Throw e => Throw e
    | Undefined f => Undefined f
    end.

Definition executeV2 (bindings : list Z) : M unit :=
  fun w => Ok (tt, with_dev w (graph w (dev w) bindings), [ExecuteV2 bindings]).

(** [free(p)]: nothing for a null pointer. *)
Definition free (p : Z) : M unit :=
  fun w =>
    if p =? 0 then Ok (tt, w, [])
    else match lookup (host w) p with
         | Some _ => Ok (tt, with_host w (release (host w) p), [])
         | None => Undefined InvalidPointer
         end.

(* ================================================================== *)
(** ** TrtInferenceEngine *)

Module TRT.

(** One entry of the binding table of a deserialized model, as
    [getBindingName], [getBindingDimensions] and [bindingIsInput] report
    it.  [binding_dims] holds [d[0 .. nbDims-1]]. *)
Record Binding : Type := mkBinding {
  binding_name : option string;
  binding_dims : list Z;
  binding_is_input : bool
}.

Definition ICudaEngine : Type := list Binding.

(** The data members.  [runtime_], [engine_] and [context_] are created
    together by [load_engine] and reset together by [shutdown_engine];
    [engine_] stands for the three. *)
Record TrtInferenceEngine : Type := mkEngine {
  engine_ : option ICudaEngine;
  num_inputs_ : Z;
  num_outputs_ : Z;
  input_dims_ : list (list Z);
  output_dims_ : list (list Z);
  input_shapes_ : list (list Z);
  output_shapes_ : list (list Z);
  input_names_ : list string;
  output_names_ : list string;
  input_cuda_buffers_ : list Z;
  output_cuda_buffers_ : list Z;
  bindings_ : list Z;
  trt_input_element_counts_ : list Z;
  trt_output_element_counts_ : list Z
}.

(** The object before the constructor body runs: empty vectors, empty
    smart pointers, and whatever the two [int] members happen to hold. *)
Definition uninitialized (junk_in junk_out : Z) : TrtInferenceEngine :=
  mkEngine None junk_in junk_out [] [] [] [] [] [] [] [] [] [] [].

(** *** Introspection *)

Definition get_num_inputs (this : TrtInferenceEngine) : Z := num_inputs_ this.
Definition get_num_outputs (this : TrtInferenceEngine) : Z := num_outputs_ this.
Definition get_input_shapes (this : TrtInferenceEngine) := input_shapes_ this.
Definition get_output_shapes (this : TrtInferenceEngine) := output_shapes_ this.
Definition get_input_elements (this : TrtInferenceEngine) :=
  trt_input_element_counts_ this.
Definition get_output_elements (this : TrtInferenceEngine) :=
  trt_output_element_counts_ this.

(** [for (i = 0; i < n; i++) sizes[i] = counts[i] * element_size;] *)
Fixpoint size_bytes_loop (counts : list Z) (element_size : Z)
    (n : nat) (i : Z) (sizes : list Z) : res (list Z) :=
  match n with
  | O => Ok sizes
  | S k =>
      try c <- at_ counts i ;
      try _ <- at_ sizes i ;
      size_bytes_loop counts element_size k (i + 1)
        (set_nth sizes (Z.to_nat i) (to_size_t (c * element_size)))
  end.

(** [std::vector<size_t> sizes(n)] followed by the loop; a negative [n]
    converts to a length no vector can have. *)
Definition size_bytes (counts : list Z) (n element_size : Z) : res (list Z) :=
  if n <? 0 then Throw VectorLengthError
  else size_bytes_loop counts element_size (Z.to_nat n) 0
         (repeat 0 (Z.to_nat n)).

Definition get_input_size_bytes (this : TrtInferenceEngine)
    (element_size : Z) : res (list Z) :=
  size_bytes (trt_input_element_counts_ this) (num_inputs_ this) element_size.

Definition get_output_size_bytes (this : TrtInferenceEngine)
    (element_size : Z) : res (list Z) :=
  size_bytes (trt_output_element_counts_ this) (num_outputs_ this) element_size.

(** *** load_engine *)

(** Reading the file and deserializing it are the runtime's business; the
    outcome of [deserializeCudaEngine] is the argument.  A null engine is
    dereferenced by [createExecutionContext]. *)
Definition load_engine (deserialized : option ICudaEngine)
    (this : TrtInferenceEngine) : res TrtInferenceEngine :=
  match deserialized with
  | None => Undefined NullDereference
  | Some e =>
      Ok (mkEngine (Some e) (num_inputs_ this) (num_outputs_ this)
            (input_dims_ this) (output_dims_ this)
            (input_shapes_ this) (output_shapes_ this)
            (input_names_ this) (output_names_ this)
            (input_cuda_buffers_ this) (output_cuda_buffers_ this)
            (bindings_ this)
            (trt_input_element_counts_ this) (trt_output_element_counts_ this))
  end.

(** *** calculate_model_parameters *)

(** The checks of the printing loop over the axes of binding [i]. *)
Fixpoint validate_dimensions (i j : Z) (d : list Z) : res unit :=
  match d with
  | [] => Ok tt
  | x :: d' =>
      if x <=? 0 then Throw (InvalidBindingDimension i j)
      else validate_dimensions i (j + 1) d'
  end.

Definition push_input (this : TrtInferenceEngine) (dims : list Z)
    (name : string) : TrtInferenceEngine :=
  mkEngine (engine_ this) (num_inputs_ this) (num_outputs_ this)
    (input_dims_ this ++ [dims]) (output_dims_ this)
    (input_shapes_ this ++ [dims]) (output_shapes_ this)
    (input_names_ this ++ [name]) (output_names_ this)
    (input_cuda_buffers_ this) (output_cuda_buffers_ this) (bindings_ this)
    (trt_input_element_counts_ this) (trt_output_element_counts_ this).

Definition push_output (this : TrtInferenceEngine) (dims : list Z)
    (name : string) : TrtInferenceEngine :=
  mkEngine (engine_ this) (num_inputs_ this) (num_outputs_ this)
    (input_dims_ this) (output_dims_ this ++ [dims])
    (input_shapes_ this) (output_shapes_ this ++ [dims])
    (input_names_ this) (output_names_ this ++ [name])
    (input_cuda_buffers_ this) (output_cuda_buffers_ this) (bindings_ this)
    (trt_input_element_counts_ this) (trt_output_element_counts_ this).

(** The loop over the bindings, from binding [i] on. *)
Fixpoint process_bindings (bs : list Binding) (i : Z)
    (this : TrtInferenceEngine) : res TrtInferenceEngine :=
  match bs with
  | [] => Ok this
  | b :: bs' =>
      try _ <- validate_dimensions i 0 (binding_dims b) ;
      try name <- match binding_name b with
                  | Some n => Ok n
                  | None => Undefined NullString
                  end ;
      process_bindings bs' (i + 1)
        (if binding_is_input b
         then push_input this (binding_dims b) name
         else push_output this (binding_dims b) name)
  end.

Fixpoint elements_loop (role : string) (j : Z) (d : list Z)
    (elements : Z) : res Z :=
  match d with
  | [] => Ok elements
  | x :: d' =>
      if x <=? 0 then Throw (InvalidDimension role j x)
      else elements_loop role (j + 1) d' (to_size_t (elements * x))
  end.

Definition validate_and_calculate_elements (dims : list Z)
    (name : string) : res Z :=
  if size dims =? 0 then Throw (NoDimensionsDetected name)
  else elements_loop name 0 dims 1.

(** [for (dims : all) counts.push_back(validate_and_calculate_elements(dims, role))] *)
Fixpoint element_counts (all : list (list Z)) (role : string)
    (counts : list Z) : res (list Z) :=
  match all with
  | [] => Ok counts
  | dims :: rest =>
      try n <- validate_and_calculate_elements dims role ;
      element_counts rest role (counts ++ [n])
  end.

(** The reads of the summary loop [for (i = 0; i < n; i++) ... counts[i]]. *)
Fixpoint summary_loop (counts : list Z) (n : nat) (i : Z) : res unit :=
  match n with
  | O => Ok tt
  | S k => try _ <- at_ counts i ; summary_loop counts k (i + 1)
  end.

Definition calculate_model_parameters (this : TrtInferenceEngine)
    : res TrtInferenceEngine :=
  match engine_ this with
  | None => Throw EngineNotInitialized
  | Some eng =>
      (* Clear existing data *)
      let input_dims0 : list (list Z) := [] in
      let output_dims0 : list (list Z) := [] in
      (* Update counts *)
      let num_inputs := to_int (size input_dims0) in
      let num_outputs := to_int (size output_dims0) in
      let this :=
        mkEngine (engine_ this) num_inputs num_outputs
          input_dims0 output_dims0
          (input_shapes_ this) (output_shapes_ this)
          [] []
          (input_cuda_buffers_ this) (output_cuda_buffers_ this)
          (bindings_ this) [] [] in
      (* Process all bindings *)
      try this <- process_bindings eng 0 this ;
      (* Calculate element counts *)
      try ic <- element_counts (input_dims_ this) "input"
                  (trt_input_element_counts_ this) ;
      try oc <- element_counts (output_dims_ this) "output"
                  (trt_output_element_counts_ this) ;
      (* Print summary *)
      try _ <- summary_loop ic (Z.to_nat (num_inputs_ this)) 0 ;
      try _ <- summary_loop oc (Z.to_nat (num_outputs_ this)) 0 ;
      Ok (mkEngine (engine_ this) (num_inputs_ this) (num_outputs_ this)
            (input_dims_ this) (output_dims_ this)
            (input_shapes_ this) (output_shapes_ this)
            (input_names_ this) (output_names_ this)
            (input_cuda_buffers_ this) (output_cuda_buffers_ this)
            (bindings_ this) ic oc)
  end.

(** *** Device buffers *)

Definition with_buffers (this : TrtInferenceEngine)
    (ins outs binds : list Z) : TrtInferenceEngine :=
  mkEngine (engine_ this) (num_inputs_ this) (num_outputs_ this)
    (input_dims_ this) (output_dims_ this)
    (input_shapes_ this) (output_shapes_ this)
    (input_names_ this) (output_names_ this)
    ins outs binds
    (trt_input_element_counts_ this) (trt_output_element_counts_ this).

(** [for (void* buf : bufs) if (buf) { cudaFree(buf); buf = nullptr; }] *)
Fixpoint free_loop (bufs : list Z) : M unit :=
  match bufs with
  | [] => ret tt
  | buf :: rest =>
      (if buf =? 0 then ret tt else cudaFree buf) ;;;
      free_loop rest
  end.

Definition deallocate_buffers (this : TrtInferenceEngine)
    : M TrtInferenceEngine :=
  free_loop (input_cuda_buffers_ this) ;;;
  free_loop (output_cuda_buffers_ this) ;;;
  ret (with_buffers this [] [] []).

(** One allocation loop of [allocate_buffers], from index [i] on, [n]
    iterations left.  Yields [false] when a [cudaMalloc] failed (the
    diagnostic is then printed), and the buffer vector as the loop left
    it. *)
Fixpoint alloc_loop (failed : Z -> Z -> diagnostic) (sizes : list Z)
    (n : nat) (i : Z) (bufs : list Z) : M (bool * list Z) :=
  match n with
  | O => ret (true, bufs)
  | S k =>
      _ <- lift (at_ bufs i) ;;
      bytes <- lift (at_ sizes i) ;;
      r <- cudaMalloc bytes ;;
      match r with
      | Some p => alloc_loop failed sizes k (i + 1) (set_nth bufs (Z.to_nat i) p)
      | None => cerr (failed i bytes) ;;; ret (false, bufs)
      end
  end.

Definition allocate_buffers (this : TrtInferenceEngine)
    : M TrtInferenceEngine :=
  (* Check if buffers are already allocated *)
  if negb (is_empty (input_cuda_buffers_ this))
     || negb (is_empty (output_cuda_buffers_ this))
  then cerr AlreadyAllocated ;;; ret this
  (* Validate model parameters *)
  else if (num_inputs_ this <? 1) || (num_outputs_ this <? 1)
  then cerr (InvalidIOCounts (num_inputs_ this) (num_outputs_ this)) ;;;
       ret this
  else
    (* Get required byte sizes *)
    input_sizes <- lift (get_input_size_bytes this sizeof_float) ;;
    output_sizes <- lift (get_output_size_bytes this sizeof_float) ;;
    (* Allocate input buffers *)
    r <- alloc_loop AllocInputFailed input_sizes
           (Z.to_nat (num_inputs_ this)) 0
           (resize (input_cuda_buffers_ this) (num_inputs_ this)) ;;
    let this := with_buffers this (snd r) (output_cuda_buffers_ this)
                  (bindings_ this) in
    if negb (fst r) then deallocate_buffers this
    else
      (* Allocate output buffers *)
      r <- alloc_loop AllocOutputFailed output_sizes
             (Z.to_nat (num_outputs_ this)) 0
             (resize (output_cuda_buffers_ this) (num_outputs_ this)) ;;
      let this := with_buffers this (input_cuda_buffers_ this) (snd r)
                    (bindings_ this) in
      if negb (fst r) then deallocate_buffers this
      else
        (* Update the references used during inference *)
        ret (with_buffers this (input_cuda_buffers_ this)
               (output_cuda_buffers_ this)
               (input_cuda_buffers_ this ++ output_cuda_buffers_ this)).

(** One checking loop of [validate_buffers]. *)
Fixpoint validate_loop (null_buffer : Z -> diagnostic)
    (mismatch : Z -> Z -> Z -> diagnostic)
    (bufs sizes expected : list Z) (n : nat) (i : Z) (valid : bool) : M bool :=
  match n with
  | O => ret valid
  | S k =>
      buf <- lift (at_ bufs i) ;;
      valid <- (if buf =? 0 then cerr (null_buffer i) ;;; ret false
                else ret valid) ;;
      got <- lift (at_ sizes i) ;;
      want <- lift (at_ expected i) ;;
      valid <- (if negb (got =? want) then cerr (mismatch i want got) ;;; ret false
                else ret valid) ;;
      validate_loop null_buffer mismatch bufs sizes expected k (i + 1) valid
  end.

Definition validate_buffers (this : TrtInferenceEngine)
    (input_bufs input_sizes output_bufs output_sizes : list Z) : M bool :=
  (* Check counts match *)
  if negb (size input_bufs =? to_size_t (num_inputs_ this))
     || negb (size output_bufs =? to_size_t (num_outputs_ this))
  then cerr (ValidateCountMismatch (num_inputs_ this) (size input_bufs)
               (num_outputs_ this) (size output_bufs)) ;;;
       ret false
  else
    (* Check sizes match *)
    expected_input_sizes <- lift (get_input_size_bytes this sizeof_float) ;;
    expected_output_sizes <- lift (get_output_size_bytes this sizeof_float) ;;
    valid <- validate_loop NullInputBuffer InputSizeMismatch
               input_bufs input_sizes expected_input_sizes
               (Z.to_nat (num_inputs_ this)) 0 true ;;
    validate_loop NullOutputBuffer OutputSizeMismatch
      output_bufs output_sizes expected_output_sizes
      (Z.to_nat (num_outputs_ this)) 0 valid.

Definition shutdown_engine (this : TrtInferenceEngine) : TrtInferenceEngine :=
  mkEngine None (num_inputs_ this) (num_outputs_ this)
    (input_dims_ this) (output_dims_ this)
    (input_shapes_ this) (output_shapes_ this)
    (input_names_ this) (output_names_ this)
    (input_cuda_buffers_ this) (output_cuda_buffers_ this) (bindings_ this)
    (trt_input_element_counts_ this) (trt_output_element_counts_ this).

(** *** Inference *)

Section Inference.

(** [infer_b] names [input_size] and [output_size], which neither the
    function nor the class declares.  They are parameters here, of the
    type their comparison with the result of [get_input_size_bytes()]
    requires, and objects of their own, distinct from the vectors the
    caller passes. *)
Variables input_size output_size : list Z.

(** [for (i = 0; i < device.size(); i++)
       cudaMemcpy(device[i], host[i], sizes[i], cudaMemcpyHostToDevice);] *)
Fixpoint copy_in_loop (device host_bufs sizes : list Z)
    (n : nat) (i : Z) : M unit :=
  match n with
  | O => ret tt
  | S k =>
      d <- lift (at_ device i) ;;
      h <- lift (at_ host_bufs i) ;;
      bytes <- lift (at_ sizes i) ;;
      cudaMemcpyHostToDevice d h bytes ;;;
      copy_in_loop device host_bufs sizes k (i + 1)
  end.

(** [for (i = 0; i < device.size(); i++)
       cudaMemcpy(host[i], device[i], sizes[i], cudaMemcpyDeviceToHost);] *)
Fixpoint copy_out_loop (device host_bufs sizes : list Z)
    (n : nat) (i : Z) : M unit :=
  match n with
  | O => ret tt
  | S k =>
      h <- lift (at_ host_bufs i) ;;
      d <- lift (at_ device i) ;;
      bytes <- lift (at_ sizes i) ;;
      cudaMemcpyDeviceToHost h d bytes ;;;
      copy_out_loop device host_bufs sizes k (i + 1)
  end.

Definition infer_b (this : TrtInferenceEngine)
    (input_buf size_in_param output_buf size_out_param : list Z) : M bool :=
  expected_in <- lift (get_input_size_bytes this sizeof_float) ;;
  differs <- (if negb (list_eqb input_size expected_in) then ret true
              else expected_out <- lift (get_output_size_bytes this sizeof_float) ;;
                   ret (negb (list_eqb output_size expected_out))) ;;
  if (differs : bool) then
    e_in <- lift (get_input_size_bytes this sizeof_float) ;;
    e_out <- lift (get_output_size_bytes this sizeof_float) ;;
    cerr (BufferSizeMismatch e_in input_size e_out output_size) ;;;
    ret false
  else if negb (size input_buf =? size (input_cuda_buffers_ this))
          || negb (size output_buf =? size (output_cuda_buffers_ this))
  then
    cerr (BufferCountMismatch
            (size input_buf) (size (input_cuda_buffers_ this))
            (size output_buf) (size (output_cuda_buffers_ this))) ;;;
    ret false
  else
    (* Copy input to GPU *)
    copy_in_loop (input_cuda_buffers_ this) input_buf size_in_param
      (length (input_cuda_buffers_ this)) 0 ;;;
    (* Execute inference *)
    match engine_ this with
    | None => lift (Undefined NullDereference)
    | Some _ => executeV2 (bindings_ this)
    end ;;;
    (* Copy results back from GPU *)
    copy_out_loop (output_cuda_buffers_ this) output_buf size_out_param
      (length (output_cuda_buffers_ this)) 0 ;;;
    ret true.

End Inference.

Definition infer_async (this : TrtInferenceEngine)
    (input_buf size_in_param : list Z) : M bool :=
  ret false.

(** [return false;] in a function returning [size_t]. *)
Definition retrieve_infer_result_async (this : TrtInferenceEngine)
    (output_buf size_out_param : list Z) : M Z :=
  ret (to_size_t (Z.b2z false)).

(** *** dims_volume *)

(** [std::accumulate(d.d, d.d + d.nbDims, 1, std::multiplies<size_t>())]:
    the accumulator has the type of the initial value [1], an [int]; each
    step converts both operands to [size_t], multiplies, and converts the
    product back to [int]. *)
Fixpoint accumulate (d : list Z) (acc : Z) : Z :=
  match d with
  | [] => acc
  | x :: rest =>
      accumulate rest (to_int (to_size_t (to_size_t acc * to_size_t x)))
  end.

Definition dims_volume (d : list Z) : Z := to_size_t (accumulate d 1).

(** *** Construction and destruction *)

Definition constructor (deserialized : option ICudaEngine)
    (junk_in junk_out : Z) : M TrtInferenceEngine :=
  this <- lift (load_engine deserialized (uninitialized junk_in junk_out)) ;;
  this <- lift (calculate_model_parameters this) ;;
  allocate_buffers this.

Definition destructor (this : TrtInferenceEngine) : M TrtInferenceEngine :=
  this <- deallocate_buffers this ;;
  ret (shutdown_engine this).

End TRT.

(* ================================================================== *)
(** ** TRT::YOLO *)

Module YOLO.

Definition MODEL_INPUT_WIDTH : Z := 640.
Definition MODEL_INPUT_HEIGHT : Z := 640.

Definition MODEL_NUM_INPUTS : Z := 1.
Definition MODEL_NUM_OUTPUTS : Z := 4.

Definition OUTPUT_INDEX_NUM_DETS : Z := 0.
Definition OUTPUT_INDEX_BBOXES : Z := 1.
Definition OUTPUT_INDEX_SCORES : Z := 2.
Definition OUTPUT_INDEX_LABELS : Z := 3.

(** The literal [0.25f]: 2^23 * 2^-25. *)
Definition literal_0_25f : spec_float := S754_finite false 8388608 (-25).

(** [constexpr int CONFIDENCE_SCORE_THRESHOLD = 0.25f;] the initializer is
    converted to the declared type. *)
Definition CONFIDENCE_SCORE_THRESHOLD : Z := float_to_int literal_0_25f.

Record bounding_box_t : Type := mkBox {
  x : spec_float;
  y : spec_float;
  width : spec_float;
  height : spec_float
}.

Record detected_object_info_t : Type := mkInfo {
  rect : bounding_box_t;
  class_id : Z;
  confidence : spec_float
}.

(** The statics of the namespace.  [results_buffer] is named by
    [identify_objects] and declared nowhere; the code calls [clear()] and
    [size()] on it, so it is kept here as one more vector, an object of
    its own, distinct from the vector the caller passes. *)
Record state : Type := mkState {
  initialized : bool;
  engine : option TRT.TrtInferenceEngine;
  input_sizes : list Z;
  output_sizes : list Z;
  input_data : list Z;
  output_data : list Z;
  input_names : list string;
  output_names : list string;
  results_buffer : list detected_object_info_t
}.

(** *** Host memory access *)

(** The 32-bit word at index [idx] of the buffer at [p]. *)
Definition load_word (h : memory) (p idx : Z) : res Z :=
  match lookup h p with
  | None => Undefined InvalidPointer
  | Some buf =>
      try b0 <- at_ buf (4 * idx) ;
      try b1 <- at_ buf (4 * idx + 1) ;
      try b2 <- at_ buf (4 * idx + 2) ;
      try b3 <- at_ buf (4 * idx + 3) ;
      Ok (word_of_bytes b0 b1 b2 b3)
  end.

Definition load_int32 (h : memory) (p idx : Z) : res Z :=
  try w <- load_word h p idx ; Ok (to_int w).

Definition load_float (h : memory) (p idx : Z) : res spec_float :=
  try w <- load_word h p idx ; Ok (float_of_bits w).

Definition read_host {A} (f : memory -> res A) : M A :=
  fun w => lift (f (host w)) w.

(** [memcpy(dst, bytes, n)] into a host buffer. *)
Definition memcpy (dst : Z) (bytes : list Z) : M unit :=
  fun w =>
    match lookup (host w) dst with
    | None => Undefined InvalidPointer
    | Some buf =>
        if size bytes <=? size buf
        then Ok (tt, with_host w (store (host w) dst
                                    (overwrite buf bytes (size bytes))), [])
        else Undefined OutOfBounds
    end.

(** *** identify_objects *)

(** What one iteration of the loop reads for detection [i]. *)
Record raw_detection : Type := mkRaw {
  x1 : spec_float;
  y1 : spec_float;
  x2 : spec_float;
  y2 : spec_float;
  score : spec_float;
  label : Z
}.

Definition read_detection (h : memory) (bboxes scores labels i : Z)
    : res raw_detection :=
  try a <- load_float h bboxes (i * 4 + 0) ;
  try b <- load_float h bboxes (i * 4 + 1) ;
  try c <- load_float h bboxes (i * 4 + 2) ;
  try d <- load_float h bboxes (i * 4 + 3) ;
  try s <- load_float h scores i ;
  try l <- load_int32 h labels i ;
  Ok (mkRaw a b c d s l).

(** [score < CONFIDENCE_SCORE_THRESHOLD]: the [int] operand is converted
    to [float]. *)
Definition rejected (d : raw_detection) : bool :=
  float_lt (score d) (int_to_float CONFIDENCE_SCORE_THRESHOLD).

(** The assignments to [current_obj]. *)
Definition current_obj (d : raw_detection) : detected_object_info_t :=
  mkInfo (mkBox (x1 d) (y1 d) (float_sub (x2 d) (x1 d)) (float_sub (y2 d) (y1 d)))
         (label d) (score d).

(** [for (int i = 0; i < num_dets; ++i)], from detection [i] on. *)
Fixpoint detection_loop (h : memory) (bboxes scores labels : Z)
    (n : nat) (i : Z) (results_detections : list detected_object_info_t)
    : res (list detected_object_info_t) :=
  match n with
  | O => Ok results_detections
  | S k =>
      try d <- read_detection h bboxes scores labels i ;
      if rejected d
      then detection_loop h bboxes scores labels k (i + 1) results_detections
      else detection_loop h bboxes scores labels k (i + 1)
             (results_detections ++ [current_obj d])
  end.

Definition clear_results_buffer (st : state) : state :=
  mkState (initialized st) (engine st) (input_sizes st) (output_sizes st)
    (input_data st) (output_data st) (input_names st) (output_names st) [].

(** The post-processing block of [identify_objects]: from
    [results_buffer.clear()] to the final [return]. *)
Definition post_process (st : state)
    (results_detections : list detected_object_info_t)
    : M (Z * list detected_object_info_t * state) :=
  let st := clear_results_buffer st in
  p <- lift (at_ (output_data st) OUTPUT_INDEX_NUM_DETS) ;;
  num_dets <- read_host (fun h => load_int32 h p 0) ;;
  bboxes <- lift (at_ (output_data st) OUTPUT_INDEX_BBOXES) ;;
  scores <- lift (at_ (output_data st) OUTPUT_INDEX_SCORES) ;;
  labels <- lift (at_ (output_data st) OUTPUT_INDEX_LABELS) ;;
  if (num_dets <? 0) || (num_dets >? 100)
  then cerr (ImpossibleDetections num_dets) ;;;
       ret (-1, results_detections, st)
  else
    rs <- read_host (fun h => detection_loop h bboxes scores labels
                                (Z.to_nat num_dets) 0 results_detections) ;;
    ret (to_int (size (results_buffer st)), rs, st).

Section Identify.

(** The free identifiers of [TrtInferenceEngine::infer_b]. *)
Variables input_size output_size : list Z.

(** The block of [identify_objects] before post-processing: the guards,
    the copy of the image and the call of [infer_b].  Yields whether
    post-processing is reached; every other path returns -1. *)
Definition run_inference (st : state) (input_img : list Z) : M bool :=
  match initialized st, engine st with
  | true, Some eng =>
      (* Validate single input/output *)
      if negb (TRT.get_num_inputs eng =? MODEL_NUM_INPUTS)
         || negb (TRT.get_num_outputs eng =? MODEL_NUM_OUTPUTS)
      then cerr (UnexpectedIOCount (TRT.get_num_inputs eng)
                   (TRT.get_num_outputs eng)) ;;;
           ret false
      else
        expected <- lift (at_ (input_sizes st) 0) ;;
        let got := to_size_t (size input_img * sizeof_float) in
        if negb (expected =? got)
        then cerr (InputSizesDoNotMatch expected got) ;;; ret false
        else
          dst <- lift (at_ (input_data st) 0) ;;
          memcpy dst (flat_map bytes_of_word input_img) ;;;
          (* Run inference (synchronous) *)
          success <- TRT.infer_b input_size output_size eng
                       (input_data st) (input_sizes st)
                       (output_data st) (output_sizes st) ;;
          if negb success then cerr InferenceFailed ;;; ret false
          else ret true
  | _, _ => cerr NotInitialized ;;; ret false
  end.

(** [input_img] holds the bit patterns of the floats of the image. *)
Definition identify_objects (st : state) (input_img : list Z)
    (results_detections : list detected_object_info_t)
    : M (Z * list detected_object_info_t * state) :=
  reached <- run_inference st input_img ;;
  if (reached : bool) then post_process st results_detections
  else ret (-1, results_detections, st).

End Identify.

(** *** unload_model *)

(** [for (int i = 0; i < n; i++) free(data[i]);] *)
Fixpoint free_data_loop (data : list Z) (n : nat) (i : Z) : M unit :=
  match n with
  | O => ret tt
  | S k =>
      p <- lift (at_ data i) ;;
      free p ;;;
      free_data_loop data k (i + 1)
  end.

Definition unload_model (st : state) : M state :=
  (* engine.reset(); engine = nullptr; *)
  match engine st with
  | Some eng => _ <- TRT.destructor eng ;; ret tt
  | None => ret tt
  end ;;;
  (* Deallocate buffers for inputs and outputs *)
  free_data_loop (input_data st) (Z.to_nat MODEL_NUM_INPUTS) 0 ;;;
  free_data_loop (output_data st) (Z.to_nat MODEL_NUM_OUTPUTS) 0 ;;;
  ret (mkState false None [] [] [] []
         (input_names st) (output_names st) (results_buffer st)).

End YOLO.

(* ================================================================== *)
(** ** Sample models, sessions and runtimes *)

(** The binding table of the detection model the decoder is written for. *)
Definition yolo_model : TRT.ICudaEngine :=
  [ TRT.mkBinding (Some "images"%string) [1; 3; 640; 640] true;
    TRT.mkBinding (Some "num_dets"%string) [1; 1] false;
    TRT.mkBinding (Some "bboxes"%string) [1; 100; 4] false;
    TRT.mkBinding (Some "scores"%string) [1; 100] false;
    TRT.mkBinding (Some "labels"%string) [1; 100] false ].

(** The same outputs behind a one-pixel input. *)
Definition tiny_model : TRT.ICudaEngine :=
  [ TRT.mkBinding (Some "images"%string) [1; 1] true;
    TRT.mkBinding (Some "num_dets"%string) [1; 1] false;
    TRT.mkBinding (Some "bboxes"%string) [1; 100; 4] false;
    TRT.mkBinding (Some "scores"%string) [1; 100] false;
    TRT.mkBinding (Some "labels"%string) [1; 100] false ].

(** A model with one input and one output of four floats each. *)
Definition pair_model : TRT.ICudaEngine :=
  [ TRT.mkBinding (Some "in"%string) [1; 4] true;
    TRT.mkBinding (Some "out"%string) [1; 4] false ].

Definition zeros (n : nat) : list Z := repeat 0 n.

(** [l] followed by zero bytes up to [n] bytes. *)
Definition padded (n : nat) (l : list Z) : list Z :=
  l ++ zeros (n - length l).

Definition always (_ : nat) (_ : Z) : bool := true.
(** Every [cudaMalloc] succeeds except the one numbered [k]. *)
Definition all_but (k : nat) (n : nat) (_ : Z) : bool := negb (Nat.eqb n k).

Definition idle (d : memory) (_ : list Z) : memory := d.

(** A runtime whose graph ignores its input and leaves the given tensors
    (as 32-bit words) in the four output buffers. *)
Definition fake_graph (num_dets : Z) (bboxes scores labels : list Z)
    (d : memory) (bindings : list Z) : memory :=
  match bindings with
  | [_; p0; p1; p2; p3] =>
      store (store (store (store d
        p0 (bytes_of_word (num_dets mod 2 ^ 32)))
        p1 (padded 1600 (flat_map bytes_of_word bboxes)))
        p2 (padded 400 (flat_map bytes_of_word scores)))
        p3 (padded 400 (flat_map bytes_of_word labels))
  | _ => d
  end.

Definition fresh_world (ok : nat -> Z -> bool)
    (g : memory -> list Z -> memory) : world :=
  mkWorld [] [] 1 0 ok g.

(** An engine for [pair_model] whose counts agree with its catalogue,
    before any buffer is allocated. *)
Definition pair_engine : TRT.TrtInferenceEngine :=
  TRT.mkEngine (Some pair_model) 1 1
    [[1; 4]] [[1; 4]] [[1; 4]] [[1; 4]]
    ["in"%string] ["out"%string]
    [] [] []
    [4] [4].

(** [pair_engine] with its two buffers allocated, at addresses 1 and 2. *)
Definition pair_session : TRT.TrtInferenceEngine :=
  TRT.with_buffers pair_engine [1] [2] [1; 2].

(** The world of [pair_session]: the two device buffers and two host
    buffers of 16 bytes, at addresses 101 and 102. *)
Definition pair_world : world :=
  mkWorld [ (2, zeros 16); (1, zeros 16) ]
          [ (101, zeros 16); (102, zeros 16) ]
          3 2 always idle.

(** An engine for [tiny_model] whose counts agree with its catalogue, with
    its five buffers allocated at addresses 1 to 5. *)
Definition tiny_session : TRT.TrtInferenceEngine :=
  TRT.mkEngine (Some tiny_model) 1 4
    [[1; 1]] [[1; 1]; [1; 100; 4]; [1; 100]; [1; 100]]
    [[1; 1]] [[1; 1]; [1; 100; 4]; [1; 100]; [1; 100]]
    ["images"%string]
    ["num_dets"%string; "bboxes"%string; "scores"%string; "labels"%string]
    [1] [2; 3; 4; 5] [1; 2; 3; 4; 5]
    [1] [1; 400; 100; 100].

Definition tiny_input_sizes : list Z := [4].
Definition tiny_output_sizes : list Z := [4; 1600; 400; 400].

(** The module state once [tiny_model] is loaded: host buffers of the
    sizes the engine reports, at addresses 101 to 105. *)
Definition loaded : YOLO.state :=
  YOLO.mkState true (Some tiny_session)
    tiny_input_sizes tiny_output_sizes
    [101] [102; 103; 104; 105]
    ["images"%string]
    ["num_dets"%string; "bboxes"%string; "scores"%string; "labels"%string]
    [].

Definition loaded_world (g : memory -> list Z -> memory) : world :=
  mkWorld [ (5, zeros 400); (4, zeros 400); (3, zeros 1600);
            (2, zeros 4); (1, zeros 4) ]
          [ (101, zeros 4); (102, zeros 4); (103, zeros 1600);
            (104, zeros 400); (105, zeros 400) ]
          6 5 always g.

(** Bit patterns of the floats used below. *)
Definition f_0_9 : Z := 0x3F666666.
Definition f_0_1 : Z := 0x3DCCCCCD.
Definition f_0_3 : Z := 0x3E99999A.
Definition f_0_25 : Z := 0x3E800000.
Definition f_10 : Z := 0x41200000.
Definition f_20 : Z := 0x41A00000.
Definition f_50 : Z := 0x42480000.
Definition f_80 : Z := 0x42A00000.

(** Three detections with scores 0.9, 0.1 and 0.3, boxes
    (10,20)-(50,80), (20,10)-(80,50), (10,10)-(20,20), labels 7, 8, 9. *)
Definition three_boxes : list Z :=
  [ f_10; f_20; f_50; f_80;  f_20; f_10; f_80; f_50;  f_10; f_10; f_20; f_20 ].
Definition three_scores : list Z := [ f_0_9; f_0_1; f_0_3 ].
Definition three_labels : list Z := [ 7; 8; 9 ].

Definition three_detections : memory -> list Z -> memory :=
  fake_graph 3 three_boxes three_scores three_labels.

(** One pixel, value 0.25. *)
Definition one_pixel : list Z := [ f_0_25 ].

(** *** Predicates on sessions *)

(** No device buffer is held. *)
Definition buffers_empty (this : TRT.TrtInferenceEngine) : Prop :=
  TRT.input_cuda_buffers_ this = []
  /\ TRT.output_cuda_buffers_ this = []
  /\ TRT.bindings_ this = [].

(** One live, non-null buffer is held per input and per output, and the
    binding table lists them, inputs first. *)
Definition buffers_complete (this : TRT.TrtInferenceEngine) (w : world)
    : Prop :=
  1 <= TRT.num_inputs_ this
  /\ 1 <= TRT.num_outputs_ this
  /\ size (TRT.input_cuda_buffers_ this) = TRT.num_inputs_ this
  /\ size (TRT.output_cuda_buffers_ this) = TRT.num_outputs_ this
  /\ TRT.bindings_ this
     = TRT.input_cuda_buffers_ this ++ TRT.output_cuda_buffers_ this
  /\ Forall (fun p => p <> 0 /\ In p (map fst (dev w))) (TRT.bindings_ this).

(** The runtime hands out fresh, non-null addresses. *)
Definition heap_ok (w : world) : Prop :=
  0 < next_ptr w /\ Forall (fun e => fst e < next_ptr w) (dev w).

(** The element-count vectors cover the counts the engine holds. *)
Definition counts_available (this : TRT.TrtInferenceEngine) : Prop :=
  TRT.num_inputs_ this <= size (TRT.trt_input_element_counts_ this)
  /\ TRT.num_outputs_ this <= size (TRT.trt_output_element_counts_ this).

(** The non-null entries of a buffer vector. *)
Definition owned (bufs : list Z) : list Z :=
  filter (fun p => negb (p =? 0)) bufs.

(** A valid model: every binding is named and has at least one axis, all
    axes positive. *)
Definition valid_binding (b : TRT.Binding) : Prop :=
  (exists n, TRT.binding_name b = Some n)
  /\ TRT.binding_dims b <> []
  /\ Forall (fun d => 0 < d) (TRT.binding_dims b).

Definition valid_model (m : TRT.ICudaEngine) : Prop := Forall valid_binding m.

Definition inputs_of (m : TRT.ICudaEngine) : list TRT.Binding :=
  filter TRT.binding_is_input m.

Definition outputs_of (m : TRT.ICudaEngine) : list TRT.Binding :=
  filter (fun b => negb (TRT.binding_is_input b)) m.

(** The filter of the decoder, as the code applies it. *)
Definition kept (d : YOLO.raw_detection) : bool := negb (YOLO.rejected d).

(** The product of the axes of a shape. *)
Definition product (dims : list Z) : Z := fold_right Z.mul 1 dims.

(** The element count of a binding, as a [size_t]. *)
Definition volume_of (b : TRT.Binding) : Z :=
  to_size_t (product (TRT.binding_dims b)).

(** Every binding is named and no axis is zero or negative; a binding may
    have no axis at all. *)
Definition named_positive (m : TRT.ICudaEngine) : Prop :=
  Forall (fun b => (exists n, TRT.binding_name b = Some n)
                   /\ Forall (fun d => 0 < d) (TRT.binding_dims b)) m.

Definition has_no_axis (b : TRT.Binding) : bool :=
  is_empty (TRT.binding_dims b).

(** The byte sizes of the first [n] element counts. *)
Definition byte_sizes (counts : list Z) (n element_size : Z) : list Z :=
  map (fun c => to_size_t (c * element_size)) (firstn (Z.to_nat n) counts).

(** What [validate_buffers] requires of each slot. *)
Definition slots_valid (bufs sizes expected : list Z) : bool :=
  forallb (fun s => negb (fst s =? 0) && (fst (snd s) =? snd (snd s)))
          (combine bufs (combine sizes expected)).

Definition is_diagnostic (e : event) : Prop :=
  match e with Cerr _ => True | _ => False end.

(** The copies of [infer_b], slot by slot. *)
Definition copies_in (device host_bufs sizes : list Z) : list event :=
  map (fun s => MemcpyHostToDevice (fst s) (fst (snd s)) (snd (snd s)))
      (combine device (combine host_bufs sizes)).

Definition copies_out (device host_bufs sizes : list Z) : list event :=
  map (fun s => MemcpyDeviceToHost (fst (snd s)) (fst s) (snd (snd s)))
      (combine device (combine host_bufs sizes)).

(** A runtime whose graph copies its input buffer onto its output buffer. *)
Definition echo (d : memory) (bindings : list Z) : memory :=
  match bindings with
  | [src; dst] =>
      match lookup d src with
      | Some b => store d dst b
      | None => d
      end
  | _ => d
  end.

(** Negative infinity and the negative finite numbers. *)
Definition is_negative (f : spec_float) : bool :=
  match f with
  | S754_infinity true => true
  | S754_finite true _ _ => true
  | _ => false
  end.

(** The addresses [base], [base + 1], ... [base + n - 1]. *)
Definition addresses (base : Z) (n : nat) : list Z :=
  map (fun j => base + Z.of_nat j) (seq 0 n).

(** The device buffers [cudaMalloc] creates for the given addresses and
    byte sizes, newest first. *)
Definition fresh_buffers (ps sizes : list Z) : memory :=
  rev (combine ps (map (fun sz => repeat 0 (Z.to_nat sz)) sizes)).

(** Sample models with a defect. *)
Definition bad_axis_model : TRT.ICudaEngine :=
  [ TRT.mkBinding (Some "in"%string) [1; 4] true;
    TRT.mkBinding (Some "out"%string) [1; 0; 3] false ].

Definition no_axis_model : TRT.ICudaEngine :=
  [ TRT.mkBinding (Some "in"%string) [1; 4] true;
    TRT.mkBinding (Some "out"%string) [] false ].

(** The object once [load_engine] has stored the model [m]. *)
Definition engine_with (m : TRT.ICudaEngine) : TRT.TrtInferenceEngine :=
  TRT.mkEngine (Some m) 0 0 [] [] [] [] [] [] [] [] [] [] [].

(** An engine that counts two inputs and holds one element count. *)
Definition short_engine : TRT.TrtInferenceEngine :=
  TRT.mkEngine (Some pair_model) 2 1
    [[1; 4]] [[1; 4]] [[1; 4]] [[1; 4]]
    ["in"%string] ["out"%string]
    [] [] []
    [4] [4].

(** [pair_world] with sixteen bytes of data in the host input buffer and
    an echoing graph. *)
Definition sixteen_bytes : list Z :=
  [1; 2; 3; 4; 5; 6; 7; 8; 9; 10; 11; 12; 13; 14; 15; 16].

Definition echo_world : world :=
  mkWorld [ (2, zeros 16); (1, zeros 16) ]
          [ (101, sixteen_bytes); (102, zeros 16) ]
          3 2 always echo.

(* ================================================================== *)
(** ** Reasoning about computations *)

Lemma bind_Ok {A B} (m : M A) (k : A -> M B) w a w1 t1 b w2 t2 :
  m w = Ok (a, w1, t1) ->
  k a w1 = Ok (b, w2, t2) ->
  bind m k w = Ok (b, w2, t1 ++ t2).
Proof. intros Hm Hk. unfold bind. rewrite Hm, Hk. reflexivity. Qed.

Lemma bind_Ok_eq {A B} (m : M A) (k : A -> M B) w a w1 t1 b w2 t2 t :
  m w = Ok (a, w1, t1) ->
  k a w1 = Ok (b, w2, t2) ->
  t = t1 ++ t2 ->
  bind m k w = Ok (b, w2, t).
Proof. intros Hm Hk ->. eapply bind_Ok; eassumption. Qed.

Lemma bind_Ok_inv {A B} (m : M A) (k : A -> M B) w b w2 t :
  bind m k w = Ok (b, w2, t) ->
  exists a w1 t1 t2,
    m w = Ok (a, w1, t1) /\ k a w1 = Ok (b, w2, t2) /\ t = t1 ++ t2.
Proof.
  unfold bind. intros H.
  destruct (m w) as [[[a w1] t1]| |]; try discriminate.
  destruct (k a w1) as [[[b' w2'] t2]| |] eqn:Hk; try discriminate.
  inversion H; subst. exists a, w1, t1, t2. auto.
Qed.

Lemma lift_Ok_inv {A} (r : res A) w a w1 t :
  lift r w = Ok (a, w1, t) -> r = Ok a /\ w1 = w /\ t = [].
Proof.
  unfold lift. destruct r; intros H; inversion H; subst; auto.
Qed.

Lemma ret_Ok_inv {A} (x : A) w a w1 t :
  ret x w = Ok (a, w1, t) -> a = x /\ w1 = w /\ t = [].
Proof. unfold ret. intros H; inversion H; subst; auto. Qed.

Lemma cerr_Ok_inv d w a w1 t :
  cerr d w = Ok (a, w1, t) -> w1 = w /\ t = [Cerr d].
Proof. unfold cerr, emit. intros H; inversion H; subst; auto. Qed.

Lemma at_Ok {A} (v : list A) (i : Z) :
  0 <= i -> (Z.to_nat i < length v)%nat -> exists a, at_ v i = Ok a.
Proof.
  intros Hi Hlt. unfold at_.
  destruct (i <? 0) eqn:E; [apply Z.ltb_lt in E; lia|].
  destruct (nth_error v (Z.to_nat i)) eqn:N; [eauto|].
  apply nth_error_None in N. lia.
Qed.

Lemma at_Ok_inv {A} (v : list A) (i : Z) a :
  at_ v i = Ok a -> 0 <= i /\ nth_error v (Z.to_nat i) = Some a.
Proof.
  unfold at_. destruct (i <? 0) eqn:E; [discriminate|].
  apply Z.ltb_ge in E.
  destruct (nth_error v (Z.to_nat i)); intros H; inversion H; auto.
Qed.

Lemma set_nth_length {A} (v : list A) n a : length (set_nth v n a) = length v.
Proof.
  revert n; induction v as [|y v IH]; intros [|n]; simpl; auto.
Qed.

(** Inverting a computation that is known to have returned. *)
Tactic Notation "invert_bind" hyp(H) "as" ident(a) ident(w) ident(t1)
    ident(t2) ident(H1) ident(Ht) :=
  apply bind_Ok_inv in H;
  destruct H as (a & w & t1 & t2 & H1 & H & Ht).

(** The same, for a step that is a pure, fallible computation. *)
Tactic Notation "invert_lift" hyp(H) "as" ident(a) ident(H1) :=
  let w := fresh "wl" in
  let t1 := fresh "tl" in
  let t2 := fresh "tr" in
  let Ht := fresh "Htl" in
  apply bind_Ok_inv in H;
  destruct H as (a & w & t1 & t2 & H1 & H & Ht);
  apply lift_Ok_inv in H1;
  destruct H1 as (H1 & -> & ->);
  simpl in Ht; subst t2.

(* ================================================================== *)
(** ** The asynchronous stubs *)

(** C9.  Whatever the engine, the arguments and the world, [infer_async]
    returns false and [retrieve_infer_result_async] returns 0; neither
    touches the runtime nor emits anything. *)
Theorem async_operations_report_failure :
  forall (this : TRT.TrtInferenceEngine) (bufs sizes : list Z) (w : world),
    TRT.infer_async this bufs sizes w = Ok (false, w, [])
    /\ TRT.retrieve_infer_result_async this bufs sizes w = Ok (0, w, []).
Proof.
  intros this bufs sizes w. split; reflexivity.
Qed.

(* ================================================================== *)
(** ** The binding catalogue *)

Section Catalogue.

Import TRT.

Lemma process_bindings_spec :
  forall bs i this this',
    process_bindings bs i this = Ok this' ->
    num_inputs_ this' = num_inputs_ this
    /\ num_outputs_ this' = num_outputs_ this
    /\ input_dims_ this' = input_dims_ this ++ map binding_dims (inputs_of bs)
    /\ output_dims_ this' = output_dims_ this ++ map binding_dims (outputs_of bs)
    /\ input_shapes_ this'
       = input_shapes_ this ++ map binding_dims (inputs_of bs)
    /\ output_shapes_ this'
       = output_shapes_ this ++ map binding_dims (outputs_of bs)
    /\ input_cuda_buffers_ this' = input_cuda_buffers_ this
    /\ output_cuda_buffers_ this' = output_cuda_buffers_ this
    /\ bindings_ this' = bindings_ this
    /\ engine_ this' = engine_ this.
Proof.
  induction bs as [|b bs IH]; intros i this this' H; simpl in H.
  - inversion H; subst. unfold inputs_of, outputs_of; simpl.
    rewrite !app_nil_r. repeat split; reflexivity.
  - destruct (validate_dimensions i 0 (binding_dims b)); simpl in H;
      try discriminate.
    destruct (binding_name b) as [name|]; simpl in H; try discriminate.
    apply IH in H. unfold inputs_of, outputs_of in *. simpl.
    destruct (binding_is_input b); simpl in *;
      destruct H as (H1 & H2 & H3 & H4 & H5 & H6 & H7 & H8 & H9 & H10);
      rewrite H1, H2, H3, H4, H5, H6, H7, H8, H9, H10;
      rewrite <- ?app_assoc; simpl; repeat split; reflexivity.
Qed.

(** The counts are taken from the vectors just after they are cleared,
    and nothing assigns them afterwards. *)
Lemma calculate_model_parameters_spec :
  forall this this' m,
    engine_ this = Some m ->
    calculate_model_parameters this = Ok this' ->
    get_num_inputs this' = 0
    /\ get_num_outputs this' = 0
    /\ get_input_shapes this'
       = input_shapes_ this ++ map binding_dims (inputs_of m)
    /\ get_output_shapes this'
       = output_shapes_ this ++ map binding_dims (outputs_of m)
    /\ input_cuda_buffers_ this' = input_cuda_buffers_ this
    /\ output_cuda_buffers_ this' = output_cuda_buffers_ this
    /\ bindings_ this' = bindings_ this.
Proof.
  intros this this' m Hm H. unfold calculate_model_parameters in H.
  rewrite Hm in H.
  match type of H with
  | rbind (process_bindings ?bs ?i ?s) _ = _ =>
      destruct (process_bindings bs i s) as [s1| |] eqn:Hp;
        simpl in H; try discriminate
  end.
  apply process_bindings_spec in Hp. simpl in Hp.
  destruct Hp as (H1 & H2 & H3 & H4 & H5 & H6 & H7 & H8 & H9 & H10).
  destruct (element_counts (input_dims_ s1) "input" _); simpl in H;
    try discriminate.
  destruct (element_counts (output_dims_ s1) "output" _); simpl in H;
    try discriminate.
  destruct (summary_loop _ _ _); simpl in H; try discriminate.
  destruct (summary_loop _ _ _); simpl in H; try discriminate.
  inversion H; subst; clear H.
  unfold get_num_inputs, get_num_outputs, get_input_shapes, get_output_shapes.
  simpl. rewrite H1, H2, H5, H6, H7, H8, H9.
  repeat split; reflexivity.
Qed.

(** With no input counted, [allocate_buffers] refuses to allocate. *)
Lemma allocate_buffers_without_counts :
  forall this w,
    input_cuda_buffers_ this = [] ->
    output_cuda_buffers_ this = [] ->
    num_inputs_ this = 0 ->
    allocate_buffers this w
    = Ok (this, w, [Cerr (InvalidIOCounts 0 (num_outputs_ this))]).
Proof.
  intros this w Hi Ho Hn. unfold allocate_buffers.
  rewrite Hi, Ho, Hn. reflexivity.
Qed.

(** Whatever the model, a constructed engine reports no input and no
    output, holds no buffer, and has the shapes of the model's bindings
    of each role, in binding order. *)
Lemma constructor_spec :
  forall d junk_in junk_out w this w' t,
    constructor d junk_in junk_out w = Ok (this, w', t) ->
    exists m,
      d = Some m
      /\ get_num_inputs this = 0
      /\ get_num_outputs this = 0
      /\ get_input_shapes this = map binding_dims (inputs_of m)
      /\ get_output_shapes this = map binding_dims (outputs_of m)
      /\ buffers_empty this
      /\ w' = w
      /\ t = [Cerr (InvalidIOCounts 0 0)].
Proof.
  intros d j1 j2 w this w' t H. unfold constructor in H.
  invert_lift H as a Hl. invert_lift H as b Hc.
  destruct d as [m|]; simpl in Hl; [|discriminate].
  inversion Hl; subst a; clear Hl.
  eapply calculate_model_parameters_spec in Hc; [|reflexivity].
  simpl in Hc. destruct Hc as (H1 & H2 & H3 & H4 & H5 & H6 & H7).
  rewrite allocate_buffers_without_counts in H by assumption.
  unfold get_num_outputs in H2. rewrite H2 in H.
  inversion H; subst. exists m.
  unfold buffers_empty. simpl. repeat split; assumption.
Qed.

Lemma validate_dimensions_ok :
  forall d i j, Forall (fun x => 0 < x) d -> validate_dimensions i j d = Ok tt.
Proof.
  induction d as [|x d IH]; intros i j H; simpl; [reflexivity|].
  inversion H; subst.
  destruct (x <=? 0) eqn:E; [apply Z.leb_le in E; lia|]. auto.
Qed.

Lemma elements_loop_ok :
  forall d role j acc,
    Forall (fun x => 0 < x) d -> exists n, elements_loop role j d acc = Ok n.
Proof.
  induction d as [|x d IH]; intros role j acc H; simpl; [eauto|].
  inversion H; subst.
  destruct (x <=? 0) eqn:E; [apply Z.leb_le in E; lia|]. auto.
Qed.

Lemma element_counts_ok :
  forall all role acc,
    Forall (fun d => d <> [] /\ Forall (fun x => 0 < x) d) all ->
    exists counts,
      element_counts all role acc = Ok counts
      /\ length counts = (length acc + length all)%nat.
Proof.
  induction all as [|d all IH]; intros role acc H; simpl.
  - exists acc. split; [reflexivity|lia].
  - inversion H as [|? ? [Hne Hpos] Hall]; subst.
    unfold validate_and_calculate_elements.
    destruct (size d =? 0) eqn:E.
    { apply Z.eqb_eq in E. unfold size in E. destruct d; [congruence|].
      simpl in E. lia. }
    destruct (elements_loop_ok d role 0 1 Hpos) as [n Hn].
    rewrite Hn. simpl.
    destruct (IH role (acc ++ [n]) Hall) as (c & Hc & Hlen).
    exists c. split; [assumption|]. rewrite Hlen, length_app. simpl. lia.
Qed.

Lemma process_bindings_ok :
  forall bs i this,
    valid_model bs -> exists this', process_bindings bs i this = Ok this'.
Proof.
  induction bs as [|b bs IH]; intros i this H; simpl; [eauto|].
  inversion H as [|? ? ((name & Hname) & _ & Hpos) Hall]; subst.
  rewrite (validate_dimensions_ok _ i 0 Hpos), Hname. simpl.
  apply IH. assumption.
Qed.

Lemma valid_dims_of :
  forall (keep : Binding -> bool) m,
    valid_model m ->
    Forall (fun d => d <> [] /\ Forall (fun x => 0 < x) d)
           (map binding_dims (filter keep m)).
Proof.
  intros keep m H. induction H as [|b m (_ & Hne & Hpos) Hall IH]; simpl.
  - constructor.
  - destruct (keep b); simpl; [constructor; auto|assumption].
Qed.

(** Construction succeeds on every valid model. *)
Lemma constructor_ok :
  forall m junk_in junk_out w,
    valid_model m ->
    exists this,
      constructor (Some m) junk_in junk_out w
      = Ok (this, w, [Cerr (InvalidIOCounts 0 0)]).
Proof.
  intros m j1 j2 w Hm.
  assert (Hc : exists this,
             calculate_model_parameters
               (mkEngine (Some m) j1 j2 [] [] [] [] [] [] [] [] [] [] [])
             = Ok this).
  { unfold calculate_model_parameters. simpl.
    match goal with
    | |- context [process_bindings m 0 ?s] =>
        destruct (process_bindings_ok m 0 s Hm) as [s1 Hp];
        rewrite Hp; simpl;
        apply process_bindings_spec in Hp; simpl in Hp
    end.
    destruct Hp as (H1 & H2 & H3 & H4 & _ & _ & _ & _ & _ & _).
    destruct (element_counts_ok (input_dims_ s1) "input"
                (trt_input_element_counts_ s1)) as (ic & Hic & _).
    { rewrite H3. apply valid_dims_of. assumption. }
    destruct (element_counts_ok (output_dims_ s1) "output"
                (trt_output_element_counts_ s1)) as (oc & Hoc & _).
    { rewrite H4. apply valid_dims_of. assumption. }
    rewrite Hic, Hoc, H1, H2. simpl. eauto. }
  destruct Hc as [this Hc].
  pose proof Hc as Hs.
  eapply calculate_model_parameters_spec in Hs; [|reflexivity].
  simpl in Hs. destruct Hs as (H1 & H2 & _ & _ & H5 & H6 & _).
  exists this. unfold constructor. simpl.
  eapply bind_Ok with (t1 := []); [unfold lift; reflexivity|].
  eapply bind_Ok with (t1 := []); [unfold lift; rewrite Hc; reflexivity|].
  rewrite allocate_buffers_without_counts by assumption.
  unfold get_num_outputs in H2. rewrite H2. reflexivity.
Qed.

End Catalogue.

(** C1.  Construction on the detection model (one input, four outputs)
    completes, and the engine then reports [get_num_inputs() = 0] and
    [get_num_outputs() = 0], with one input shape and four output shapes
    in binding order; [allocate_buffers] has refused the counts. *)
Theorem constructor_counts_on_yolo_model :
  forall junk_in junk_out : Z,
    exists this,
      TRT.constructor (Some yolo_model) junk_in junk_out
        (fresh_world always idle)
      = Ok (this, fresh_world always idle, [Cerr (InvalidIOCounts 0 0)])
      /\ TRT.get_num_inputs this = 0
      /\ TRT.get_num_outputs this = 0
      /\ TRT.get_input_shapes this = [[1; 3; 640; 640]]
      /\ TRT.get_output_shapes this
         = [[1; 1]; [1; 100; 4]; [1; 100]; [1; 100]].
Proof.
  intros j1 j2. eexists. split; [vm_compute; reflexivity|].
  repeat split; reflexivity.
Qed.

(* ================================================================== *)
(** ** The size gate of infer_b *)

Section SizeGate.

Import TRT.
Variables input_size output_size : list Z.

(** X9.  A rejection by [infer_b] leaves the world as it was and emits one
    diagnostic: no copy, no execution. *)
Lemma infer_b_rejection_is_silent :
  forall this ib sin ob sout w w' t,
    infer_b input_size output_size this ib sin ob sout w = Ok (false, w', t) ->
    w' = w /\ exists d, t = [Cerr d].
Proof.
  intros this ib sin ob sout w w' t H. unfold infer_b in H.
  invert_lift H as e_in He.
  invert_bind H as differs w1 t1 t2 Hd Ht.
  assert (Hw : w1 = w /\ t1 = []).
  { destruct (negb (list_eqb input_size e_in)).
    - apply ret_Ok_inv in Hd. tauto.
    - invert_lift Hd as e_out Ho.
      apply ret_Ok_inv in Hd. tauto. }
  destruct Hw as [-> ->]. subst t. simpl.
  destruct differs.
  - invert_lift H as e1 H1. invert_lift H as e2 H2.
    invert_bind H as u w1 t1 t3 Hc Ht.
    apply cerr_Ok_inv in Hc. destruct Hc as (-> & ->).
    apply ret_Ok_inv in H. destruct H as (_ & -> & ->). subst.
    split; [reflexivity|]. eexists; reflexivity.
  - destruct (negb (size ib =? size (input_cuda_buffers_ this))
              || negb (size ob =? size (output_cuda_buffers_ this))).
    + invert_bind H as u w1 t1 t3 Hc Ht.
      apply cerr_Ok_inv in Hc. destruct Hc as (-> & ->).
      apply ret_Ok_inv in H. destruct H as (_ & -> & ->). subst.
      split; [reflexivity|]. eexists; reflexivity.
    + invert_bind H as u1 w1 t1 t3 H1 Ht1.
      invert_bind H as u2 w2 t4 t5 H2 Ht2.
      invert_bind H as u3 w3 t6 t7 H3 Ht3.
      apply ret_Ok_inv in H. destruct H as (H & _). discriminate.
Qed.

(** X10.  Whether [infer_b] rejects does not depend on the byte sizes the
    caller declares. *)
Lemma infer_b_rejection_ignores_declared_sizes :
  forall this ib sin ob sout w w' t,
    infer_b input_size output_size this ib sin ob sout w = Ok (false, w', t) ->
    forall sin' sout',
      infer_b input_size output_size this ib sin' ob sout' w
      = Ok (false, w', t).
Proof.
  intros this ib sin ob sout w w' t H sin' sout'.
  unfold infer_b in *.
  invert_lift H as e_in He.
  invert_bind H as differs w1 t1 t2 Hd Ht.
  eapply bind_Ok_eq;
    [unfold lift; rewrite He; reflexivity| |reflexivity].
  eapply bind_Ok_eq; [exact Hd| |exact Ht].
  destruct differs; [exact H|].
  destruct (negb (size ib =? size (input_cuda_buffers_ this))
            || negb (size ob =? size (output_cuda_buffers_ this)));
    [exact H|].
  exfalso.
  invert_bind H as u1 w2 t3 t4 H1 Ht1.
  invert_bind H as u2 w3 t5 t6 H2 Ht2.
  invert_bind H as u3 w4 t7 t8 H3 Ht3.
  apply ret_Ok_inv in H. destruct H as (H & _). discriminate.
Qed.

End SizeGate.

(** The sibling [validate_buffers] does compare index by index. *)
Lemma validate_buffers_rejects_mismatch :
  TRT.validate_buffers pair_session [101] [15] [102] [16] pair_world
  = Ok (false, pair_world, [Cerr (InputSizeMismatch 0 16 15)]).
Proof. vm_compute. reflexivity. Qed.

(** C2.  The engine expects 16 bytes for its only input; the caller
    declares 15.  [infer_b] returns true, having copied 15 bytes to the
    device, executed, and copied the output back. *)
Theorem infer_b_accepts_mismatched_size :
  TRT.get_input_size_bytes pair_session sizeof_float = Ok [16]
  /\ exists w',
       TRT.infer_b [16] [16] pair_session [101] [15] [102] [16] pair_world
       = Ok (true, w',
             [ MemcpyHostToDevice 1 101 15;
               ExecuteV2 [1; 2];
               MemcpyDeviceToHost 102 2 16 ]).
Proof.
  split; [reflexivity|]. eexists. vm_compute. reflexivity.
Qed.

(* ================================================================== *)
(** ** The detection decoder *)

Section Decoder.

Import YOLO.

(** The threshold the comparison uses. *)
Lemma CONFIDENCE_SCORE_THRESHOLD_value : CONFIDENCE_SCORE_THRESHOLD = 0.
Proof. reflexivity. Qed.

Lemma rejected_iff_below_zero :
  forall d, rejected d = float_lt (score d) (S754_zero false).
Proof. intros d. reflexivity. Qed.

(** A score that is not below 0.25, the value 0.25 included, is not
    rejected. *)
Lemma score_not_below_quarter_is_kept :
  forall d,
    float_lt (score d) literal_0_25f = false -> kept d = true.
Proof.
  intros d H. unfold kept. rewrite rejected_iff_below_zero.
  destruct (score d) as [[|]|[|]| |[|] m e]; try reflexivity;
    discriminate H.
Qed.

Lemma score_of_exactly_quarter_is_kept :
  forall d, score d = float_of_bits f_0_25 -> kept d = true.
Proof.
  intros d H. apply score_not_below_quarter_is_kept. rewrite H. reflexivity.
Qed.

(** The loop appends, in index order, the record of every detection it
    does not reject. *)
Lemma detection_loop_spec :
  forall h bboxes scores labels raws i rs,
    (forall k d, nth_error raws k = Some d ->
       read_detection h bboxes scores labels (i + Z.of_nat k) = Ok d) ->
    detection_loop h bboxes scores labels (length raws) i rs
    = Ok (rs ++ map current_obj (filter kept raws)).
Proof.
  intros h bboxes scores labels raws.
  induction raws as [|d raws IH]; intros i rs Hread; simpl.
  - rewrite app_nil_r. reflexivity.
  - assert (Hd := Hread 0%nat d eq_refl). simpl in Hd.
    rewrite Z.add_0_r in Hd. rewrite Hd. simpl.
    assert (Hrest : forall k d', nth_error raws k = Some d' ->
              read_detection h bboxes scores labels (i + 1 + Z.of_nat k)
              = Ok d').
    { intros k d' Hk. specialize (Hread (S k) d' Hk).
      replace (i + 1 + Z.of_nat k) with (i + Z.of_nat (S k)) by lia.
      exact Hread. }
    unfold kept at 1. destruct (rejected d); simpl.
    + apply IH. exact Hrest.
    + rewrite (IH (i + 1) (rs ++ [current_obj d]) Hrest).
      rewrite <- app_assoc. reflexivity.
Qed.

Lemma load_word_ok :
  forall h p buf idx,
    lookup h p = Some buf -> 0 <= idx -> 4 * idx + 4 <= size buf ->
    exists w, load_word h p idx = Ok w.
Proof.
  intros h p buf idx Hl Hi Hs. unfold load_word. rewrite Hl.
  unfold size in Hs.
  destruct (at_Ok buf (4 * idx)) as [b0 H0]; [lia|lia|].
  destruct (at_Ok buf (4 * idx + 1)) as [b1 H1]; [lia|lia|].
  destruct (at_Ok buf (4 * idx + 2)) as [b2 H2]; [lia|lia|].
  destruct (at_Ok buf (4 * idx + 3)) as [b3 H3]; [lia|lia|].
  rewrite H0, H1, H2, H3. simpl. eauto.
Qed.

Lemma load_float_ok :
  forall h p buf idx,
    lookup h p = Some buf -> 0 <= idx -> 4 * idx + 4 <= size buf ->
    exists f, load_float h p idx = Ok f.
Proof.
  intros h p buf idx Hl Hi Hs. unfold load_float.
  destruct (load_word_ok h p buf idx Hl Hi Hs) as [w Hw].
  rewrite Hw. simpl. eauto.
Qed.

(** Buffers that hold [n] detections can be read for each of them. *)
Lemma read_detection_ok :
  forall h bboxes scores labels bb sc lb n i,
    lookup h bboxes = Some bb -> 16 * n <= size bb ->
    lookup h scores = Some sc -> 4 * n <= size sc ->
    lookup h labels = Some lb -> 4 * n <= size lb ->
    0 <= i < n ->
    exists d, read_detection h bboxes scores labels i = Ok d.
Proof.
  intros h bboxes scores labels bb sc lb n i Hb Hbs Hs Hss Hl Hls Hi.
  unfold read_detection.
  destruct (load_float_ok h bboxes bb (i * 4 + 0) Hb) as [a Ha]; [lia|lia|].
  destruct (load_float_ok h bboxes bb (i * 4 + 1) Hb) as [b Hb']; [lia|lia|].
  destruct (load_float_ok h bboxes bb (i * 4 + 2) Hb) as [c Hc]; [lia|lia|].
  destruct (load_float_ok h bboxes bb (i * 4 + 3) Hb) as [d Hd]; [lia|lia|].
  destruct (load_float_ok h scores sc i Hs) as [s Hs']; [lia|lia|].
  destruct (load_word_ok h labels lb i Hl) as [l Hl']; [lia|lia|].
  rewrite Ha, Hb', Hc, Hd, Hs'. simpl. unfold load_int32. rewrite Hl'.
  simpl. eauto.
Qed.

(** What the loop reads, gathered in a list. *)
Lemma raw_detections_exist :
  forall h bboxes scores labels n i,
    (forall k, (k < n)%nat ->
       exists d, read_detection h bboxes scores labels (i + Z.of_nat k) = Ok d) ->
    exists raws,
      length raws = n
      /\ forall k d, nth_error raws k = Some d ->
           read_detection h bboxes scores labels (i + Z.of_nat k) = Ok d.
Proof.
  intros h bboxes scores labels n.
  induction n as [|n IH]; intros i Hread.
  - exists []. split; [reflexivity|]. intros [|k] d H; discriminate.
  - destruct (Hread 0%nat) as [d0 Hd0]; [lia|].
    destruct (IH (i + 1)) as (raws & Hlen & Hraws).
    { intros k Hk. destruct (Hread (S k)) as [d Hd]; [lia|].
      exists d. replace (i + 1 + Z.of_nat k) with (i + Z.of_nat (S k)) by lia.
      exact Hd. }
    exists (d0 :: raws). split; [simpl; lia|].
    intros [|k] d H; simpl in H.
    + inversion H; subst. exact Hd0.
    + replace (i + Z.of_nat (S k)) with (i + 1 + Z.of_nat k) by lia.
      apply Hraws. exact H.
Qed.

(** Post-processing, once the pointers and the count are known. *)
Lemma post_process_spec :
  forall st rs w p0 p1 p2 p3 rest c,
    output_data st = p0 :: p1 :: p2 :: p3 :: rest ->
    load_int32 (host w) p0 0 = Ok c ->
    post_process st rs w
    = if (c <? 0) || (c >? 100)
      then Ok ((-1, rs, clear_results_buffer st), w,
               [Cerr (ImpossibleDetections c)])
      else match detection_loop (host w) p1 p2 p3 (Z.to_nat c) 0 rs with
           | Ok rs' => Ok ((0, rs', clear_results_buffer st), w, [])
           | Throw e => Throw e
           | Undefined f => Undefined f
           end.
Proof.
  intros st rs w p0 p1 p2 p3 rest c Hout Hc.
  unfold post_process. simpl. rewrite Hout.
  unfold bind at 1. simpl.
  unfold bind at 1. unfold read_host at 1. rewrite Hc. simpl.
  unfold bind at 1. simpl. unfold bind at 1. simpl. unfold bind at 1. simpl.
  destruct ((c <? 0) || (c >? 100)); [reflexivity|].
  unfold bind, read_host.
  destruct (detection_loop (host w) p1 p2 p3 (Z.to_nat c) 0 rs);
    reflexivity.
Qed.

Variables input_size output_size : list Z.

(** X16.  [identify_objects] returns -1 or 0, whatever it appends. *)
Lemma identify_objects_returns_minus_one_or_zero :
  forall st img rs w r rs' st' w' t,
    identify_objects input_size output_size st img rs w
    = Ok ((r, rs', st'), w', t) ->
    r = -1 \/ r = 0.
Proof.
  intros st img rs w r rs' st' w' t H. unfold identify_objects in H.
  invert_bind H as reached w1 t1 t2 Hr Ht.
  destruct reached.
  - unfold post_process in H.
    invert_lift H as p Hp.
    invert_bind H as num_dets w2 t3 t4 Hn Ht2.
    invert_lift H as bboxes Hb.
    invert_lift H as scores Hs.
    invert_lift H as labels Hl.
    destruct ((num_dets <? 0) || (num_dets >? 100)).
    + invert_bind H as u w3 t5 t6 Hc Ht3.
      apply ret_Ok_inv in H. destruct H as (H & _).
      inversion H. auto.
    + invert_bind H as rs1 w3 t5 t6 Hc Ht3.
      apply ret_Ok_inv in H. destruct H as (H & _).
      inversion H. auto.
  - apply ret_Ok_inv in H. destruct H as (H & _). inversion H. auto.
Qed.

End Decoder.

(** X17.  On an engine as the constructor leaves it, [identify_objects]
    stops at its check of the I/O counts: it returns -1, appends nothing
    and calls nothing. *)
Lemma identify_objects_on_constructed_engine :
  forall input_size output_size d junk_in junk_out w0 eng w1 t st img rs w,
    TRT.constructor d junk_in junk_out w0 = Ok (eng, w1, t) ->
    YOLO.initialized st = true ->
    YOLO.engine st = Some eng ->
    YOLO.identify_objects input_size output_size st img rs w
    = Ok ((-1, rs, st), w, [Cerr (UnexpectedIOCount 0 0)]).
Proof.
  intros isz osz d j1 j2 w0 eng w1 t st img rs w Hc Hi He.
  apply constructor_spec in Hc.
  destruct Hc as (m & _ & Hn & Hm & _).
  unfold YOLO.identify_objects, YOLO.run_inference.
  rewrite Hi, He, Hn, Hm. reflexivity.
Qed.

Lemma read_detection_fields :
  forall h bboxes scores labels i d,
    YOLO.read_detection h bboxes scores labels i = Ok d ->
    YOLO.load_float h bboxes (i * 4 + 0) = Ok (YOLO.x1 d)
    /\ YOLO.load_float h bboxes (i * 4 + 1) = Ok (YOLO.y1 d)
    /\ YOLO.load_float h bboxes (i * 4 + 2) = Ok (YOLO.x2 d)
    /\ YOLO.load_float h bboxes (i * 4 + 3) = Ok (YOLO.y2 d)
    /\ YOLO.load_float h scores i = Ok (YOLO.score d)
    /\ YOLO.load_int32 h labels i = Ok (YOLO.label d).
Proof.
  intros h bboxes scores labels i d H. unfold YOLO.read_detection in H.
  destruct (YOLO.load_float h bboxes (i * 4 + 0)); simpl in H; try discriminate.
  destruct (YOLO.load_float h bboxes (i * 4 + 1)); simpl in H; try discriminate.
  destruct (YOLO.load_float h bboxes (i * 4 + 2)); simpl in H; try discriminate.
  destruct (YOLO.load_float h bboxes (i * 4 + 3)); simpl in H; try discriminate.
  destruct (YOLO.load_float h scores i); simpl in H; try discriminate.
  destruct (YOLO.load_int32 h labels i); simpl in H; try discriminate.
  inversion H; subst; simpl. repeat split; reflexivity.
Qed.

(** C7.  Once the inference stage has succeeded, a detection count
    outside [0,100] makes [identify_objects] print the diagnostic and
    return -1 with the caller's vector untouched; a count of 0 makes it
    return 0, without a diagnostic, the vector untouched as well. *)
Theorem identify_objects_count_gate :
  forall input_size output_size st img rs w w1 t1 p0 p1 p2 p3 rest c,
    YOLO.run_inference input_size output_size st img w = Ok (true, w1, t1) ->
    YOLO.output_data st = p0 :: p1 :: p2 :: p3 :: rest ->
    YOLO.load_int32 (host w1) p0 0 = Ok c ->
    (c < 0 \/ 100 < c ->
       YOLO.identify_objects input_size output_size st img rs w
       = Ok ((-1, rs, YOLO.clear_results_buffer st), w1,
             t1 ++ [Cerr (ImpossibleDetections c)]))
    /\ (c = 0 ->
       YOLO.identify_objects input_size output_size st img rs w
       = Ok ((0, rs, YOLO.clear_results_buffer st), w1, t1)).
Proof.
  intros isz osz st img rs w w1 t1 p0 p1 p2 p3 rest c Hrun Hout Hc.
  pose proof (post_process_spec st rs w1 p0 p1 p2 p3 rest c Hout Hc) as Hpost.
  split; intros Hcount; unfold YOLO.identify_objects.
  - eapply bind_Ok; [exact Hrun|]. simpl. rewrite Hpost.
    replace ((c <? 0) || (c >? 100)) with true; [reflexivity|].
    symmetry. apply orb_true_iff.
    destruct Hcount; [left; apply Z.ltb_lt|right; apply Z.gtb_lt]; lia.
  - eapply bind_Ok_eq; [exact Hrun| |symmetry; apply app_nil_r].
    simpl. rewrite Hpost. subst c. reflexivity.
Qed.

Lemma identify_objects_count_gate_witness :
  (exists w t,
     YOLO.identify_objects tiny_input_sizes tiny_output_sizes loaded one_pixel []
       (loaded_world (fake_graph 101 [] [] []))
     = Ok ((-1, [], YOLO.clear_results_buffer loaded), w, t))
  /\ (exists w t,
     YOLO.identify_objects tiny_input_sizes tiny_output_sizes loaded one_pixel []
       (loaded_world (fake_graph (-1) [] [] []))
     = Ok ((-1, [], YOLO.clear_results_buffer loaded), w, t))
  /\ (exists w t,
     YOLO.identify_objects tiny_input_sizes tiny_output_sizes loaded one_pixel []
       (loaded_world (fake_graph 0 [] [] []))
     = Ok ((0, [], YOLO.clear_results_buffer loaded), w, t)).
Proof.
  split; [|split].
  - edestruct (identify_objects_count_gate tiny_input_sizes tiny_output_sizes
                 loaded one_pixel []
                 (loaded_world (fake_graph 101 [] [] [])))
      as [Hbad _];
      [vm_compute; reflexivity|reflexivity|vm_compute; reflexivity|].
    eexists; eexists. apply Hbad. right. reflexivity.
  - edestruct (identify_objects_count_gate tiny_input_sizes tiny_output_sizes
                 loaded one_pixel []
                 (loaded_world (fake_graph (-1) [] [] [])))
      as [Hbad _];
      [vm_compute; reflexivity|reflexivity|vm_compute; reflexivity|].
    eexists; eexists. apply Hbad. left. reflexivity.
  - edestruct (identify_objects_count_gate tiny_input_sizes tiny_output_sizes
                 loaded one_pixel []
                 (loaded_world (fake_graph 0 [] [] [])))
      as [_ Hzero];
      [vm_compute; reflexivity|reflexivity|vm_compute; reflexivity|].
    eexists; eexists. apply Hzero. reflexivity.
Defined.

(** C8.  Once the inference stage has succeeded with a count [c] in
    [0,100] and output buffers that hold [c] detections, [identify_objects]
    appends to the caller's vector, in detection-index order, one record
    per detection its filter keeps: x and y are the first corner read from
    the boxes tensor, width and height the differences to the second
    corner, confidence the score and class id the label. *)
Theorem identify_objects_records :
  forall input_size output_size st img rs w w1 t1 p0 p1 p2 p3 rest c bb sc lb,
    YOLO.run_inference input_size output_size st img w = Ok (true, w1, t1) ->
    YOLO.output_data st = p0 :: p1 :: p2 :: p3 :: rest ->
    YOLO.load_int32 (host w1) p0 0 = Ok c ->
    0 <= c <= 100 ->
    lookup (host w1) p1 = Some bb -> 16 * c <= size bb ->
    lookup (host w1) p2 = Some sc -> 4 * c <= size sc ->
    lookup (host w1) p3 = Some lb -> 4 * c <= size lb ->
    exists raws ret,
      length raws = Z.to_nat c
      /\ (forall k d, nth_error raws k = Some d ->
            let i := Z.of_nat k in
            YOLO.load_float (host w1) p1 (i * 4 + 0) = Ok (YOLO.x1 d)
            /\ YOLO.load_float (host w1) p1 (i * 4 + 1) = Ok (YOLO.y1 d)
            /\ YOLO.load_float (host w1) p1 (i * 4 + 2) = Ok (YOLO.x2 d)
            /\ YOLO.load_float (host w1) p1 (i * 4 + 3) = Ok (YOLO.y2 d)
            /\ YOLO.load_float (host w1) p2 i = Ok (YOLO.score d)
            /\ YOLO.load_int32 (host w1) p3 i = Ok (YOLO.label d))
      /\ YOLO.identify_objects input_size output_size st img rs w
         = Ok ((ret, rs ++ map YOLO.current_obj (filter kept raws),
                YOLO.clear_results_buffer st), w1, t1)
      /\ Forall (fun d =>
           let r := YOLO.current_obj d in
           YOLO.x (YOLO.rect r) = YOLO.x1 d
           /\ YOLO.y (YOLO.rect r) = YOLO.y1 d
           /\ YOLO.width (YOLO.rect r) = float_sub (YOLO.x2 d) (YOLO.x1 d)
           /\ YOLO.height (YOLO.rect r) = float_sub (YOLO.y2 d) (YOLO.y1 d)
           /\ YOLO.confidence r = YOLO.score d
           /\ YOLO.class_id r = YOLO.label d) raws.
Proof.
  intros isz osz st img rs w w1 t1 p0 p1 p2 p3 rest c bb sc lb
         Hrun Hout Hc Hrange Hbb Hbs Hsc Hss Hlb Hls.
  destruct (raw_detections_exist (host w1) p1 p2 p3 (Z.to_nat c) 0)
    as (raws & Hlen & Hraws).
  { intros k Hk. simpl.
    apply (read_detection_ok (host w1) p1 p2 p3 bb sc lb c); auto; lia. }
  exists raws, 0. split; [exact Hlen|]. split; [|split].
  - intros k d Hk. apply read_detection_fields.
    specialize (Hraws k d Hk). simpl in Hraws. exact Hraws.
  - unfold YOLO.identify_objects.
    eapply bind_Ok_eq; [exact Hrun| |symmetry; apply app_nil_r].
    simpl. rewrite (post_process_spec st rs w1 p0 p1 p2 p3 rest c Hout Hc).
    replace ((c <? 0) || (c >? 100)) with false.
    + rewrite <- Hlen. rewrite (detection_loop_spec _ _ _ _ raws 0 rs Hraws).
      reflexivity.
    + symmetry. apply orb_false_iff. split.
      * apply Z.ltb_ge. lia.
      * rewrite Z.gtb_ltb. apply Z.ltb_ge. lia.
  - apply Forall_forall. intros d _. simpl. repeat split; reflexivity.
Qed.

Lemma identify_objects_records_witness :
  exists raws ret w t,
    length raws = 3%nat
    /\ YOLO.identify_objects tiny_input_sizes tiny_output_sizes loaded one_pixel []
         (loaded_world three_detections)
       = Ok ((ret, [] ++ map YOLO.current_obj (filter kept raws),
              YOLO.clear_results_buffer loaded), w, t).
Proof.
  edestruct (identify_objects_records tiny_input_sizes tiny_output_sizes
               loaded one_pixel [] (loaded_world three_detections))
    as (raws & ret & Hlen & _ & Hrun & _);
    [ vm_compute; reflexivity
    | reflexivity
    | vm_compute; reflexivity
    | vm_compute; split; discriminate
    | vm_compute; reflexivity
    | vm_compute; discriminate
    | vm_compute; reflexivity
    | vm_compute; discriminate
    | vm_compute; reflexivity
    | vm_compute; discriminate
    | ].
  exists raws, ret. eexists; eexists. split; [exact Hlen|exact Hrun].
Defined.

(** C3.  The synthetic output set: count 3, scores 0.9, 0.1 and 0.3.  The
    score 0.1 is below 0.25, yet [identify_objects] appends three records,
    for detections 0, 1 and 2. *)
Theorem identify_objects_keeps_score_below_threshold :
  float_lt (float_of_bits f_0_1) YOLO.literal_0_25f = true
  /\ exists ret rs st w t,
       YOLO.identify_objects tiny_input_sizes tiny_output_sizes loaded
         one_pixel [] (loaded_world three_detections)
       = Ok ((ret, rs, st), w, t)
       /\ map YOLO.confidence rs
          = [float_of_bits f_0_9; float_of_bits f_0_1; float_of_bits f_0_3]
       /\ map YOLO.class_id rs = [7; 8; 9].
Proof.
  split; [reflexivity|].
  do 5 eexists. split; [vm_compute; reflexivity|].
  split; reflexivity.
Qed.

(** C10.  On the same output set [identify_objects] returns 0 and has
    appended three records to the caller's vector. *)
Theorem identify_objects_returns_zero_with_three_records :
  exists rs st w t,
    YOLO.identify_objects tiny_input_sizes tiny_output_sizes loaded
      one_pixel [] (loaded_world three_detections)
    = Ok ((0, rs, st), w, t)
    /\ length rs = 3%nat.
Proof.
  do 4 eexists. split; [vm_compute; reflexivity|reflexivity].
Qed.

(* ================================================================== *)
(** ** Teardown *)

(** After any [unload_model] that returned, the next one indexes the
    cleared [input_data]. *)
Lemma unload_model_after_unload :
  forall st w st1 w1 t1,
    YOLO.unload_model st w = Ok (st1, w1, t1) ->
    YOLO.unload_model st1 w1 = Undefined OutOfBounds.
Proof.
  intros st w st1 w1 t1 H. unfold YOLO.unload_model in H.
  invert_bind H as u1 w2 t2 t3 H1 Ht1.
  invert_bind H as u2 w3 t4 t5 H2 Ht2.
  invert_bind H as u3 w4 t6 t7 H3 Ht3.
  apply ret_Ok_inv in H. destruct H as (H & _ & _). subst st1.
  reflexivity.
Qed.

(** C4.  From the loaded state the first [unload_model] returns, with
    every device and host buffer released; the second one reads
    [input_data[0]] of the now empty vector. *)
Theorem unload_model_twice_is_out_of_bounds :
  exists st1 w1 t1,
    YOLO.unload_model loaded (loaded_world idle) = Ok (st1, w1, t1)
    /\ YOLO.input_data st1 = []
    /\ dev w1 = [] /\ host w1 = []
    /\ YOLO.unload_model st1 w1 = Undefined OutOfBounds.
Proof.
  do 3 eexists. split; [vm_compute; reflexivity|].
  repeat split; reflexivity.
Qed.

(* ================================================================== *)
(** ** The buffer lifecycle *)

Section ListFacts.

Lemma resize_length : forall v n, length (resize v n) = Z.to_nat n.
Proof.
  intros v n. unfold resize.
  rewrite length_app, length_firstn, repeat_length. lia.
Qed.

Lemma resize_empty : forall n, resize [] n = repeat 0 (Z.to_nat n).
Proof.
  intros n. unfold resize. rewrite firstn_nil. simpl.
  rewrite Nat.sub_0_r. reflexivity.
Qed.

Lemma firstn_set_nth {A} :
  forall (v : list A) n a,
    (n < length v)%nat ->
    firstn (S n) (set_nth v n a) = firstn n v ++ [a].
Proof.
  induction v as [|y v IH]; intros n a Hn; simpl in Hn; [lia|].
  destruct n as [|n]; simpl.
  - reflexivity.
  - f_equal. apply IH. lia.
Qed.

Lemma skipn_set_nth {A} :
  forall (v : list A) n m a,
    skipn (S n + m) (set_nth v n a) = skipn (S n + m) v.
Proof.
  induction v as [|y v IH]; intros n m a.
  - reflexivity.
  - destruct n as [|n]; simpl.
    + reflexivity.
    + apply (IH n m a).
Qed.

Lemma owned_app : forall a b, owned (a ++ b) = owned a ++ owned b.
Proof. intros a b. unfold owned. apply filter_app. Qed.

Lemma owned_nonzero :
  forall ps, Forall (fun p => p <> 0) ps -> owned ps = ps.
Proof.
  induction 1 as [|p ps Hp _ IH]; simpl; [reflexivity|].
  destruct (p =? 0) eqn:E; [apply Z.eqb_eq in E; contradiction|].
  simpl. f_equal. exact IH.
Qed.

Lemma owned_zeros : forall n m, owned (skipn m (repeat 0 n)) = [].
Proof.
  induction n as [|n IH]; intros m; simpl.
  - destruct m; reflexivity.
  - destruct m as [|m]; simpl.
    + apply (IH 0%nat).
    + apply IH.
Qed.

End ListFacts.

Section Lifecycle.

Import TRT.

Lemma size_bytes_loop_ok :
  forall counts es k i sizes,
    0 <= i ->
    (Z.to_nat i + k <= length counts)%nat ->
    (Z.to_nat i + k <= length sizes)%nat ->
    exists sizes',
      size_bytes_loop counts es k i sizes = Ok sizes'
      /\ length sizes' = length sizes.
Proof.
  intros counts es k. induction k as [|k IH]; intros i sizes Hi Hc Hs; simpl.
  - eauto.
  - destruct (at_Ok counts i) as [c Hc']; [lia|lia|].
    destruct (at_Ok sizes i) as [s Hs']; [lia|lia|].
    rewrite Hc', Hs'. simpl.
    destruct (IH (i + 1) (set_nth sizes (Z.to_nat i) (to_size_t (c * es))))
      as (sizes' & Hr & Hl).
    + lia.
    + lia.
    + rewrite set_nth_length. lia.
    + exists sizes'. split; [exact Hr|].
      rewrite Hl. apply set_nth_length.
Qed.

(** The byte sizes exist whenever the element counts cover the count. *)
Lemma size_bytes_ok :
  forall counts n es,
    0 <= n <= size counts ->
    exists sizes,
      size_bytes counts n es = Ok sizes /\ length sizes = Z.to_nat n.
Proof.
  intros counts n es [Hn Hs]. unfold size_bytes.
  destruct (n <? 0) eqn:E; [apply Z.ltb_lt in E; lia|].
  unfold size in Hs.
  destruct (size_bytes_loop_ok counts es (Z.to_nat n) 0
              (repeat 0 (Z.to_nat n))) as (sizes & Hr & Hl).
  - lia.
  - simpl. lia.
  - rewrite repeat_length. simpl. lia.
  - exists sizes. split; [exact Hr|]. rewrite Hl. apply repeat_length.
Qed.

(** Releasing a list of addresses keeps the buffers at other addresses. *)
Lemma release_all :
  forall ps m,
    fold_left release ps m
    = filter (fun e => negb (existsb (Z.eqb (fst e)) ps)) m.
Proof.
  induction ps as [|p ps IH]; intros m; simpl.
  - induction m as [|e m IHm]; simpl; [reflexivity|]. f_equal. exact IHm.
  - rewrite IH. unfold release.
    induction m as [|e m IHm]; simpl; [reflexivity|].
    destruct (fst e =? p) eqn:E; simpl.
    + exact IHm.
    + destruct (existsb (Z.eqb (fst e)) ps); simpl; [exact IHm|].
      f_equal. exact IHm.
Qed.

Lemma release_news :
  forall ps news d,
    (forall e, In e news -> In (fst e) ps) ->
    Forall (fun e => ~ In (fst e) ps) d ->
    fold_left release ps (news ++ d) = d.
Proof.
  intros ps news d Hnews Hd. rewrite release_all, filter_app.
  assert (H1 : filter (fun e => negb (existsb (Z.eqb (fst e)) ps)) news = []).
  { induction news as [|e news IH]; simpl; [reflexivity|].
    assert (He : existsb (Z.eqb (fst e)) ps = true).
    { apply existsb_exists. exists (fst e). split.
      - apply Hnews. left. reflexivity.
      - apply Z.eqb_refl. }
    rewrite He. simpl. apply IH. intros e' He'. apply Hnews. right. exact He'. }
  rewrite H1. simpl.
  induction Hd as [|e d He _ IH]; simpl; [reflexivity|].
  assert (Hx : existsb (Z.eqb (fst e)) ps = false).
  { destruct (existsb (Z.eqb (fst e)) ps) eqn:E; [|reflexivity].
    apply existsb_exists in E. destruct E as (x & Hx & Heq).
    apply Z.eqb_eq in Heq. subst x. contradiction. }
  rewrite Hx. simpl. f_equal. exact IH.
Qed.

Lemma with_dev_same : forall w, with_dev w (dev w) = w.
Proof. intros []. reflexivity. Qed.

(** The loop frees the non-null buffers, each once, in order. *)
Lemma free_loop_spec :
  forall bufs w,
    free_loop bufs w
    = Ok (tt, with_dev w (fold_left release (owned bufs) (dev w)),
          map CudaFree (owned bufs)).
Proof.
  induction bufs as [|buf bufs IH]; intros w; simpl.
  - rewrite with_dev_same. reflexivity.
  - unfold bind. destruct (buf =? 0) eqn:E; simpl.
    + rewrite IH. reflexivity.
    + rewrite IH. reflexivity.
Qed.

Lemma deallocate_buffers_spec :
  forall this w,
    deallocate_buffers this w
    = Ok (with_buffers this [] [] [],
          with_dev w (fold_left release
                        (owned (input_cuda_buffers_ this)
                         ++ owned (output_cuda_buffers_ this)) (dev w)),
          map CudaFree (owned (input_cuda_buffers_ this)
                        ++ owned (output_cuda_buffers_ this))).
Proof.
  intros this w. unfold deallocate_buffers, bind.
  rewrite !free_loop_spec. simpl.
  rewrite fold_left_app, map_app, app_nil_r. reflexivity.
Qed.

(** What a returning allocation loop guarantees, whatever the world. *)
Lemma alloc_loop_inv :
  forall failed sizes k i bufs w ok bufs' w' t,
    alloc_loop failed sizes k i bufs w = Ok ((ok, bufs'), w', t) ->
    length bufs' = length bufs
    /\ (ok = false -> exists sz, In (CudaMalloc sz None) t).
Proof.
  intros failed sizes k.
  induction k as [|k IH]; intros i bufs w ok bufs' w' t H; simpl in H.
  - apply ret_Ok_inv in H. destruct H as (H & _ & _).
    inversion H; subst. split; [reflexivity|discriminate].
  - invert_lift H as b Hb. invert_lift H as bytes Hs.
    invert_bind H as r w1 t1 t2 Hm Ht.
    unfold cudaMalloc in Hm.
    destruct (malloc_ok w (mallocs w) bytes); inversion Hm; subst; clear Hm.
    + apply IH in H. destruct H as (Hl & Hf).
      rewrite set_nth_length in Hl. split; [exact Hl|].
      intros Hok. destruct (Hf Hok) as [sz Hsz].
      exists sz. right. exact Hsz.
    + invert_bind H as u w2 t3 t4 Hc Ht2.
      apply cerr_Ok_inv in Hc. destruct Hc as (-> & ->).
      apply ret_Ok_inv in H. destruct H as (H & _ & ->).
      inversion H; subst. split; [reflexivity|].
      intros _. exists bytes. left. reflexivity.
Qed.

End Lifecycle.

(** C6.  After a call of [allocate_buffers] in which no [cudaMalloc]
    failed (so that no rollback freed anything), a second call prints an
    error and returns with the engine, its buffers and binding table, and
    the world exactly as they were. *)
Theorem allocate_buffers_twice :
  forall this w this1 w1 t1,
    TRT.allocate_buffers this w = Ok (this1, w1, t1) ->
    (forall sz, ~ In (CudaMalloc sz None) t1) ->
    exists d,
      TRT.allocate_buffers this1 w1 = Ok (this1, w1, [Cerr d])
      /\ (d = AlreadyAllocated
          \/ d = InvalidIOCounts (TRT.num_inputs_ this1) (TRT.num_outputs_ this1)).
Proof.
  intros this w this1 w1 t1 H Hnofail.
  unfold TRT.allocate_buffers in H.
  destruct (negb (is_empty (TRT.input_cuda_buffers_ this))
            || negb (is_empty (TRT.output_cuda_buffers_ this))) eqn:G1.
  { invert_bind H as u w2 t2 t3 Hc Ht.
    apply cerr_Ok_inv in Hc. destruct Hc as (-> & ->).
    apply ret_Ok_inv in H. destruct H as (-> & -> & ->).
    exists AlreadyAllocated. split; [|left; reflexivity].
    unfold TRT.allocate_buffers. rewrite G1. reflexivity. }
  destruct ((TRT.num_inputs_ this <? 1) || (TRT.num_outputs_ this <? 1)) eqn:G2.
  { invert_bind H as u w2 t2 t3 Hc Ht.
    apply cerr_Ok_inv in Hc. destruct Hc as (-> & ->).
    apply ret_Ok_inv in H. destruct H as (-> & -> & ->).
    exists (InvalidIOCounts (TRT.num_inputs_ this) (TRT.num_outputs_ this)).
    split; [|right; reflexivity].
    unfold TRT.allocate_buffers. rewrite G1, G2. reflexivity. }
  apply orb_false_iff in G2. destruct G2 as [Gin Gout].
  apply Z.ltb_ge in Gin. apply Z.ltb_ge in Gout.
  invert_lift H as input_sizes Hin. invert_lift H as output_sizes Hout.
  invert_bind H as r w2 t2 t3 Hloop Ht.
  destruct r as [ok ins]. simpl in H.
  apply alloc_loop_inv in Hloop. destruct Hloop as (Hlen & Hfail).
  rewrite resize_length in Hlen.
  destruct ok; simpl in H.
  - invert_bind H as r w3 t4 t5 Hloop Ht2.
    destruct r as [ok outs]. simpl in H.
    apply alloc_loop_inv in Hloop. destruct Hloop as (_ & Hfail2).
    destruct ok; simpl in H.
    + apply ret_Ok_inv in H. destruct H as (-> & -> & ->).
      exists AlreadyAllocated. split; [|left; reflexivity].
      unfold TRT.allocate_buffers. simpl.
      destruct ins as [|p ins]; [simpl in Hlen; lia|]. reflexivity.
    + exfalso. destruct (Hfail2 eq_refl) as [sz Hsz].
      apply (Hnofail sz). subst t1 t3.
      apply in_or_app. right. apply in_or_app. left. exact Hsz.
  - exfalso. destruct (Hfail eq_refl) as [sz Hsz].
    apply (Hnofail sz). subst t1.
    apply in_or_app. left. exact Hsz.
Qed.

Lemma allocate_buffers_twice_witness :
  exists this1 w1 t1,
    TRT.allocate_buffers pair_engine (fresh_world always idle)
    = Ok (this1, w1, t1)
    /\ TRT.allocate_buffers this1 w1 = Ok (this1, w1, [Cerr AlreadyAllocated]).
Proof.
  exists pair_session.
  exists (mkWorld [ (2, zeros 16); (1, zeros 16) ] [] 3 2 always idle).
  exists [CudaMalloc 16 (Some 1); CudaMalloc 16 (Some 2)].
  assert (Hfirst : TRT.allocate_buffers pair_engine (fresh_world always idle)
                   = Ok (pair_session,
                         mkWorld [ (2, zeros 16); (1, zeros 16) ] [] 3 2
                           always idle,
                         [CudaMalloc 16 (Some 1); CudaMalloc 16 (Some 2)])).
  { reflexivity. }
  split; [exact Hfirst|].
  destruct (allocate_buffers_twice _ _ _ _ _ Hfirst) as (d & Hsecond & Hd).
  - intros sz [Hin|[Hin|[]]]; discriminate Hin.
  - destruct Hd as [-> | ->]; [exact Hsecond|].
    vm_compute in Hsecond. discriminate Hsecond.
Defined.

Section Allocation.

Import TRT.

(** One step of an allocation loop whose [cudaMalloc] succeeds. *)
Lemma alloc_loop_step_ok :
  forall failed sizes k i bufs w b bytes,
    at_ bufs i = Ok b ->
    at_ sizes i = Ok bytes ->
    malloc_ok w (mallocs w) bytes = true ->
    alloc_loop failed sizes (S k) i bufs w
    = match alloc_loop failed sizes k (i + 1)
              (set_nth bufs (Z.to_nat i) (next_ptr w))
              (mkWorld ((next_ptr w, repeat 0 (Z.to_nat bytes)) :: dev w)
                 (host w) (next_ptr w + 1) (S (mallocs w))
                 (malloc_ok w) (graph w)) with
      | Ok (r, w', t) => Ok (r, w', CudaMalloc bytes (Some (next_ptr w)) :: t)
      | Throw e => Throw e
      | Undefined f => Undefined f
      end.
Proof.
  intros failed sizes k i bufs w b bytes Hb Hs Hm.
  simpl. unfold bind, lift, cudaMalloc. rewrite Hb, Hs, Hm.
  destruct (alloc_loop failed sizes k (i + 1) _ _) as [[[r w'] t]| |];
    reflexivity.
Qed.

(** One step of an allocation loop whose [cudaMalloc] fails. *)
Lemma alloc_loop_step_fail :
  forall failed sizes k i bufs w b bytes,
    at_ bufs i = Ok b ->
    at_ sizes i = Ok bytes ->
    malloc_ok w (mallocs w) bytes = false ->
    alloc_loop failed sizes (S k) i bufs w
    = Ok ((false, bufs),
          mkWorld (dev w) (host w) (next_ptr w) (S (mallocs w))
            (malloc_ok w) (graph w),
          [CudaMalloc bytes None; Cerr (failed i bytes)]).
Proof.
  intros failed sizes k i bufs w b bytes Hb Hs Hm.
  simpl. unfold bind, lift, cudaMalloc. rewrite Hb, Hs, Hm. reflexivity.
Qed.

(** An allocation loop over a long enough vector returns.  It has
    stored the addresses [ps] it obtained from index [i] on; the new
    device buffers are exactly those, all fresh. *)
Lemma alloc_loop_spec :
  forall failed sizes k i bufs w,
    0 <= i ->
    (Z.to_nat i + k <= length bufs)%nat ->
    (Z.to_nat i + k <= length sizes)%nat ->
    exists ok ps news w' t,
      alloc_loop failed sizes k i bufs w
      = Ok ((ok, firstn (Z.to_nat i) bufs ++ ps
                 ++ skipn (Z.to_nat i + length ps) bufs), w', t)
      /\ dev w' = news ++ dev w
      /\ map fst news = rev ps
      /\ next_ptr w <= next_ptr w'
      /\ Forall (fun p => next_ptr w <= p) ps
      /\ (ok = true ->
          length ps = k /\ forall sz, ~ In (CudaMalloc sz None) t)
      /\ (forall p sz, In (CudaMalloc sz (Some p)) t -> In p ps).
Proof.
  intros failed sizes k.
  induction k as [|k IH]; intros i bufs w Hi Hb Hs.
  - exists true, [], [], w, []. simpl.
    rewrite Nat.add_0_r, firstn_skipn.
    repeat split; auto; try lia.
  - destruct (at_Ok bufs i) as [b Hb']; [lia|lia|].
    destruct (at_Ok sizes i) as [bytes Hs']; [lia|lia|].
    destruct (malloc_ok w (mallocs w) bytes) eqn:Hm.
    + rewrite (alloc_loop_step_ok _ _ _ _ _ _ _ _ Hb' Hs' Hm).
      set (p := next_ptr w).
      set (w1 := mkWorld _ _ _ _ _ _).
      destruct (IH (i + 1) (set_nth bufs (Z.to_nat i) p) w1)
        as (ok & ps & news & w' & t & Hrun & Hdev & Hkeys & Hnext & Hps
            & Hok & Hin).
      * lia.
      * rewrite set_nth_length. lia.
      * lia.
      * rewrite Hrun.
        exists ok, (p :: ps), (news ++ [(p, repeat 0 (Z.to_nat bytes))]), w',
               (CudaMalloc bytes (Some p) :: t).
        replace (Z.to_nat (i + 1)) with (S (Z.to_nat i)) by lia.
        rewrite firstn_set_nth by lia.
        rewrite skipn_set_nth.
        split.
        { rewrite <- app_assoc. simpl.
          replace (Z.to_nat i + S (length ps))%nat
            with (S (Z.to_nat i + length ps)) by lia.
          reflexivity. }
        split. { rewrite Hdev. subst w1. simpl. rewrite <- app_assoc. reflexivity. }
        split. { rewrite map_app, Hkeys. reflexivity. }
        split. { subst w1. simpl in Hnext. subst p. lia. }
        split.
        { constructor; [subst p; lia|].
          eapply Forall_impl; [|exact Hps].
          intros q Hq. subst w1. simpl in Hq. subst p. lia. }
        split.
        { intros Htrue. destruct (Hok Htrue) as [Hlen Hnone].
          split; [simpl; lia|].
          intros sz [Hbad|Hbad]; [discriminate|].
          exact (Hnone sz Hbad). }
        intros q sz [Heq|Hq].
        { inversion Heq; subst. left. reflexivity. }
        right. exact (Hin q sz Hq).
    + rewrite (alloc_loop_step_fail _ _ _ _ _ _ _ _ Hb' Hs' Hm).
      exists false, [], [].
      eexists. eexists. simpl.
      rewrite Nat.add_0_r, firstn_skipn.
      split; [reflexivity|].
      repeat split; auto; try discriminate.
      * simpl. lia.
      * intros p sz [H|[H|[]]]; discriminate.
Qed.

End Allocation.

Lemma fresh_not_held :
  forall (d : memory) (ps : list Z) (bound : Z),
    Forall (fun e => fst e < bound) d ->
    Forall (fun p => bound <= p) ps ->
    Forall (fun e => ~ In (fst e) ps) d.
Proof.
  intros d ps bound Hd Hps. eapply Forall_impl; [|exact Hd].
  intros e He Hin. rewrite Forall_forall in Hps.
  specialize (Hps _ Hin). simpl in *. lia.
Qed.

Lemma keys_held :
  forall (news : memory) (ps qs : list Z),
    map fst news = rev ps ->
    forall e, In e news -> In (fst e) (ps ++ qs).
Proof.
  intros news ps qs Hkeys e He. apply in_or_app. left.
  apply in_rev. rewrite <- Hkeys. apply in_map. exact He.
Qed.

Lemma positive_nonzero :
  forall (ps : list Z) (bound : Z),
    0 < bound -> Forall (fun p => bound <= p) ps -> Forall (fun p => p <> 0) ps.
Proof.
  intros ps bound Hb Hps. eapply Forall_impl; [|exact Hps].
  intros p Hp. simpl in *. lia.
Qed.

(** C5.  Started with no buffer or with a complete set (one live buffer
    per counted binding), [allocate_buffers] returns with no buffer or
    with a complete set.  If a [cudaMalloc] of
    the call failed, the three vectors are empty, device memory is what it
    was before the call, and every address the call obtained has been
    passed to [cudaFree]. *)
Theorem allocate_buffers_all_or_nothing :
  forall this w,
    heap_ok w ->
    counts_available this ->
    buffers_empty this \/ buffers_complete this w ->
    exists this' w' t,
      TRT.allocate_buffers this w = Ok (this', w', t)
      /\ (buffers_empty this' \/ buffers_complete this' w')
      /\ ((exists sz, In (CudaMalloc sz None) t) ->
          buffers_empty this'
          /\ dev w' = dev w
          /\ forall p sz, In (CudaMalloc sz (Some p)) t -> In (CudaFree p) t).
Proof.
  intros this w [Hpos Hfresh] [Hcin Hcout] [Hempty|Hcomplete].
  2: { pose proof Hcomplete as (Hn & _ & Hsz & _).
       exists this, w, [Cerr AlreadyAllocated].
       split; [|split; [right; exact Hcomplete|]].
       - unfold TRT.allocate_buffers.
         destruct (TRT.input_cuda_buffers_ this); [unfold size in Hsz; simpl in Hsz; lia|].
         reflexivity.
       - intros [sz [H|[]]]. discriminate. }
  pose proof Hempty as (Hi & Ho & Hb).
  unfold TRT.allocate_buffers. rewrite Hi, Ho.
  change (negb (is_empty (@nil Z)) || negb (is_empty (@nil Z))) with false.
  cbv iota.
  destruct ((TRT.num_inputs_ this <? 1) || (TRT.num_outputs_ this <? 1)) eqn:G.
  { exists this, w. eexists. split; [reflexivity|].
    split; [left; exact Hempty|].
    intros [sz [H|[]]]. discriminate. }
  apply orb_false_iff in G. destruct G as [Gin Gout].
  apply Z.ltb_ge in Gin. apply Z.ltb_ge in Gout.
  destruct (size_bytes_ok (TRT.trt_input_element_counts_ this)
              (TRT.num_inputs_ this) sizeof_float) as (isz & Hisz & Hil); [lia|].
  destruct (size_bytes_ok (TRT.trt_output_element_counts_ this)
              (TRT.num_outputs_ this) sizeof_float) as (osz & Hosz & Hol); [lia|].
  destruct (alloc_loop_spec AllocInputFailed isz (Z.to_nat (TRT.num_inputs_ this))
              0 (resize [] (TRT.num_inputs_ this)) w)
    as (ok1 & ps1 & news1 & w1 & t1 & Hrun1 & Hdev1 & Hkeys1 & Hnext1 & Hps1
        & Hok1 & Hin1).
  { lia. } { rewrite resize_length. simpl. lia. } { simpl. lia. }
  simpl in Hrun1.
  unfold TRT.get_input_size_bytes, TRT.get_output_size_bytes.
  unfold bind at 1. unfold lift at 1. rewrite Hisz.
  unfold bind at 1. unfold lift at 1. rewrite Hosz.
  unfold bind at 1. rewrite Hrun1. cbv beta iota.
  cbn [fst snd TRT.with_buffers TRT.input_cuda_buffers_
       TRT.output_cuda_buffers_ TRT.bindings_ TRT.num_outputs_].
  assert (Hnz1 : Forall (fun p => p <> 0) ps1)
    by (eapply positive_nonzero; eassumption).
  destruct ok1.
  - (* every input buffer was allocated *)
    destruct (Hok1 eq_refl) as [Hlen1 Hnone1].
    assert (Hins : ps1 ++ skipn (length ps1) (resize [] (TRT.num_inputs_ this)) = ps1).
    { rewrite skipn_all2; [apply app_nil_r|]. rewrite resize_length. lia. }
    rewrite Hins. cbn [negb].
    destruct (alloc_loop_spec AllocOutputFailed osz
                (Z.to_nat (TRT.num_outputs_ this)) 0
                (resize [] (TRT.num_outputs_ this)) w1)
      as (ok2 & ps2 & news2 & w2 & t2 & Hrun2 & Hdev2 & Hkeys2 & Hnext2 & Hps2
          & Hok2 & Hin2).
    { lia. } { rewrite resize_length. simpl. lia. } { simpl. lia. }
    simpl in Hrun2.
    unfold bind at 1. rewrite Hrun2. cbv beta iota.
    cbn [fst snd TRT.with_buffers TRT.input_cuda_buffers_
         TRT.output_cuda_buffers_ TRT.bindings_ TRT.num_outputs_].
    assert (Hps2' : Forall (fun p => next_ptr w <= p) ps2).
    { eapply Forall_impl; [|exact Hps2]. intros p Hp. simpl in *. lia. }
    assert (Hnz2 : Forall (fun p => p <> 0) ps2)
      by (eapply positive_nonzero; eassumption).
    destruct ok2.
    + (* every output buffer was allocated *)
      destruct (Hok2 eq_refl) as [Hlen2 Hnone2].
      assert (Houts : ps2 ++ skipn (length ps2) (resize [] (TRT.num_outputs_ this)) = ps2).
      { rewrite skipn_all2; [apply app_nil_r|]. rewrite resize_length. lia. }
      rewrite Houts. cbn [negb]. unfold ret.
      eexists. eexists. eexists. split; [reflexivity|].
      split.
      * right. unfold buffers_complete. simpl.
        unfold size. rewrite Hlen1, Hlen2.
        repeat split; try lia.
        rewrite Hdev2, Hdev1, !map_app, Hkeys2, Hkeys1.
        apply Forall_app. split; apply Forall_forall; intros p Hp.
        -- split; [exact (proj1 (Forall_forall _ _) Hnz1 p Hp)|].
           apply in_or_app. right. apply in_or_app. left.
           apply in_rev in Hp. exact Hp.
        -- split; [exact (proj1 (Forall_forall _ _) Hnz2 p Hp)|].
           apply in_or_app. left. apply in_rev in Hp. exact Hp.
      * intros [sz Hsz]. exfalso. rewrite app_nil_r in Hsz.
        simpl in Hsz.
        apply in_app_or in Hsz. destruct Hsz as [Hsz|Hsz].
        -- exact (Hnone1 sz Hsz).
        -- exact (Hnone2 sz Hsz).
    + (* an output allocation failed: roll back *)
      cbn [negb].
      rewrite deallocate_buffers_spec.
      cbn [TRT.with_buffers TRT.input_cuda_buffers_ TRT.output_cuda_buffers_].
      rewrite owned_app, (owned_nonzero ps1 Hnz1), (owned_nonzero ps2 Hnz2).
      rewrite resize_empty, owned_zeros, app_nil_r.
      eexists. eexists. eexists. split; [reflexivity|].
      split; [left; unfold buffers_empty; simpl; auto|].
      intros _. split; [unfold buffers_empty; simpl; auto|].
      split.
      * simpl. rewrite Hdev2, Hdev1, app_assoc.
        apply release_news.
        -- intros e He. apply in_app_or in He. destruct He as [He|He].
           ++ apply in_or_app. right. apply in_rev. rewrite <- Hkeys2.
              apply in_map. exact He.
           ++ eapply keys_held; eassumption.
        -- eapply fresh_not_held; [exact Hfresh|].
           apply Forall_app. split; assumption.
      * cbn [app]. intros p sz Hp.
        apply in_or_app. right. apply in_or_app. right.
        apply in_map.
        apply in_app_or in Hp. destruct Hp as [Hp|Hp].
        -- apply in_or_app. left. exact (Hin1 p sz Hp).
        -- apply in_app_or in Hp. destruct Hp as [Hp|Hp].
           ++ apply in_or_app. right. exact (Hin2 p sz Hp).
           ++ exfalso. apply in_map_iff in Hp.
              destruct Hp as (q & Hq & _). discriminate.
  - (* an input allocation failed: roll back *)
    cbn [negb].
    rewrite deallocate_buffers_spec.
    cbn [TRT.with_buffers TRT.input_cuda_buffers_ TRT.output_cuda_buffers_].
    rewrite owned_app, (owned_nonzero ps1 Hnz1).
    rewrite resize_empty, owned_zeros. simpl owned. rewrite !app_nil_r.
    eexists. eexists. eexists. split; [reflexivity|].
    split; [left; unfold buffers_empty; simpl; auto|].
    intros _. split; [unfold buffers_empty; simpl; auto|].
    split.
    + simpl. rewrite Hdev1. apply release_news.
      * intros e He. apply in_rev. rewrite <- Hkeys1. apply in_map. exact He.
      * eapply fresh_not_held; eassumption.
    + cbn [app]. intros p sz Hp.
      apply in_or_app. right. apply in_map.
      apply in_app_or in Hp. destruct Hp as [Hp|Hp].
      * exact (Hin1 p sz Hp).
      * exfalso. apply in_map_iff in Hp.
        destruct Hp as (q & Hq & _). discriminate.
Qed.

Lemma allocate_buffers_all_or_nothing_witness :
  exists this' w' t,
    TRT.allocate_buffers pair_engine (fresh_world (all_but 1) idle)
    = Ok (this', w', t)
    /\ buffers_empty this'
    /\ dev w' = [].
Proof.
  destruct (allocate_buffers_all_or_nothing pair_engine
              (fresh_world (all_but 1) idle))
    as (this' & w' & t & Hrun & Hinv & Hfail).
  - split; [reflexivity|constructor].
  - split; vm_compute; discriminate.
  - left. repeat split; reflexivity.
  - exists this', w', t. split; [exact Hrun|].
    destruct Hfail as (He & Hd & _).
    + exists 16. pose proof Hrun as Hc. vm_compute in Hc.
      inversion Hc. right. left. reflexivity.
    + split; assumption.
Defined.

(* ================================================================== *)
(** ** More on the binding catalogue *)

Section CatalogueValues.

Import TRT.

Lemma product_positive :
  forall d, Forall (fun x => 0 < x) d -> 0 < product d.
Proof.
  induction 1 as [|x d Hx _ IH]; simpl; [lia|]. nia.
Qed.

Lemma elements_loop_value :
  forall d role j acc,
    Forall (fun x => 0 < x) d ->
    0 <= acc < SIZE_MAX_plus_1 ->
    elements_loop role j d acc = Ok (to_size_t (acc * product d)).
Proof.
  induction d as [|x d IH]; intros role j acc Hd Hacc; simpl.
  - unfold to_size_t. rewrite Z.mul_1_r, Z.mod_small by lia. reflexivity.
  - inversion Hd; subst.
    destruct (x <=? 0) eqn:E; [apply Z.leb_le in E; lia|].
    rewrite IH; auto.
    + unfold to_size_t. rewrite Z.mul_mod_idemp_l by (unfold SIZE_MAX_plus_1; lia).
      rewrite Z.mul_assoc. reflexivity.
    + unfold to_size_t. apply Z.mod_pos_bound. unfold SIZE_MAX_plus_1. lia.
Qed.

Lemma validate_and_calculate_elements_value :
  forall d name,
    d <> [] -> Forall (fun x => 0 < x) d ->
    validate_and_calculate_elements d name = Ok (to_size_t (product d)).
Proof.
  intros d name Hne Hpos. unfold validate_and_calculate_elements.
  destruct (size d =? 0) eqn:E.
  { apply Z.eqb_eq in E. unfold size in E. destruct d; [congruence|].
    simpl in E. lia. }
  rewrite elements_loop_value; auto.
  - rewrite Z.mul_1_l. reflexivity.
  - unfold SIZE_MAX_plus_1. lia.
Qed.

Lemma element_counts_value :
  forall all role acc,
    Forall (fun d => d <> [] /\ Forall (fun x => 0 < x) d) all ->
    element_counts all role acc
    = Ok (acc ++ map (fun d => to_size_t (product d)) all).
Proof.
  induction all as [|d all IH]; intros role acc H; simpl.
  - rewrite app_nil_r. reflexivity.
  - inversion H as [|? ? [Hne Hpos] Hall]; subst.
    rewrite validate_and_calculate_elements_value by assumption. simpl.
    rewrite IH by assumption. rewrite <- app_assoc. reflexivity.
Qed.

Lemma process_bindings_counts :
  forall bs i this this',
    process_bindings bs i this = Ok this' ->
    trt_input_element_counts_ this' = trt_input_element_counts_ this
    /\ trt_output_element_counts_ this' = trt_output_element_counts_ this.
Proof.
  induction bs as [|b bs IH]; intros i this this' H; simpl in H.
  - inversion H; subst. split; reflexivity.
  - destruct (validate_dimensions i 0 (binding_dims b)); simpl in H;
      try discriminate.
    destruct (binding_name b) as [name|]; simpl in H; try discriminate.
    apply IH in H. destruct (binding_is_input b); simpl in H; exact H.
Qed.

(** What a returning [calculate_model_parameters] has stored. *)
Lemma calculate_model_parameters_inv :
  forall this this' m,
    engine_ this = Some m ->
    calculate_model_parameters this = Ok this' ->
    engine_ this' = Some m
    /\ input_dims_ this' = map binding_dims (inputs_of m)
    /\ output_dims_ this' = map binding_dims (outputs_of m)
    /\ input_shapes_ this'
       = input_shapes_ this ++ map binding_dims (inputs_of m)
    /\ output_shapes_ this'
       = output_shapes_ this ++ map binding_dims (outputs_of m)
    /\ element_counts (map binding_dims (inputs_of m)) "input" []
       = Ok (trt_input_element_counts_ this')
    /\ element_counts (map binding_dims (outputs_of m)) "output" []
       = Ok (trt_output_element_counts_ this').
Proof.
  intros this this' m Hm H. unfold calculate_model_parameters in H.
  rewrite Hm in H.
  match type of H with
  | rbind (process_bindings ?bs ?i ?s) _ = _ =>
      destruct (process_bindings bs i s) as [s1| |] eqn:Hp;
        simpl in H; try discriminate
  end.
  pose proof (process_bindings_counts _ _ _ _ Hp) as [Hci Hco].
  simpl in Hci, Hco.
  apply process_bindings_spec in Hp. simpl in Hp.
  destruct Hp as (H1 & H2 & H3 & H4 & H5 & H6 & H7 & H8 & H9 & H10).
  rewrite Hci, Hco, H3, H4 in H.
  destruct (element_counts (map binding_dims (inputs_of m)) "input" [])
    as [ic| |] eqn:Hic; simpl in H; try discriminate.
  destruct (element_counts (map binding_dims (outputs_of m)) "output" [])
    as [oc| |] eqn:Hoc; simpl in H; try discriminate.
  destruct (summary_loop _ _ _); simpl in H; try discriminate.
  destruct (summary_loop _ _ _); simpl in H; try discriminate.
  inversion H; subst; clear H. simpl.
  repeat split; assumption || reflexivity.
Qed.

End CatalogueValues.

(** X1.  On every valid model construction completes; the engine then
    holds, for each role, the shapes of the model's bindings of that role
    in binding order and, as element counts, the products of their
    dimensions modulo 2^64; it holds no device buffer. *)
Theorem constructor_on_valid_model :
  forall m junk_in junk_out w,
    valid_model m ->
    exists this t,
      TRT.constructor (Some m) junk_in junk_out w = Ok (this, w, t)
      /\ TRT.get_input_shapes this = map TRT.binding_dims (inputs_of m)
      /\ TRT.get_output_shapes this = map TRT.binding_dims (outputs_of m)
      /\ TRT.get_input_elements this = map volume_of (inputs_of m)
      /\ TRT.get_output_elements this = map volume_of (outputs_of m)
      /\ buffers_empty this.
Proof.
  intros m j1 j2 w Hm.
  destruct (constructor_ok m j1 j2 w Hm) as [this Hrun].
  exists this. eexists. split; [exact Hrun|].
  pose proof Hrun as Hspec. apply constructor_spec in Hspec.
  destruct Hspec as (m' & Hm' & _ & _ & Hsi & Hso & Hempty & _).
  inversion Hm'; subst m'.
  unfold TRT.constructor in Hrun.
  invert_lift Hrun as a Hl. simpl in Hl. inversion Hl; subst a; clear Hl.
  invert_lift Hrun as b Hc.
  pose proof Hc as Hinv.
  eapply calculate_model_parameters_inv in Hinv; [|reflexivity].
  destruct Hinv as (_ & _ & _ & _ & _ & Hic & Hoc).
  rewrite element_counts_value in Hic by (apply valid_dims_of; exact Hm).
  rewrite element_counts_value in Hoc by (apply valid_dims_of; exact Hm).
  simpl in Hic, Hoc. rewrite map_map in Hic, Hoc.
  inversion Hic as [Hic']. inversion Hoc as [Hoc'].
  eapply calculate_model_parameters_spec in Hc; [|reflexivity].
  simpl in Hc. destruct Hc as (H1 & H2 & _ & _ & H5 & H6 & _).
  rewrite allocate_buffers_without_counts in Hrun by assumption.
  inversion Hrun; subst b.
  unfold TRT.get_input_elements, TRT.get_output_elements.
  rewrite <- Hic', <- Hoc'.
  split; [exact Hsi|]. split; [exact Hso|].
  split; [reflexivity|]. split; [reflexivity|]. exact Hempty.
Qed.

Lemma valid_yolo_model : valid_model yolo_model.
Proof.
  repeat constructor; try (eexists; reflexivity); try discriminate.
Qed.

Lemma constructor_on_valid_model_witness :
  exists this t,
    TRT.constructor (Some yolo_model) 7 9 (fresh_world always idle)
    = Ok (this, fresh_world always idle, t)
    /\ TRT.get_input_elements this = [1228800]
    /\ TRT.get_output_elements this = [1; 400; 100; 100].
Proof.
  destruct (constructor_on_valid_model yolo_model 7 9
              (fresh_world always idle) valid_yolo_model)
    as (this & t & Hrun & _ & _ & Hi & Ho & _).
  exists this, t. split; [exact Hrun|]. split.
  - rewrite Hi. reflexivity.
  - rewrite Ho. reflexivity.
Defined.


Section CatalogueErrors.

Import TRT.

Lemma size_cons {A} (a : A) (l : list A) : size (a :: l) = 1 + size l.
Proof. unfold size. simpl length. lia. Qed.

Lemma size_nonneg {A} (l : list A) : 0 <= size l.
Proof. unfold size. lia. Qed.

Lemma validate_dimensions_throws :
  forall good i j x rest,
    Forall (fun d => 0 < d) good ->
    x <= 0 ->
    validate_dimensions i j (good ++ x :: rest)
    = Throw (InvalidBindingDimension i (j + size good)).
Proof.
  induction good as [|g good IH]; intros i j x rest Hgood Hx; simpl.
  - destruct (x <=? 0) eqn:E; [|apply Z.leb_gt in E; lia].
    unfold size. simpl. rewrite Z.add_0_r. reflexivity.
  - inversion Hgood; subst.
    destruct (g <=? 0) eqn:E; [apply Z.leb_le in E; lia|].
    rewrite IH by assumption. rewrite size_cons.
    f_equal. f_equal. lia.
Qed.

(** The loop over the bindings passes over a well-formed prefix. *)
Lemma process_bindings_app :
  forall pre l i this,
    named_positive pre ->
    exists this',
      process_bindings (pre ++ l) i this
      = process_bindings l (i + size pre) this'.
Proof.
  induction pre as [|b pre IH]; intros l i this H; simpl.
  - exists this. unfold size. simpl. rewrite Z.add_0_r. reflexivity.
  - inversion H as [|? ? ((name & Hname) & Hpos) Hall]; subst.
    rewrite (validate_dimensions_ok _ i 0 Hpos), Hname. simpl.
    match goal with
    | |- context [process_bindings (pre ++ l) (i + 1) ?s] =>
        destruct (IH l (i + 1) s Hall) as [this' Hthis']
    end.
    exists this'. rewrite Hthis', size_cons. f_equal. lia.
Qed.

Lemma named_positive_ok :
  forall bs i this,
    named_positive bs -> exists this', process_bindings bs i this = Ok this'.
Proof.
  intros bs i this H.
  destruct (process_bindings_app bs [] i this H) as [this' Hthis'].
  exists this'. rewrite <- (app_nil_r bs) at 1. rewrite Hthis'. reflexivity.
Qed.

(** Element counts of shapes without a bad axis: the first shape without
    any axis stops the computation. *)
Lemma element_counts_no_axis :
  forall all role acc,
    Forall (fun d => Forall (fun x => 0 < x) d) all ->
    if existsb is_empty all
    then element_counts all role acc = Throw (NoDimensionsDetected role)
    else exists counts, element_counts all role acc = Ok counts.
Proof.
  induction all as [|d all IH]; intros role acc H; simpl.
  - eauto.
  - inversion H as [|? ? Hpos Hall]; subst.
    destruct d as [|x d]; simpl.
    + reflexivity.
    + rewrite validate_and_calculate_elements_value by (assumption || discriminate).
      simpl. apply IH. assumption.
Qed.

Lemma existsb_no_axis :
  forall keep m,
    existsb is_empty (map binding_dims (filter keep m))
    = existsb has_no_axis (filter keep m).
Proof.
  intros keep m. induction (filter keep m) as [|b l IH]; simpl; [reflexivity|].
  rewrite IH. reflexivity.
Qed.

Lemma existsb_by_role :
  forall m,
    existsb has_no_axis m
    = existsb has_no_axis (inputs_of m) || existsb has_no_axis (outputs_of m).
Proof.
  induction m as [|b m IH]; simpl; [reflexivity|].
  unfold inputs_of, outputs_of in *. simpl.
  destruct (binding_is_input b); simpl; rewrite IH.
  - rewrite orb_assoc. reflexivity.
  - rewrite !orb_assoc.
    rewrite (orb_comm (existsb has_no_axis (filter binding_is_input m))).
    reflexivity.
Qed.

Lemma positive_dims_of :
  forall (keep : Binding -> bool) m,
    named_positive m ->
    Forall (fun d => Forall (fun x => 0 < x) d)
           (map binding_dims (filter keep m)).
Proof.
  intros keep m H. induction H as [|b m (_ & Hpos) Hall IH]; simpl.
  - constructor.
  - destruct (keep b); simpl; [constructor; auto|assumption].
Qed.

End CatalogueErrors.

(** X2.  When the first ill-formed binding of the model, binding number
    [i], has a first axis that is zero or negative, axis number [j],
    [calculate_model_parameters] throws the error naming binding [i] and
    axis [j]. *)
Theorem calculate_model_parameters_rejects_bad_axis :
  forall this pre b post good x rest,
    TRT.engine_ this = Some (pre ++ b :: post) ->
    named_positive pre ->
    TRT.binding_dims b = good ++ x :: rest ->
    Forall (fun d => 0 < d) good ->
    x <= 0 ->
    TRT.calculate_model_parameters this
    = Throw (InvalidBindingDimension (size pre) (size good)).
Proof.
  intros this pre b post good x rest He Hpre Hdims Hgood Hx.
  unfold TRT.calculate_model_parameters. rewrite He.
  match goal with
  | |- context [TRT.process_bindings (pre ++ b :: post) 0 ?s] =>
      destruct (process_bindings_app pre (b :: post) 0 s Hpre) as [s' Hs']
  end.
  rewrite Hs'. simpl TRT.process_bindings.
  rewrite Hdims, validate_dimensions_throws by assumption.
  reflexivity.
Qed.

Lemma calculate_model_parameters_rejects_bad_axis_witness :
  TRT.calculate_model_parameters (engine_with bad_axis_model)
  = Throw (InvalidBindingDimension 1 1).
Proof.
  apply (calculate_model_parameters_rejects_bad_axis
           (engine_with bad_axis_model)
           [TRT.mkBinding (Some "in"%string) [1; 4] true]
           (TRT.mkBinding (Some "out"%string) [1; 0; 3] false)
           [] [1] 0 [3]).
  - reflexivity.
  - repeat constructor. eexists; reflexivity.
  - reflexivity.
  - repeat constructor.
  - lia.
Defined.

(** X3.  When every binding is named and no axis is zero or negative, but
    some binding has no axis at all, [calculate_model_parameters] throws
    the no-dimensions error, for the role "input" if an input binding has
    no axis and for the role "output" otherwise. *)
Theorem calculate_model_parameters_rejects_no_axis :
  forall this m,
    TRT.engine_ this = Some m ->
    named_positive m ->
    existsb has_no_axis m = true ->
    TRT.calculate_model_parameters this
    = Throw (NoDimensionsDetected
               (if existsb has_no_axis (inputs_of m)
                then "input"%string else "output"%string)).
Proof.
  intros this m He Hm Hex.
  unfold TRT.calculate_model_parameters. rewrite He.
  match goal with
  | |- context [TRT.process_bindings m 0 ?s] =>
      destruct (named_positive_ok m 0 s Hm) as [s1 Hp]
  end.
  rewrite Hp. simpl rbind.
  pose proof (process_bindings_counts _ _ _ _ Hp) as [Hci Hco].
  apply process_bindings_spec in Hp. simpl in Hp, Hci, Hco.
  destruct Hp as (H1 & H2 & H3 & H4 & _).
  rewrite H3, H4, Hci, Hco.
  pose proof (element_counts_no_axis (map TRT.binding_dims (inputs_of m))
                "input"%string [] (positive_dims_of _ m Hm)) as Hin.
  pose proof (element_counts_no_axis (map TRT.binding_dims (outputs_of m))
                "output"%string [] (positive_dims_of _ m Hm)) as Hout.
  unfold inputs_of in Hin at 1. unfold outputs_of in Hout at 1.
  rewrite existsb_no_axis in Hin, Hout.
  fold (inputs_of m) in Hin. fold (outputs_of m) in Hout.
  rewrite existsb_by_role in Hex.
  destruct (existsb has_no_axis (inputs_of m)).
  - rewrite Hin. reflexivity.
  - simpl in Hex. rewrite Hex in Hout.
    destruct Hin as [ic Hic]. rewrite Hic. simpl rbind.
    rewrite Hout. reflexivity.
Qed.

Lemma calculate_model_parameters_rejects_no_axis_witness :
  TRT.calculate_model_parameters (engine_with no_axis_model)
  = Throw (NoDimensionsDetected "output"%string).
Proof.
  apply (calculate_model_parameters_rejects_no_axis
           (engine_with no_axis_model) no_axis_model).
  - reflexivity.
  - repeat constructor; eexists; reflexivity.
  - reflexivity.
Defined.

(** X4.  [calculate_model_parameters] rebuilds the dimension and
    element-count vectors but does not clear the shape vectors: run a
    second time on the same model it leaves the element counts as they
    were and appends every shape once more. *)
Theorem calculate_model_parameters_twice :
  forall this m this1 this2,
    TRT.engine_ this = Some m ->
    TRT.calculate_model_parameters this = Ok this1 ->
    TRT.calculate_model_parameters this1 = Ok this2 ->
    TRT.get_input_elements this2 = TRT.get_input_elements this1
    /\ TRT.get_output_elements this2 = TRT.get_output_elements this1
    /\ TRT.get_input_shapes this2
       = TRT.get_input_shapes this1 ++ map TRT.binding_dims (inputs_of m)
    /\ TRT.get_output_shapes this2
       = TRT.get_output_shapes this1 ++ map TRT.binding_dims (outputs_of m).
Proof.
  intros this m this1 this2 He H1 H2.
  pose proof (calculate_model_parameters_inv _ _ m He H1)
    as (He1 & _ & _ & _ & _ & Hic1 & Hoc1).
  pose proof (calculate_model_parameters_inv _ _ m He1 H2)
    as (_ & _ & _ & Hs2 & Ht2 & Hic2 & Hoc2).
  rewrite Hic1 in Hic2. rewrite Hoc1 in Hoc2.
  inversion Hic2. inversion Hoc2.
  unfold TRT.get_input_elements, TRT.get_output_elements,
    TRT.get_input_shapes, TRT.get_output_shapes.
  repeat split; auto.
Qed.

Lemma calculate_model_parameters_twice_witness :
  exists this1 this2,
    TRT.calculate_model_parameters (engine_with pair_model) = Ok this1
    /\ TRT.calculate_model_parameters this1 = Ok this2
    /\ TRT.get_input_shapes this1 = [[1; 4]]
    /\ TRT.get_input_shapes this2 = [[1; 4]; [1; 4]].
Proof.
  pose (e1 := TRT.mkEngine (Some pair_model) 0 0 [[1; 4]] [[1; 4]]
                [[1; 4]] [[1; 4]] ["in"%string] ["out"%string]
                [] [] [] [4] [4]).
  pose (e2 := TRT.mkEngine (Some pair_model) 0 0 [[1; 4]] [[1; 4]]
                [[1; 4]; [1; 4]] [[1; 4]; [1; 4]]
                ["in"%string] ["out"%string]
                [] [] [] [4] [4]).
  assert (H1 : TRT.calculate_model_parameters (engine_with pair_model)
               = Ok e1) by reflexivity.
  assert (H2 : TRT.calculate_model_parameters e1 = Ok e2) by reflexivity.
  exists e1, e2.
  split; [exact H1|]. split; [exact H2|]. split; [reflexivity|].
  destruct (calculate_model_parameters_twice
              (engine_with pair_model) pair_model e1 e2 eq_refl H1 H2)
    as (_ & _ & Hs & _).
  rewrite Hs. reflexivity.
Defined.

(* ================================================================== *)
(** ** Byte sizes and buffer validation *)

Section Sizes.

Import TRT.

Lemma nth_error_skipn {A} :
  forall (v : list A) n x,
    nth_error v n = Some x -> skipn n v = x :: skipn (S n) v.
Proof.
  induction v as [|y v IH]; intros [|n] x H; simpl in H; try discriminate.
  - inversion H; subst. reflexivity.
  - apply IH in H. simpl. exact H.
Qed.

Lemma at_skipn {A} (v : list A) (i : Z) x :
  at_ v i = Ok x ->
  0 <= i /\ skipn (Z.to_nat i) v = x :: skipn (S (Z.to_nat i)) v.
Proof.
  intros H. apply at_Ok_inv in H. destruct H as [Hi Hn].
  split; [exact Hi|]. apply nth_error_skipn. exact Hn.
Qed.

Lemma at_beyond {A} (v : list A) (i : Z) :
  (length v <= Z.to_nat i)%nat -> at_ v i = Undefined OutOfBounds.
Proof.
  intros H. unfold at_. destruct (i <? 0); [reflexivity|].
  destruct (nth_error v (Z.to_nat i)) eqn:E; [|reflexivity].
  assert (nth_error v (Z.to_nat i) <> None) by congruence.
  apply nth_error_Some in H0. lia.
Qed.

Lemma size_bytes_loop_value :
  forall counts es k i sizes,
    0 <= i ->
    (Z.to_nat i + k <= length counts)%nat ->
    (Z.to_nat i + k <= length sizes)%nat ->
    size_bytes_loop counts es k i sizes
    = Ok (firstn (Z.to_nat i) sizes
          ++ map (fun c => to_size_t (c * es))
                 (firstn k (skipn (Z.to_nat i) counts))
          ++ skipn (Z.to_nat i + k) sizes).
Proof.
  intros counts es k. induction k as [|k IH]; intros i sizes Hi Hc Hs; simpl.
  - rewrite Nat.add_0_r, firstn_skipn. reflexivity.
  - destruct (at_Ok counts i) as [c Hc']; [lia|lia|].
    destruct (at_Ok sizes i) as [s Hs']; [lia|lia|].
    rewrite Hc', Hs'. simpl.
    apply at_skipn in Hc'. destruct Hc' as [_ Hskip].
    rewrite IH; [|lia|lia|rewrite set_nth_length; lia].
    replace (Z.to_nat (i + 1)) with (S (Z.to_nat i)) by lia.
    rewrite firstn_set_nth by lia.
    rewrite skipn_set_nth. rewrite Hskip. simpl.
    rewrite <- app_assoc. simpl.
    replace (Z.to_nat i + S k)%nat with (S (Z.to_nat i + k)) by lia.
    reflexivity.
Qed.

Lemma size_bytes_value :
  forall counts n es,
    0 <= n <= size counts ->
    size_bytes counts n es = Ok (byte_sizes counts n es).
Proof.
  intros counts n es [Hn Hs]. unfold size_bytes, byte_sizes.
  destruct (n <? 0) eqn:E; [apply Z.ltb_lt in E; lia|].
  unfold size in Hs.
  rewrite size_bytes_loop_value; [|lia|simpl; lia|rewrite repeat_length; simpl; lia].
  simpl. rewrite skipn_all2 by (rewrite repeat_length; lia).
  rewrite app_nil_r. reflexivity.
Qed.

Lemma size_bytes_loop_overrun :
  forall counts es k i sizes,
    0 <= i ->
    (Z.to_nat i <= length counts)%nat ->
    (length counts < Z.to_nat i + k)%nat ->
    (Z.to_nat i + k <= length sizes)%nat ->
    size_bytes_loop counts es k i sizes = Undefined OutOfBounds.
Proof.
  intros counts es k. induction k as [|k IH]; intros i sizes Hi Hle Hlt Hs.
  - lia.
  - simpl. destruct (Nat.eq_dec (Z.to_nat i) (length counts)) as [Heq|Hne].
    + rewrite at_beyond by lia. reflexivity.
    + destruct (at_Ok counts i) as [c Hc']; [lia|lia|].
      destruct (at_Ok sizes i) as [s Hs']; [lia|lia|].
      rewrite Hc', Hs'. simpl.
      apply IH; try lia. rewrite set_nth_length. lia.
Qed.

End Sizes.

(** X5.  When the counts the engine holds are covered by its element-count
    vectors, [get_input_size_bytes] and [get_output_size_bytes] return, in
    order, each of the first [num_inputs_] (or [num_outputs_]) element
    counts times the element size, modulo 2^64. *)
Theorem get_size_bytes_value :
  forall this element_size,
    0 <= TRT.num_inputs_ this <= size (TRT.trt_input_element_counts_ this) ->
    0 <= TRT.num_outputs_ this <= size (TRT.trt_output_element_counts_ this) ->
    TRT.get_input_size_bytes this element_size
    = Ok (byte_sizes (TRT.trt_input_element_counts_ this)
            (TRT.num_inputs_ this) element_size)
    /\ TRT.get_output_size_bytes this element_size
       = Ok (byte_sizes (TRT.trt_output_element_counts_ this)
               (TRT.num_outputs_ this) element_size).
Proof.
  intros this es Hin Hout.
  unfold TRT.get_input_size_bytes, TRT.get_output_size_bytes.
  split; apply size_bytes_value; assumption.
Qed.

Lemma get_size_bytes_value_witness :
  TRT.get_input_size_bytes tiny_session sizeof_float = Ok [4]
  /\ TRT.get_output_size_bytes tiny_session sizeof_float
     = Ok [4; 1600; 400; 400].
Proof.
  apply (get_size_bytes_value tiny_session sizeof_float).
  - vm_compute. split; discriminate.
  - vm_compute. split; discriminate.
Defined.

(** X6.  When [num_inputs_] exceeds the length of the element-count
    vector, [get_input_size_bytes] indexes that vector past its end. *)
Theorem get_input_size_bytes_beyond_counts :
  forall this element_size,
    size (TRT.trt_input_element_counts_ this) < TRT.num_inputs_ this ->
    TRT.get_input_size_bytes this element_size = Undefined OutOfBounds.
Proof.
  intros this es H. unfold TRT.get_input_size_bytes, TRT.size_bytes.
  pose proof (size_nonneg (TRT.trt_input_element_counts_ this)) as H0.
  destruct (TRT.num_inputs_ this <? 0) eqn:E; [apply Z.ltb_lt in E; lia|].
  unfold size in H.
  apply size_bytes_loop_overrun.
  - lia.
  - simpl. lia.
  - simpl. lia.
  - rewrite repeat_length. simpl. lia.
Qed.

Lemma get_input_size_bytes_beyond_counts_witness :
  TRT.get_input_size_bytes short_engine sizeof_float = Undefined OutOfBounds.
Proof.
  apply (get_input_size_bytes_beyond_counts short_engine sizeof_float).
  reflexivity.
Defined.

Section Validation.

Import TRT.

Lemma slots_valid_cons :
  forall b bs g gs w ws,
    slots_valid (b :: bs) (g :: gs) (w :: ws)
    = (negb (b =? 0) && (g =? w)) && slots_valid bs gs ws.
Proof. reflexivity. Qed.

(** One iteration of a checking loop of [validate_buffers]. *)
Lemma validate_loop_step :
  forall nb mm bufs sizes expected k i valid w buf got want,
    at_ bufs i = Ok buf ->
    at_ sizes i = Ok got ->
    at_ expected i = Ok want ->
    validate_loop nb mm bufs sizes expected (S k) i valid w
    = match validate_loop nb mm bufs sizes expected k (i + 1)
              (valid && (negb (buf =? 0) && (got =? want))) w with
      | Ok (b, w', t) =>
          Ok (b, w',
              (if buf =? 0 then [Cerr (nb i)] else [])
              ++ (if got =? want then [] else [Cerr (mm i want got)])
              ++ t)
      | Throw e => Throw e
      | Undefined f => Undefined f
      end.
Proof.
  intros nb mm bufs sizes expected k i valid w buf got want Hb Hg Hw.
  simpl. unfold bind, lift, cerr, emit, ret. rewrite Hb.
  destruct (buf =? 0); simpl; rewrite Hg, Hw;
    destruct (got =? want); simpl;
    rewrite ?andb_false_r, ?andb_true_r;
    destruct (validate_loop nb mm bufs sizes expected k (i + 1) _ w)
      as [[[b w'] t]| |]; reflexivity.
Qed.

(** A checking loop over long enough vectors returns the conjunction of
    its slot checks, leaves the world alone, and has printed something
    exactly when a slot failed. *)
Lemma validate_loop_spec :
  forall nb mm bufs sizes expected k i valid w,
    0 <= i ->
    (Z.to_nat i + k <= length bufs)%nat ->
    (Z.to_nat i + k <= length sizes)%nat ->
    (Z.to_nat i + k <= length expected)%nat ->
    exists t,
      validate_loop nb mm bufs sizes expected k i valid w
      = Ok (valid && slots_valid (firstn k (skipn (Z.to_nat i) bufs))
                       (skipn (Z.to_nat i) sizes)
                       (skipn (Z.to_nat i) expected), w, t)
      /\ Forall is_diagnostic t
      /\ (slots_valid (firstn k (skipn (Z.to_nat i) bufs))
            (skipn (Z.to_nat i) sizes) (skipn (Z.to_nat i) expected) = true
          <-> t = []).
Proof.
  intros nb mm bufs sizes expected k.
  induction k as [|k IH]; intros i valid w Hi Hb Hs He.
  - exists []. simpl. rewrite andb_true_r. unfold slots_valid. simpl.
    repeat split; auto.
  - destruct (at_Ok bufs i) as [buf Hbuf]; [lia|lia|].
    destruct (at_Ok sizes i) as [got Hgot]; [lia|lia|].
    destruct (at_Ok expected i) as [want Hwant]; [lia|lia|].
    rewrite (validate_loop_step _ _ _ _ _ _ _ _ _ _ _ _ Hbuf Hgot Hwant).
    destruct (IH (i + 1) (valid && (negb (buf =? 0) && (got =? want))) w)
      as (t & Hrun & Hdiag & Hiff); try lia.
    rewrite Hrun.
    apply at_skipn in Hbuf. destruct Hbuf as [_ Hbuf].
    apply at_skipn in Hgot. destruct Hgot as [_ Hgot].
    apply at_skipn in Hwant. destruct Hwant as [_ Hwant].
    replace (Z.to_nat (i + 1)) with (S (Z.to_nat i)) in * by lia.
    rewrite Hbuf, Hgot, Hwant.
    rewrite firstn_cons, slots_valid_cons.
    eexists. split; [|split].
    + rewrite !andb_assoc. reflexivity.
    + apply Forall_app. split; [destruct (buf =? 0); repeat constructor|].
      apply Forall_app. split; [destruct (got =? want); repeat constructor|].
      exact Hdiag.
    + destruct (buf =? 0); destruct (got =? want); cbn [negb andb app];
        try (split; intros; discriminate).
      exact Hiff.
Qed.

End Validation.

(** X7.  Given as many buffers as the engine counts inputs and outputs,
    and declared sizes for each of them, [validate_buffers] returns true
    exactly when every buffer pointer is non-null and every declared size
    equals the engine's byte size for that slot; it leaves the world as it
    was, and it prints diagnostics exactly when it returns false. *)
Theorem validate_buffers_decides :
  forall this input_bufs input_sizes output_bufs output_sizes w,
    TRT.num_inputs_ this < 2 ^ 31 ->
    TRT.num_outputs_ this < 2 ^ 31 ->
    counts_available this ->
    size input_bufs = TRT.num_inputs_ this ->
    size output_bufs = TRT.num_outputs_ this ->
    TRT.num_inputs_ this <= size input_sizes ->
    TRT.num_outputs_ this <= size output_sizes ->
    exists t,
      TRT.validate_buffers this input_bufs input_sizes output_bufs
        output_sizes w
      = Ok (slots_valid input_bufs input_sizes
              (byte_sizes (TRT.trt_input_element_counts_ this)
                 (TRT.num_inputs_ this) sizeof_float)
            && slots_valid output_bufs output_sizes
                 (byte_sizes (TRT.trt_output_element_counts_ this)
                    (TRT.num_outputs_ this) sizeof_float),
            w, t)
      /\ Forall is_diagnostic t
      /\ (slots_valid input_bufs input_sizes
            (byte_sizes (TRT.trt_input_element_counts_ this)
               (TRT.num_inputs_ this) sizeof_float)
          && slots_valid output_bufs output_sizes
               (byte_sizes (TRT.trt_output_element_counts_ this)
                  (TRT.num_outputs_ this) sizeof_float) = true
          <-> t = []).
Proof.
  intros this ib isz ob osz w Hi31 Ho31 [Hci Hco] Hib Hob His Hos.
  pose proof (size_nonneg ib) as Hib0. pose proof (size_nonneg ob) as Hob0.
  unfold TRT.validate_buffers.
  assert (Hti : to_size_t (TRT.num_inputs_ this) = TRT.num_inputs_ this).
  { unfold to_size_t, SIZE_MAX_plus_1. apply Z.mod_small. lia. }
  assert (Hto : to_size_t (TRT.num_outputs_ this) = TRT.num_outputs_ this).
  { unfold to_size_t, SIZE_MAX_plus_1. apply Z.mod_small. lia. }
  rewrite Hti, Hto, Hib, Hob, !Z.eqb_refl. cbn [negb orb].
  assert (Hin : TRT.get_input_size_bytes this sizeof_float
                = Ok (byte_sizes (TRT.trt_input_element_counts_ this)
                        (TRT.num_inputs_ this) sizeof_float))
    by (apply size_bytes_value; lia).
  assert (Hout : TRT.get_output_size_bytes this sizeof_float
                 = Ok (byte_sizes (TRT.trt_output_element_counts_ this)
                         (TRT.num_outputs_ this) sizeof_float))
    by (apply size_bytes_value; lia).
  set (ein := byte_sizes (TRT.trt_input_element_counts_ this)
                (TRT.num_inputs_ this) sizeof_float) in *.
  set (eout := byte_sizes (TRT.trt_output_element_counts_ this)
                 (TRT.num_outputs_ this) sizeof_float) in *.
  assert (Hlein : length ein = Z.to_nat (TRT.num_inputs_ this)).
  { subst ein. unfold byte_sizes. rewrite length_map, length_firstn.
    unfold size in Hci. lia. }
  assert (Hleout : length eout = Z.to_nat (TRT.num_outputs_ this)).
  { subst eout. unfold byte_sizes. rewrite length_map, length_firstn.
    unfold size in Hco. lia. }
  unfold size in Hib, Hob, His, Hos.
  destruct (validate_loop_spec NullInputBuffer InputSizeMismatch ib isz ein
              (Z.to_nat (TRT.num_inputs_ this)) 0 true w)
    as (t1 & Hrun1 & Hd1 & Hiff1); try (simpl; lia).
  simpl in Hrun1, Hiff1.
  rewrite firstn_all2 in Hrun1, Hiff1 by lia.
  set (vin := slots_valid ib isz ein) in *.
  destruct (validate_loop_spec NullOutputBuffer OutputSizeMismatch ob osz eout
              (Z.to_nat (TRT.num_outputs_ this)) 0 vin w)
    as (t2 & Hrun2 & Hd2 & Hiff2); try (simpl; lia).
  simpl in Hrun2, Hiff2.
  rewrite firstn_all2 in Hrun2, Hiff2 by lia.
  exists (t1 ++ t2). split; [|split].
  - unfold bind, lift. rewrite Hin. cbv beta iota.
    rewrite Hout. cbv beta iota.
    rewrite Hrun1. cbv beta iota. rewrite Hrun2. reflexivity.
  - apply Forall_app. split; assumption.
  - split.
    + intros H. apply andb_true_iff in H. destruct H as [Ha Hb].
      apply Hiff1 in Ha. apply Hiff2 in Hb. subst. reflexivity.
    + intros H. apply app_eq_nil in H. destruct H as [Ha Hb].
      apply Hiff1 in Ha. apply Hiff2 in Hb. rewrite Ha, Hb. reflexivity.
Qed.

Lemma validate_buffers_decides_witness :
  (exists t,
     TRT.validate_buffers pair_session [101] [16] [102] [16] pair_world
     = Ok (true, pair_world, t))
  /\ (exists t,
     TRT.validate_buffers pair_session [101] [16] [0] [12] pair_world
     = Ok (false, pair_world, t)).
Proof.
  split.
  - destruct (validate_buffers_decides pair_session [101] [16] [102] [16]
                pair_world) as (t & Hrun & _);
      try reflexivity; try (vm_compute; discriminate).
    + split; vm_compute; discriminate.
    + exists t. exact Hrun.
  - destruct (validate_buffers_decides pair_session [101] [16] [0] [12]
                pair_world) as (t & Hrun & _);
      try reflexivity; try (vm_compute; discriminate).
    + split; vm_compute; discriminate.
    + exists t. exact Hrun.
Defined.

(* ================================================================== *)
(** ** More on infer_b *)

Section Transfer.

Import TRT.

Lemma list_eqb_eq : forall a b, list_eqb a b = true -> a = b.
Proof.
  induction a as [|x a IH]; intros [|y b] H; simpl in H;
    try discriminate; [reflexivity|].
  apply andb_true_iff in H. destruct H as [Hx Hr].
  apply Z.eqb_eq in Hx. subst. f_equal. apply IH. exact Hr.
Qed.

Lemma list_eqb_refl : forall a, list_eqb a a = true.
Proof.
  induction a as [|x a IH]; simpl; [reflexivity|].
  rewrite Z.eqb_refl, IH. reflexivity.
Qed.

Lemma cudaMemcpyHostToDevice_inv :
  forall dst src n w u w' t,
    cudaMemcpyHostToDevice dst src n w = Ok (u, w', t) ->
    t = [MemcpyHostToDevice dst src n].
Proof.
  intros dst src n w u w' t H. unfold cudaMemcpyHostToDevice in H.
  destruct (copy_checked (host w) (dev w) src dst n); inversion H.
  reflexivity.
Qed.

Lemma cudaMemcpyDeviceToHost_inv :
  forall dst src n w u w' t,
    cudaMemcpyDeviceToHost dst src n w = Ok (u, w', t) ->
    t = [MemcpyDeviceToHost dst src n].
Proof.
  intros dst src n w u w' t H. unfold cudaMemcpyDeviceToHost in H.
  destruct (copy_checked (dev w) (host w) src dst n); inversion H.
  reflexivity.
Qed.

Lemma copies_in_cons :
  forall d ds h hs s ss,
    copies_in (d :: ds) (h :: hs) (s :: ss)
    = MemcpyHostToDevice d h s :: copies_in ds hs ss.
Proof. reflexivity. Qed.

Lemma copies_out_cons :
  forall d ds h hs s ss,
    copies_out (d :: ds) (h :: hs) (s :: ss)
    = MemcpyDeviceToHost h d s :: copies_out ds hs ss.
Proof. reflexivity. Qed.

(** The events of a copy-in loop that returned. *)
Lemma copy_in_loop_trace :
  forall device host_bufs sizes k i w u w' t,
    copy_in_loop device host_bufs sizes k i w = Ok (u, w', t) ->
    t = copies_in (firstn k (skipn (Z.to_nat i) device))
          (skipn (Z.to_nat i) host_bufs) (skipn (Z.to_nat i) sizes).
Proof.
  intros device host_bufs sizes k.
  induction k as [|k IH]; intros i w u w' t H; simpl in H.
  - apply ret_Ok_inv in H. destruct H as (_ & _ & ->). reflexivity.
  - invert_lift H as d Hd. invert_lift H as h Hh. invert_lift H as bytes Hs.
    invert_bind H as u1 w1 t1 t2 Hcopy Ht.
    apply cudaMemcpyHostToDevice_inv in Hcopy.
    apply IH in H.
    apply at_skipn in Hd. destruct Hd as [Hi Hd].
    apply at_skipn in Hh. destruct Hh as [_ Hh].
    apply at_skipn in Hs. destruct Hs as [_ Hs].
    replace (Z.to_nat (i + 1)) with (S (Z.to_nat i)) in H by lia.
    rewrite Hd, Hh, Hs, firstn_cons, copies_in_cons.
    subst. reflexivity.
Qed.

(** The events of a copy-out loop that returned. *)
Lemma copy_out_loop_trace :
  forall device host_bufs sizes k i w u w' t,
    copy_out_loop device host_bufs sizes k i w = Ok (u, w', t) ->
    t = copies_out (firstn k (skipn (Z.to_nat i) device))
          (skipn (Z.to_nat i) host_bufs) (skipn (Z.to_nat i) sizes).
Proof.
  intros device host_bufs sizes k.
  induction k as [|k IH]; intros i w u w' t H; simpl in H.
  - apply ret_Ok_inv in H. destruct H as (_ & _ & ->). reflexivity.
  - invert_lift H as h Hh. invert_lift H as d Hd. invert_lift H as bytes Hs.
    invert_bind H as u1 w1 t1 t2 Hcopy Ht.
    apply cudaMemcpyDeviceToHost_inv in Hcopy.
    apply IH in H.
    apply at_skipn in Hd. destruct Hd as [Hi Hd].
    apply at_skipn in Hh. destruct Hh as [_ Hh].
    apply at_skipn in Hs. destruct Hs as [_ Hs].
    replace (Z.to_nat (i + 1)) with (S (Z.to_nat i)) in H by lia.
    rewrite Hd, Hh, Hs, firstn_cons, copies_out_cons.
    subst. reflexivity.
Qed.

End Transfer.

(** X8.  Whenever [infer_b] returns true, [input_size] and [output_size]
    equal the engine's byte sizes, the caller passed as many buffers as
    the engine holds device buffers of each role, and the runtime calls
    made are, in this order: one host-to-device copy per input buffer in
    index order, one [executeV2] on the binding table, one device-to-host
    copy per output buffer in index order. *)
Theorem infer_b_success_trace :
  forall input_size output_size this input_buf size_in_param output_buf
         size_out_param w w' t,
    TRT.infer_b input_size output_size this input_buf size_in_param
      output_buf size_out_param w = Ok (true, w', t) ->
    TRT.get_input_size_bytes this sizeof_float = Ok input_size
    /\ TRT.get_output_size_bytes this sizeof_float = Ok output_size
    /\ size input_buf = size (TRT.input_cuda_buffers_ this)
    /\ size output_buf = size (TRT.output_cuda_buffers_ this)
    /\ t = copies_in (TRT.input_cuda_buffers_ this) input_buf size_in_param
           ++ ExecuteV2 (TRT.bindings_ this)
           :: copies_out (TRT.output_cuda_buffers_ this) output_buf
                size_out_param.
Proof.
  intros isz osz this ib sin ob sout w w' t H. unfold TRT.infer_b in H.
  invert_lift H as e_in He.
  invert_bind H as differs w1 t1 t2 Hd Ht.
  destruct (negb (list_eqb isz e_in)) eqn:E1.
  { apply ret_Ok_inv in Hd. destruct Hd as (-> & -> & ->).
    invert_lift H as e1 H1. invert_lift H as e2 H2.
    invert_bind H as u w2 t3 t4 Hc Ht2.
    apply ret_Ok_inv in H. destruct H as (H & _). discriminate. }
  invert_lift Hd as e_out Ho.
  apply ret_Ok_inv in Hd. destruct Hd as (-> & -> & ->).
  destruct (negb (list_eqb osz e_out)) eqn:E2.
  { invert_lift H as e1 H1. invert_lift H as e2 H2.
    invert_bind H as u w2 t3 t4 Hc Ht2.
    apply ret_Ok_inv in H. destruct H as (H & _). discriminate. }
  apply negb_false_iff in E1. apply list_eqb_eq in E1.
  apply negb_false_iff in E2. apply list_eqb_eq in E2. subst e_in e_out.
  destruct (negb (size ib =? size (TRT.input_cuda_buffers_ this))
            || negb (size ob =? size (TRT.output_cuda_buffers_ this))) eqn:G.
  { invert_bind H as u w2 t3 t4 Hc Ht2.
    apply ret_Ok_inv in H. destruct H as (H & _). discriminate. }
  apply orb_false_iff in G. destruct G as [G1 G2].
  apply negb_false_iff in G1. apply negb_false_iff in G2.
  apply Z.eqb_eq in G1. apply Z.eqb_eq in G2.
  invert_bind H as u1 w2 t3 t4 Hin Ht2.
  invert_bind H as u2 w3 t5 t6 Hex Ht3.
  invert_bind H as u3 w4 t7 t8 Hout Ht4.
  apply ret_Ok_inv in H. destruct H as (_ & _ & ->).
  apply copy_in_loop_trace in Hin. apply copy_out_loop_trace in Hout.
  simpl in Hin, Hout. rewrite firstn_all in Hin, Hout.
  assert (Hexe : t5 = [ExecuteV2 (TRT.bindings_ this)]).
  { destruct (TRT.engine_ this).
    - unfold executeV2 in Hex. inversion Hex. reflexivity.
    - unfold lift in Hex. discriminate. }
  subst. simpl. rewrite app_nil_r.
  repeat split; auto.
Qed.

Lemma infer_b_success_trace_witness :
  TRT.get_input_size_bytes pair_session sizeof_float = Ok [16]
  /\ TRT.get_output_size_bytes pair_session sizeof_float = Ok [16]
  /\ size [101] = size (TRT.input_cuda_buffers_ pair_session)
  /\ size [102] = size (TRT.output_cuda_buffers_ pair_session)
  /\ [ MemcpyHostToDevice 1 101 16; ExecuteV2 [1; 2];
       MemcpyDeviceToHost 102 2 16 ]
     = copies_in (TRT.input_cuda_buffers_ pair_session) [101] [16]
       ++ ExecuteV2 (TRT.bindings_ pair_session)
       :: copies_out (TRT.output_cuda_buffers_ pair_session) [102] [16].
Proof.
  apply (infer_b_success_trace [16] [16] pair_session [101] [16] [102] [16]
           pair_world pair_world).
  vm_compute. reflexivity.
Defined.

Lemma infer_b_rejection_is_silent_witness :
  pair_world = pair_world
  /\ exists d, [Cerr (BufferSizeMismatch [16] [12] [16] [16])] = [Cerr d].
Proof.
  apply (infer_b_rejection_is_silent [12] [16] pair_session
           [101] [16] [102] [16] pair_world).
  vm_compute. reflexivity.
Defined.

Lemma infer_b_rejection_ignores_declared_sizes_witness :
  TRT.infer_b [12] [16] pair_session [101] [1] [102] [2] pair_world
  = Ok (false, pair_world, [Cerr (BufferSizeMismatch [16] [12] [16] [16])]).
Proof.
  apply (infer_b_rejection_ignores_declared_sizes [12] [16] pair_session
           [101] [16] [102] [16] pair_world).
  vm_compute. reflexivity.
Defined.

Section RoundTrip.

Import TRT.

Lemma lookup_store :
  forall m p b q,
    lookup (store m p b) q
    = match lookup m q with
      | Some c => Some (if q =? p then b else c)
      | None => None
      end.
Proof.
  induction m as [|[k c] m IH]; intros p b q; simpl; [reflexivity|].
  destruct (k =? p) eqn:Ekp; simpl.
  - destruct (k =? q) eqn:Ekq.
    + apply Z.eqb_eq in Ekp. apply Z.eqb_eq in Ekq. subst.
      rewrite Z.eqb_refl. reflexivity.
    + apply Z.eqb_eq in Ekp. subst k. rewrite Z.eqb_sym, Ekq.
      destruct (lookup m q); reflexivity.
  - destruct (k =? q) eqn:Ekq.
    + apply Z.eqb_eq in Ekq. subst. rewrite Ekp. reflexivity.
    + apply IH.
Qed.

Lemma cudaMemcpyHostToDevice_ok :
  forall dst src n w s d,
    lookup (host w) src = Some s ->
    lookup (dev w) dst = Some d ->
    n <= size s -> n <= size d ->
    cudaMemcpyHostToDevice dst src n w
    = Ok (tt, with_dev w (store (dev w) dst (overwrite d s n)),
          [MemcpyHostToDevice dst src n]).
Proof.
  intros dst src n w s d Hs Hd Hns Hnd.
  unfold cudaMemcpyHostToDevice, copy_checked. rewrite Hs, Hd.
  replace (n <=? size s) with true by (symmetry; apply Z.leb_le; lia).
  replace (n <=? size d) with true by (symmetry; apply Z.leb_le; lia).
  reflexivity.
Qed.

Lemma cudaMemcpyDeviceToHost_ok :
  forall dst src n w s d,
    lookup (dev w) src = Some s ->
    lookup (host w) dst = Some d ->
    n <= size s -> n <= size d ->
    cudaMemcpyDeviceToHost dst src n w
    = Ok (tt, with_host w (store (host w) dst (overwrite d s n)),
          [MemcpyDeviceToHost dst src n]).
Proof.
  intros dst src n w s d Hs Hd Hns Hnd.
  unfold cudaMemcpyDeviceToHost, copy_checked. rewrite Hs, Hd.
  replace (n <=? size s) with true by (symmetry; apply Z.leb_le; lia).
  replace (n <=? size d) with true by (symmetry; apply Z.leb_le; lia).
  reflexivity.
Qed.

Lemma overwrite_all :
  forall dst src tail n,
    size src = n -> size dst = n -> overwrite dst (src ++ tail) n = src.
Proof.
  intros dst src tail n Hs Hd. unfold overwrite, size in *.
  rewrite firstn_app, firstn_all2 by lia.
  replace (Z.to_nat n - length src)%nat with 0%nat by lia.
  rewrite skipn_all2 by lia. simpl. rewrite !app_nil_r. reflexivity.
Qed.

End RoundTrip.

(** X11.  An engine with one input and one output buffer of [n] bytes
    each, on a runtime whose graph copies its input buffer onto its output
    buffer: [infer_b] on host buffers of [n] bytes returns true and leaves
    in the host output buffer the bytes of the host input buffer. *)
Theorem infer_b_round_trip :
  forall this w m n d_in d_out h_in h_out data old db_in db_out,
    TRT.engine_ this = Some m ->
    TRT.input_cuda_buffers_ this = [d_in] ->
    TRT.output_cuda_buffers_ this = [d_out] ->
    TRT.bindings_ this = [d_in; d_out] ->
    TRT.get_input_size_bytes this sizeof_float = Ok [n] ->
    TRT.get_output_size_bytes this sizeof_float = Ok [n] ->
    graph w = echo ->
    lookup (host w) h_in = Some data -> size data = n ->
    lookup (host w) h_out = Some old -> size old = n ->
    lookup (dev w) d_in = Some db_in -> n <= size db_in ->
    lookup (dev w) d_out = Some db_out ->
    exists w' t,
      TRT.infer_b [n] [n] this [h_in] [n] [h_out] [n] w = Ok (true, w', t)
      /\ lookup (host w') h_out = Some data.
Proof.
  intros this w m n d_in d_out h_in h_out data old db_in db_out
         He Hi Ho Hb Hgi Hgo Hg Hhin Hdata Hhout Hold Hdin Hdbin Hdout.
  set (new := overwrite db_in data n).
  assert (Hnew : new = data ++ skipn (Z.to_nat n) db_in).
  { subst new. unfold overwrite. unfold size in Hdata.
    rewrite firstn_all2 by lia. reflexivity. }
  set (w1 := with_dev w (store (dev w) d_in new)).
  set (w2 := with_dev w1 (store (dev w1) d_out new)).
  set (w3 := with_host w2 (store (host w2) h_out data)).
  assert (H1 : cudaMemcpyHostToDevice d_in h_in n w
               = Ok (tt, w1, [MemcpyHostToDevice d_in h_in n])).
  { apply cudaMemcpyHostToDevice_ok with (s := data) (d := db_in);
      auto; lia. }
  assert (Hl1 : lookup (dev w1) d_in = Some new).
  { subst w1. simpl. rewrite lookup_store, Hdin, Z.eqb_refl. reflexivity. }
  assert (H2 : executeV2 [d_in; d_out] w1
               = Ok (tt, w2, [ExecuteV2 [d_in; d_out]])).
  { unfold executeV2.
    replace (graph w1) with echo by (symmetry; exact Hg).
    unfold echo. rewrite Hl1. reflexivity. }
  assert (Hl2 : lookup (dev w2) d_out = Some new).
  { subst w2. simpl. rewrite lookup_store.
    subst w1. simpl. rewrite lookup_store, Hdout, Z.eqb_refl. reflexivity. }
  assert (H3 : cudaMemcpyDeviceToHost h_out d_out n w2
               = Ok (tt, w3, [MemcpyDeviceToHost h_out d_out n])).
  { rewrite cudaMemcpyDeviceToHost_ok with (s := new) (d := old); auto.
    - subst w3. rewrite Hnew, overwrite_all; auto.
    - rewrite Hnew. unfold size in *. rewrite length_app. lia.
    - lia. }
  exists w3. eexists. split.
  - unfold TRT.infer_b. unfold bind, lift. rewrite Hgi. cbv beta iota.
    rewrite list_eqb_refl. cbn [negb]. rewrite Hgo. cbv beta iota.
    unfold ret at 1. cbv beta iota. rewrite list_eqb_refl. cbn [negb].
    rewrite Hi, Ho, Hb, He.
    change (size [h_in] =? size [d_in]) with true.
    change (size [h_out] =? size [d_out]) with true.
    cbn [negb orb length TRT.copy_in_loop TRT.copy_out_loop].
    unfold bind, lift. cbn [at_ Z.ltb Z.compare Z.to_nat nth_error].
    rewrite H1. cbv beta iota. unfold ret at 1. cbv beta iota.
    rewrite H2. cbv beta iota. rewrite H3. cbv beta iota.
    unfold ret. reflexivity.
  - subst w3. simpl. rewrite lookup_store.
    subst w2 w1. simpl. rewrite Hhout, Z.eqb_refl. reflexivity.
Qed.

Lemma infer_b_round_trip_witness :
  exists w' t,
    TRT.infer_b [16] [16] pair_session [101] [16] [102] [16] echo_world
    = Ok (true, w', t)
    /\ lookup (host w') 102 = Some sixteen_bytes.
Proof.
  apply (infer_b_round_trip pair_session echo_world pair_model 16 1 2 101 102
           sixteen_bytes (zeros 16) (zeros 16) (zeros 16));
    reflexivity.
Defined.

(* ================================================================== *)
(** ** More on the buffer lifecycle *)

(** X12.  [deallocate_buffers] passes to [cudaFree] exactly the non-null
    device pointers the engine holds, inputs first, never a null pointer,
    and leaves the three vectors empty; called again at once it frees
    nothing and changes nothing. *)
Theorem deallocate_buffers_idempotent :
  forall this w,
    exists this1 w1 t1,
      TRT.deallocate_buffers this w = Ok (this1, w1, t1)
      /\ buffers_empty this1
      /\ t1 = map CudaFree (owned (TRT.input_cuda_buffers_ this)
                            ++ owned (TRT.output_cuda_buffers_ this))
      /\ ~ In (CudaFree 0) t1
      /\ TRT.deallocate_buffers this1 w1 = Ok (this1, w1, []).
Proof.
  intros this w. rewrite deallocate_buffers_spec.
  eexists. eexists. eexists. split; [reflexivity|].
  split; [unfold buffers_empty; simpl; auto|].
  split; [reflexivity|]. split.
  - intros H. apply in_map_iff in H. destruct H as (p & Hp & Hin).
    inversion Hp; subst p.
    apply in_app_or in Hin. unfold owned in Hin.
    destruct Hin as [Hin|Hin]; apply filter_In in Hin;
      destruct Hin as [_ Hin]; discriminate.
  - rewrite deallocate_buffers_spec. simpl. rewrite with_dev_same.
    reflexivity.
Qed.

Section AllocationRuns.

Import TRT.

Lemma addresses_cons :
  forall base n, addresses base (S n) = base :: addresses (base + 1) n.
Proof.
  intros base n. unfold addresses. simpl. rewrite Z.add_0_r. f_equal.
  rewrite <- seq_shift, map_map. apply map_ext. intros j. lia.
Qed.

Lemma addresses_length : forall base n, length (addresses base n) = n.
Proof. intros. unfold addresses. rewrite length_map, length_seq. reflexivity. Qed.

Lemma fresh_buffers_cons :
  forall p ps sz sizes,
    fresh_buffers (p :: ps) (sz :: sizes)
    = fresh_buffers ps sizes ++ [(p, repeat 0 (Z.to_nat sz))].
Proof. reflexivity. Qed.

(** An allocation loop on a runtime that never refuses: the buffers get
    consecutive fresh addresses, each of the byte size asked for. *)
Lemma alloc_loop_all_ok :
  forall failed sizes k i bufs w,
    (forall j sz, malloc_ok w j sz = true) ->
    0 <= i ->
    (Z.to_nat i + k <= length bufs)%nat ->
    (Z.to_nat i + k <= length sizes)%nat ->
    alloc_loop failed sizes k i bufs w
    = Ok ((true,
           firstn (Z.to_nat i) bufs ++ addresses (next_ptr w) k
           ++ skipn (Z.to_nat i + k) bufs),
          mkWorld (fresh_buffers (addresses (next_ptr w) k)
                     (firstn k (skipn (Z.to_nat i) sizes)) ++ dev w)
            (host w) (next_ptr w + Z.of_nat k) (mallocs w + k)
            (malloc_ok w) (graph w),
          map (fun s => CudaMalloc (fst s) (Some (snd s)))
            (combine (firstn k (skipn (Z.to_nat i) sizes))
               (addresses (next_ptr w) k))).
Proof.
  intros failed sizes k.
  induction k as [|k IH]; intros i bufs w Hok Hi Hb Hs.
  - simpl. rewrite !Nat.add_0_r, Z.add_0_r, firstn_skipn.
    destruct w; reflexivity.
  - destruct (at_Ok bufs i) as [b Hb']; [lia|lia|].
    destruct (at_Ok sizes i) as [bytes Hs']; [lia|lia|].
    rewrite (alloc_loop_step_ok _ _ _ _ _ _ _ _ Hb' Hs' (Hok _ _)).
    rewrite IH; [|exact Hok|lia|rewrite set_nth_length; lia|lia].
    apply at_skipn in Hs'. destruct Hs' as [_ Hskip].
    replace (Z.to_nat (i + 1)) with (S (Z.to_nat i)) by lia.
    rewrite firstn_set_nth by lia. rewrite skipn_set_nth.
    rewrite Hskip, firstn_cons, addresses_cons, fresh_buffers_cons.
    cbn [dev host next_ptr mallocs malloc_ok graph combine map fst snd].
    rewrite <- !app_assoc. cbn [app].
    replace (Z.to_nat i + S k)%nat with (S (Z.to_nat i + k)) by lia.
    replace (next_ptr w + 1 + Z.of_nat k) with (next_ptr w + Z.of_nat (S k))
      by lia.
    replace (S (mallocs w) + k)%nat with (mallocs w + S k)%nat by lia.
    reflexivity.
Qed.

End AllocationRuns.

(** X14.  On a runtime that never refuses an allocation, an engine that
    holds no buffer and counts at least one input and one output gets from
    [allocate_buffers] one device buffer per counted input, then one per
    counted output, at consecutive fresh addresses, each of four bytes
    per element of its binding; the binding table lists the inputs, then
    the outputs, and host memory is untouched. *)
Theorem allocate_buffers_success :
  forall this w,
    (forall j sz, malloc_ok w j sz = true) ->
    buffers_empty this ->
    counts_available this ->
    1 <= TRT.num_inputs_ this ->
    1 <= TRT.num_outputs_ this ->
    let n_in := Z.to_nat (TRT.num_inputs_ this) in
    let n_out := Z.to_nat (TRT.num_outputs_ this) in
    let in_sizes := byte_sizes (TRT.trt_input_element_counts_ this)
                      (TRT.num_inputs_ this) sizeof_float in
    let out_sizes := byte_sizes (TRT.trt_output_element_counts_ this)
                       (TRT.num_outputs_ this) sizeof_float in
    let ins := addresses (next_ptr w) n_in in
    let outs := addresses (next_ptr w + Z.of_nat n_in) n_out in
    exists w',
      TRT.allocate_buffers this w
      = Ok (TRT.with_buffers this ins outs (ins ++ outs), w',
            map (fun s => CudaMalloc (fst s) (Some (snd s)))
              (combine in_sizes ins ++ combine out_sizes outs))
      /\ dev w' = fresh_buffers outs out_sizes
                  ++ fresh_buffers ins in_sizes ++ dev w
      /\ host w' = host w.
Proof.
  intros this w Hok (Hi & Ho & Hb) [Hci Hco] Hin Hout
         n_in n_out in_sizes out_sizes ins outs.
  assert (Hgi : TRT.get_input_size_bytes this sizeof_float = Ok in_sizes)
    by (apply size_bytes_value; lia).
  assert (Hgo : TRT.get_output_size_bytes this sizeof_float = Ok out_sizes)
    by (apply size_bytes_value; lia).
  assert (Hli : length in_sizes = n_in).
  { subst in_sizes n_in. unfold byte_sizes.
    rewrite length_map, length_firstn. unfold size in Hci. lia. }
  assert (Hlo : length out_sizes = n_out).
  { subst out_sizes n_out. unfold byte_sizes.
    rewrite length_map, length_firstn. unfold size in Hco. lia. }
  unfold TRT.allocate_buffers. rewrite Hi, Ho.
  change (negb (is_empty (@nil Z)) || negb (is_empty (@nil Z))) with false.
  cbv iota.
  replace ((TRT.num_inputs_ this <? 1) || (TRT.num_outputs_ this <? 1))
    with false
    by (symmetry; apply orb_false_iff; split; apply Z.ltb_ge; lia).
  unfold bind at 1. unfold lift at 1. rewrite Hgi.
  unfold bind at 1. unfold lift at 1. rewrite Hgo.
  unfold bind at 1.
  fold n_in.
  rewrite alloc_loop_all_ok;
    [|exact Hok|lia|rewrite resize_length; simpl; lia|simpl; lia].
  cbv beta iota.
  cbn [fst snd negb TRT.with_buffers TRT.input_cuda_buffers_
       TRT.output_cuda_buffers_ TRT.bindings_ TRT.num_outputs_].
  fold n_out.
  unfold bind at 1.
  rewrite alloc_loop_all_ok;
    [|exact Hok|lia|rewrite resize_length; simpl; lia|simpl; lia].
  cbv beta iota.
  cbn [fst snd negb TRT.with_buffers TRT.input_cuda_buffers_
       TRT.output_cuda_buffers_ TRT.bindings_ TRT.num_outputs_
       dev host next_ptr mallocs malloc_ok graph].
  cbn [Z.to_nat firstn skipn app Nat.add].
  rewrite !(skipn_all2 (resize _ _)) by (rewrite resize_length; lia).
  rewrite !app_nil_r.
  rewrite (firstn_all2 in_sizes) by lia.
  rewrite (firstn_all2 out_sizes) by lia.
  fold ins. fold outs.
  unfold ret. rewrite app_nil_r. eexists. split; [|split].
  - rewrite map_app. reflexivity.
  - simpl. reflexivity.
  - reflexivity.
Qed.

Lemma allocate_buffers_success_witness :
  exists w',
    TRT.allocate_buffers pair_engine (fresh_world always idle)
    = Ok (pair_session, w',
          [CudaMalloc 16 (Some 1); CudaMalloc 16 (Some 2)])
    /\ dev w' = [ (2, zeros 16); (1, zeros 16) ]
    /\ host w' = [].
Proof.
  destruct (allocate_buffers_success pair_engine (fresh_world always idle))
    as (w' & Hrun & Hdev & Hhost).
  - intros j sz. reflexivity.
  - repeat split; reflexivity.
  - split; vm_compute; discriminate.
  - vm_compute. discriminate.
  - vm_compute. discriminate.
  - exists w'. split; [exact Hrun|]. split; [exact Hdev|exact Hhost].
Defined.

(** X13.  Whatever the runtime refuses, [allocate_buffers] on an engine
    that holds no buffer, followed by [deallocate_buffers], leaves device
    memory as it was and the engine without buffers, and every address
    [cudaMalloc] returned has been passed to [cudaFree]. *)
Theorem allocate_then_deallocate_restores :
  forall this w,
    heap_ok w ->
    counts_available this ->
    buffers_empty this ->
    exists this1 w1 t1 this2 w2 t2,
      TRT.allocate_buffers this w = Ok (this1, w1, t1)
      /\ TRT.deallocate_buffers this1 w1 = Ok (this2, w2, t2)
      /\ buffers_empty this2
      /\ dev w2 = dev w
      /\ forall p sz,
           In (CudaMalloc sz (Some p)) t1 -> In (CudaFree p) (t1 ++ t2).
Proof.
  intros this w [Hpos Hfresh] [Hcin Hcout] Hempty.
  pose proof Hempty as (Hi & Ho & Hb).
  unfold TRT.allocate_buffers. rewrite Hi, Ho.
  change (negb (is_empty (@nil Z)) || negb (is_empty (@nil Z))) with false.
  cbv iota.
  destruct ((TRT.num_inputs_ this <? 1) || (TRT.num_outputs_ this <? 1)) eqn:G.
  { do 6 eexists.
    split; [reflexivity|]. split; [apply deallocate_buffers_spec|].
    split; [unfold buffers_empty; simpl; auto|].
    split.
    - simpl. rewrite Hi, Ho. reflexivity.
    - intros p sz [H|[]]. discriminate. }
  apply orb_false_iff in G. destruct G as [Gin Gout].
  apply Z.ltb_ge in Gin. apply Z.ltb_ge in Gout.
  destruct (size_bytes_ok (TRT.trt_input_element_counts_ this)
              (TRT.num_inputs_ this) sizeof_float) as (isz & Hisz & Hil); [lia|].
  destruct (size_bytes_ok (TRT.trt_output_element_counts_ this)
              (TRT.num_outputs_ this) sizeof_float) as (osz & Hosz & Hol); [lia|].
  destruct (alloc_loop_spec AllocInputFailed isz (Z.to_nat (TRT.num_inputs_ this))
              0 (resize [] (TRT.num_inputs_ this)) w)
    as (ok1 & ps1 & news1 & w1 & t1 & Hrun1 & Hdev1 & Hkeys1 & Hnext1 & Hps1
        & Hok1 & Hin1).
  { lia. } { rewrite resize_length. simpl. lia. } { simpl. lia. }
  simpl in Hrun1.
  unfold TRT.get_input_size_bytes, TRT.get_output_size_bytes.
  unfold bind at 1. unfold lift at 1. rewrite Hisz.
  unfold bind at 1. unfold lift at 1. rewrite Hosz.
  unfold bind at 1. rewrite Hrun1. cbv beta iota.
  cbn [fst snd TRT.with_buffers TRT.input_cuda_buffers_
       TRT.output_cuda_buffers_ TRT.bindings_ TRT.num_outputs_].
  assert (Hnz1 : Forall (fun p => p <> 0) ps1)
    by (eapply positive_nonzero; eassumption).
  destruct ok1.
  - destruct (Hok1 eq_refl) as [Hlen1 _].
    assert (Hins : ps1 ++ skipn (length ps1) (resize [] (TRT.num_inputs_ this)) = ps1).
    { rewrite skipn_all2; [apply app_nil_r|]. rewrite resize_length. lia. }
    rewrite Hins. cbn [negb].
    destruct (alloc_loop_spec AllocOutputFailed osz
                (Z.to_nat (TRT.num_outputs_ this)) 0
                (resize [] (TRT.num_outputs_ this)) w1)
      as (ok2 & ps2 & news2 & w2 & t2 & Hrun2 & Hdev2 & Hkeys2 & Hnext2 & Hps2
          & Hok2 & Hin2).
    { lia. } { rewrite resize_length. simpl. lia. } { simpl. lia. }
    simpl in Hrun2.
    unfold bind at 1. rewrite Hrun2. cbv beta iota.
    cbn [fst snd TRT.with_buffers TRT.input_cuda_buffers_
         TRT.output_cuda_buffers_ TRT.bindings_ TRT.num_outputs_].
    assert (Hps2' : Forall (fun p => next_ptr w <= p) ps2).
    { eapply Forall_impl; [|exact Hps2]. intros p Hp. simpl in *. lia. }
    assert (Hnz2 : Forall (fun p => p <> 0) ps2)
      by (eapply positive_nonzero; eassumption).
    assert (Hrel : fold_left release (ps1 ++ ps2) (dev w2) = dev w).
    { rewrite Hdev2, Hdev1, app_assoc. apply release_news.
      - intros e He. apply in_app_or in He. destruct He as [He|He].
        + apply in_or_app. right. apply in_rev. rewrite <- Hkeys2.
          apply in_map. exact He.
        + eapply keys_held; eassumption.
      - eapply fresh_not_held; [exact Hfresh|].
        apply Forall_app. split; assumption. }
    assert (Hfreed : forall p sz,
               In (CudaMalloc sz (Some p)) (t1 ++ t2) -> In p (ps1 ++ ps2)).
    { intros p sz Hp. apply in_app_or in Hp. apply in_or_app.
      destruct Hp as [Hp|Hp]; [left; exact (Hin1 p sz Hp)|
                               right; exact (Hin2 p sz Hp)]. }
    destruct ok2.
    + destruct (Hok2 eq_refl) as [Hlen2 _].
      assert (Houts : ps2 ++ skipn (length ps2) (resize [] (TRT.num_outputs_ this)) = ps2).
      { rewrite skipn_all2; [apply app_nil_r|]. rewrite resize_length. lia. }
      rewrite Houts. cbn [negb]. unfold ret.
      do 6 eexists.
      split; [reflexivity|]. split; [apply deallocate_buffers_spec|].
      cbn [TRT.with_buffers TRT.input_cuda_buffers_ TRT.output_cuda_buffers_].
      rewrite (owned_nonzero ps1 Hnz1), (owned_nonzero ps2 Hnz2).
      split; [unfold buffers_empty; simpl; auto|].
      split; [simpl; exact Hrel|].
      cbn [app]. rewrite app_nil_r. intros p sz Hp.
      apply in_or_app. right. apply in_map. exact (Hfreed p sz Hp).
    + cbn [negb]. rewrite deallocate_buffers_spec.
      cbn [TRT.with_buffers TRT.input_cuda_buffers_ TRT.output_cuda_buffers_].
      rewrite owned_app, (owned_nonzero ps1 Hnz1), (owned_nonzero ps2 Hnz2).
      rewrite resize_empty, owned_zeros, app_nil_r.
      do 6 eexists.
      split; [reflexivity|]. split; [apply deallocate_buffers_spec|].
      split; [unfold buffers_empty; simpl; auto|].
      split; [simpl; exact Hrel|].
      cbn [app]. intros p sz Hp. simpl map. rewrite app_nil_r.
      apply in_or_app. right. apply in_or_app. right. apply in_map.
      apply in_app_or in Hp. destruct Hp as [Hp|Hp].
      * apply in_or_app. left. exact (Hin1 p sz Hp).
      * apply in_app_or in Hp. destruct Hp as [Hp|Hp].
        -- apply in_or_app. right. exact (Hin2 p sz Hp).
        -- exfalso. apply in_map_iff in Hp.
           destruct Hp as (q & Hq & _). discriminate.
  - cbn [negb]. rewrite deallocate_buffers_spec.
    cbn [TRT.with_buffers TRT.input_cuda_buffers_ TRT.output_cuda_buffers_].
    rewrite owned_app, (owned_nonzero ps1 Hnz1).
    rewrite resize_empty, owned_zeros. simpl owned. rewrite !app_nil_r.
    do 6 eexists.
    split; [reflexivity|]. split; [apply deallocate_buffers_spec|].
    split; [unfold buffers_empty; simpl; auto|].
    split.
    + simpl. rewrite Hdev1. apply release_news.
      * intros e He. apply in_rev. rewrite <- Hkeys1. apply in_map. exact He.
      * eapply fresh_not_held; eassumption.
    + cbn [app]. intros p sz Hp. simpl map. rewrite app_nil_r.
      apply in_or_app. right. apply in_map.
      apply in_app_or in Hp. destruct Hp as [Hp|Hp].
      * exact (Hin1 p sz Hp).
      * exfalso. apply in_map_iff in Hp.
        destruct Hp as (q & Hq & _). discriminate.
Qed.

Lemma allocate_then_deallocate_restores_witness :
  exists this1 w1 t1 this2 w2 t2,
    TRT.allocate_buffers pair_engine (fresh_world always idle)
    = Ok (this1, w1, t1)
    /\ TRT.deallocate_buffers this1 w1 = Ok (this2, w2, t2)
    /\ buffers_empty this2
    /\ dev w2 = [].
Proof.
  destruct (allocate_then_deallocate_restores pair_engine
              (fresh_world always idle))
    as (this1 & w1 & t1 & this2 & w2 & t2 & H1 & H2 & H3 & H4 & _).
  - split; [reflexivity|constructor].
  - split; vm_compute; discriminate.
  - repeat split; reflexivity.
  - exists this1, w1, t1, this2, w2, t2.
    split; [exact H1|]. split; [exact H2|]. split; [exact H3|exact H4].
Defined.

(* ================================================================== *)
(** ** More on identify_objects *)

Lemma read_host_inv {A} (f : memory -> res A) w a w1 t :
  YOLO.read_host f w = Ok (a, w1, t) -> f (host w) = Ok a /\ w1 = w /\ t = [].
Proof. unfold YOLO.read_host. apply lift_Ok_inv. Qed.

Lemma detection_loop_appends :
  forall h bboxes scores labels n i rs rs',
    YOLO.detection_loop h bboxes scores labels n i rs = Ok rs' ->
    exists added, rs' = rs ++ added /\ (length added <= n)%nat.
Proof.
  intros h bboxes scores labels n.
  induction n as [|n IH]; intros i rs rs' H; simpl in H.
  - inversion H; subst. exists []. rewrite app_nil_r. split; [reflexivity|].
    simpl. lia.
  - destruct (YOLO.read_detection h bboxes scores labels i) as [d| |];
      simpl in H; try discriminate.
    destruct (YOLO.rejected d).
    + apply IH in H. destruct H as (added & -> & Hlen).
      exists added. split; [reflexivity|lia].
    + apply IH in H. destruct H as (added & -> & Hlen).
      exists (YOLO.current_obj d :: added). rewrite <- app_assoc.
      split; [reflexivity|simpl; lia].
Qed.

(** X15.  Whatever [identify_objects] returns, the caller's vector has
    only grown: its former contents are kept, in place, followed by at
    most 100 new records; when the result is -1 nothing was appended. *)
Theorem identify_objects_appends :
  forall input_size output_size st img rs w r rs' st' w' t,
    YOLO.identify_objects input_size output_size st img rs w
    = Ok ((r, rs', st'), w', t) ->
    exists added,
      rs' = rs ++ added
      /\ (length added <= 100)%nat
      /\ (r = -1 -> added = []).
Proof.
  intros isz osz st img rs w r rs' st' w' t H.
  unfold YOLO.identify_objects in H.
  invert_bind H as reached w1 t1 t2 Hr Ht.
  destruct reached.
  - unfold YOLO.post_process in H.
    invert_lift H as p Hp.
    invert_bind H as num_dets w2 t3 t4 Hn Ht2.
    invert_lift H as bboxes Hb.
    invert_lift H as scores Hs.
    invert_lift H as labels Hl.
    destruct ((num_dets <? 0) || (num_dets >? 100)) eqn:G.
    + invert_bind H as u w3 t5 t6 Hc Ht3.
      apply ret_Ok_inv in H. destruct H as (H & _).
      inversion H; subst. exists []. rewrite app_nil_r.
      repeat split; simpl; auto; lia.
    + invert_bind H as rs1 w3 t5 t6 Hc Ht3.
      apply ret_Ok_inv in H. destruct H as (H & _).
      inversion H; subst r rs' st'.
      apply read_host_inv in Hc. destruct Hc as (Hc & _).
      apply detection_loop_appends in Hc. destruct Hc as (added & -> & Hlen).
      apply orb_false_iff in G. destruct G as [_ G].
      rewrite Z.gtb_ltb in G. apply Z.ltb_ge in G.
      exists added. split; [reflexivity|]. split; [lia|].
      intros Hneg. vm_compute in Hneg. discriminate.
  - apply ret_Ok_inv in H. destruct H as (H & _).
    inversion H; subst. exists []. rewrite app_nil_r.
    repeat split; simpl; auto; lia.
Qed.

Lemma identify_objects_appends_witness :
  exists added : list YOLO.detected_object_info_t,
    (length added <= 100)%nat /\ length added = 3%nat.
Proof.
  assert (H : exists rs' st' w' t,
             YOLO.identify_objects tiny_input_sizes tiny_output_sizes loaded
               one_pixel [] (loaded_world three_detections)
             = Ok ((0, rs', st'), w', t) /\ length rs' = 3%nat).
  { do 4 eexists. split; [vm_compute; reflexivity|reflexivity]. }
  destruct H as (rs' & st' & w' & t & H & Hlen).
  destruct (identify_objects_appends _ _ _ _ _ _ _ _ _ _ _ H)
    as (added & Heq & Hle & _).
  exists added. split; [exact Hle|]. simpl in Heq. subst. exact Hlen.
Defined.

Lemma identify_objects_returns_minus_one_or_zero_witness :
  0 = -1 \/ 0 = 0.
Proof.
  assert (H : exists rs' st' w' t,
             YOLO.identify_objects tiny_input_sizes tiny_output_sizes loaded
               one_pixel [] (loaded_world three_detections)
             = Ok ((0, rs', st'), w', t)).
  { do 4 eexists. vm_compute. reflexivity. }
  destruct H as (rs' & st' & w' & t & H).
  exact (identify_objects_returns_minus_one_or_zero _ _ _ _ _ _ _ _ _ _ _ H).
Defined.

Lemma identify_objects_on_constructed_engine_witness :
  exists eng,
    TRT.constructor (Some tiny_model) 0 0 (fresh_world always idle)
    = Ok (eng, fresh_world always idle, [Cerr (InvalidIOCounts 0 0)])
    /\ YOLO.identify_objects tiny_input_sizes tiny_output_sizes
         (YOLO.mkState true (Some eng) tiny_input_sizes tiny_output_sizes
            [101] [102; 103; 104; 105] [] [] [])
         one_pixel [] (loaded_world three_detections)
       = Ok ((-1, [],
              YOLO.mkState true (Some eng) tiny_input_sizes tiny_output_sizes
                [101] [102; 103; 104; 105] [] [] []),
             loaded_world three_detections,
             [Cerr (UnexpectedIOCount 0 0)]).
Proof.
  eexists. split; [vm_compute; reflexivity|].
  eapply identify_objects_on_constructed_engine with
    (d := Some tiny_model) (junk_in := 0) (junk_out := 0)
    (w0 := fresh_world always idle);
    [vm_compute; reflexivity|reflexivity|reflexivity].
Defined.

(** X19.  The filter of [identify_objects] rejects a detection exactly
    when its score is negative: a score of zero, a NaN, and every positive
    score however small are kept. *)
Theorem rejected_exactly_negative :
  forall d, YOLO.rejected d = is_negative (YOLO.score d).
Proof.
  intros d. rewrite rejected_iff_below_zero.
  destruct (YOLO.score d) as [[|]|[|]| |[|] m e]; reflexivity.
Qed.

(* ================================================================== *)
(** ** More on unload_model *)

Section Unload.

Import YOLO.

Lemma lookup_filter_released :
  forall ps m a,
    lookup (filter (fun e => negb (existsb (Z.eqb (fst e)) ps)) m) a
    = if existsb (Z.eqb a) ps then None else lookup m a.
Proof.
  intros ps m a. induction m as [|[k c] m IH]; simpl.
  - destruct (existsb (Z.eqb a) ps); reflexivity.
  - destruct (existsb (Z.eqb k) ps) eqn:Ek; simpl.
    + destruct (k =? a) eqn:Eka.
      * apply Z.eqb_eq in Eka. subst k. rewrite IH, Ek. reflexivity.
      * exact IH.
    + destruct (k =? a) eqn:Eka.
      * apply Z.eqb_eq in Eka. subst k. rewrite Ek. reflexivity.
      * exact IH.
Qed.

Lemma lookup_released :
  forall ps m a, In a ps -> lookup (fold_left release ps m) a = None.
Proof.
  intros ps m a H. rewrite release_all, lookup_filter_released.
  replace (existsb (Z.eqb a) ps) with true; [reflexivity|].
  symmetry. apply existsb_exists. exists a. split; [exact H|apply Z.eqb_refl].
Qed.

Lemma lookup_not_released :
  forall ps m a, ~ In a ps -> lookup (fold_left release ps m) a = lookup m a.
Proof.
  intros ps m a H. rewrite release_all, lookup_filter_released.
  destruct (existsb (Z.eqb a) ps) eqn:E; [|reflexivity].
  apply existsb_exists in E. destruct E as (x & Hx & Heq).
  apply Z.eqb_eq in Heq. subst x. contradiction.
Qed.

Lemma with_host_same : forall w, with_host w (host w) = w.
Proof. intros []. reflexivity. Qed.

(** The loop frees live, distinct, non-null buffers one after the other. *)
Lemma free_data_loop_spec :
  forall data k i w,
    0 <= i ->
    (Z.to_nat i + k <= length data)%nat ->
    NoDup (firstn k (skipn (Z.to_nat i) data)) ->
    Forall (fun a => a <> 0 /\ lookup (host w) a <> None)
           (firstn k (skipn (Z.to_nat i) data)) ->
    free_data_loop data k i w
    = Ok (tt,
          with_host w (fold_left release
                         (firstn k (skipn (Z.to_nat i) data)) (host w)),
          []).
Proof.
  intros data k. induction k as [|k IH]; intros i w Hi Hlen Hnd Hlive.
  - simpl. rewrite with_host_same. reflexivity.
  - destruct (at_Ok data i) as [p Hp]; [lia|lia|].
    pose proof (at_skipn _ _ _ Hp) as [_ Hskip].
    assert (Hnext : Z.to_nat (i + 1) = S (Z.to_nat i)) by lia.
    pose proof (IH (i + 1) (with_host w (release (host w) p))) as IH'.
    rewrite Hnext in IH'.
    rewrite Hskip, firstn_cons in Hnd, Hlive |- *.
    remember (firstn k (skipn (S (Z.to_nat i)) data)) as rest eqn:Hrest.
    apply NoDup_cons_iff in Hnd. destruct Hnd as [Hnotin Hnd'].
    apply Forall_cons_iff in Hlive. destruct Hlive as [[Hnz Hl] Hlive'].
    cbn [free_data_loop]. unfold bind, lift. rewrite Hp.
    unfold free. destruct (p =? 0) eqn:E; [apply Z.eqb_eq in E; contradiction|].
    destruct (lookup (host w) p) eqn:El; [|contradiction].
    rewrite IH'.
    + reflexivity.
    + lia.
    + lia.
    + exact Hnd'.
    + apply Forall_forall. intros a Ha.
      rewrite Forall_forall in Hlive'. destruct (Hlive' a Ha) as [Hna Hla].
      split; [exact Hna|]. cbn [host with_host].
      change (release (host w) p) with (fold_left release [p] (host w)).
      rewrite lookup_not_released; [exact Hla|].
      intros [Heq|[]]. subst a. contradiction.
Qed.

End Unload.

(** X18.  When the module holds one host input buffer and four host
    output buffers, all live, non-null and distinct, [unload_model]
    returns: the engine, if any, has passed its non-null device buffers
    to [cudaFree], the five host buffers are no longer live, every other
    host buffer is as it was, and the module is uninitialized with empty
    vectors. *)
Theorem unload_model_releases :
  forall st w p q0 q1 q2 q3,
    YOLO.input_data st = [p] ->
    YOLO.output_data st = [q0; q1; q2; q3] ->
    NoDup [p; q0; q1; q2; q3] ->
    Forall (fun a => a <> 0 /\ lookup (host w) a <> None) [p; q0; q1; q2; q3] ->
    exists w',
      YOLO.unload_model st w
      = Ok (YOLO.mkState false None [] [] [] []
              (YOLO.input_names st) (YOLO.output_names st)
              (YOLO.results_buffer st),
            w',
            match YOLO.engine st with
            | Some eng =>
                map CudaFree (owned (TRT.input_cuda_buffers_ eng)
                              ++ owned (TRT.output_cuda_buffers_ eng))
            | None => []
            end)
      /\ Forall (fun a => lookup (host w') a = None) [p; q0; q1; q2; q3]
      /\ (forall a, ~ In a [p; q0; q1; q2; q3] ->
            lookup (host w') a = lookup (host w) a).
Proof.
  intros st w p q0 q1 q2 q3 Hin Hout Hnd Hlive.
  set (w1 := match YOLO.engine st with
             | Some eng =>
                 with_dev w (fold_left release
                               (owned (TRT.input_cuda_buffers_ eng)
                                ++ owned (TRT.output_cuda_buffers_ eng))
                               (dev w))
             | None => w
             end).
  assert (Hh1 : host w1 = host w).
  { subst w1. destruct (YOLO.engine st); reflexivity. }
  assert (H1 : YOLO.free_data_loop [p] 1 0 w1
               = Ok (tt, with_host w1 (fold_left release [p] (host w1)), [])).
  { apply (free_data_loop_spec [p] 1 0 w1); simpl; try lia.
    - inversion Hnd; subst. repeat constructor. intros [].
    - rewrite Hh1. inversion Hlive; subst. repeat constructor; tauto. }
  set (w2 := with_host w1 (fold_left release [p] (host w1))) in *.
  assert (H2 : YOLO.free_data_loop [q0; q1; q2; q3] 4 0 w2
               = Ok (tt, with_host w2 (fold_left release [q0; q1; q2; q3]
                                         (host w2)), [])).
  { apply (free_data_loop_spec [q0; q1; q2; q3] 4 0 w2); try (simpl; lia).
    - simpl. inversion Hnd; subst. assumption.
    - simpl firstn. inversion Hlive as [|? ? _ Hrest]; subst.
      apply Forall_forall. intros a Ha.
      rewrite Forall_forall in Hrest. destruct (Hrest a Ha) as [Hna Hla].
      split; [exact Hna|].
      subst w2. cbn [host with_host].
      rewrite lookup_not_released, Hh1; [exact Hla|].
      intros [Heq|[]]. subst a. inversion Hnd; subst. contradiction. }
  set (w3 := with_host w2 (fold_left release [q0; q1; q2; q3] (host w2))) in *.
  assert (Hh3 : host w3 = fold_left release [p; q0; q1; q2; q3] (host w)).
  { subst w3 w2. cbn [host with_host]. rewrite Hh1. reflexivity. }
  exists w3. split; [|split].
  - unfold YOLO.unload_model. rewrite Hin, Hout.
    change (Z.to_nat YOLO.MODEL_NUM_INPUTS) with 1%nat.
    change (Z.to_nat YOLO.MODEL_NUM_OUTPUTS) with 4%nat.
    unfold bind at 1.
    assert (H0 : (match YOLO.engine st with
                  | Some eng =>
                      bind (TRT.destructor eng) (fun _ => ret tt)
                  | None => ret tt
                  end) w
                 = Ok (tt, w1,
                       match YOLO.engine st with
                       | Some eng =>
                           map CudaFree (owned (TRT.input_cuda_buffers_ eng)
                                         ++ owned (TRT.output_cuda_buffers_ eng))
                       | None => []
                       end)).
    { subst w1. destruct (YOLO.engine st) as [eng|]; [|reflexivity].
      unfold TRT.destructor, bind. rewrite deallocate_buffers_spec.
      unfold ret. rewrite !app_nil_r. reflexivity. }
    rewrite H0. unfold bind at 1. rewrite H1.
    unfold bind at 1. rewrite H2. unfold ret. rewrite !app_nil_r.
    reflexivity.
  - rewrite Hh3. apply Forall_forall. intros a Ha.
    apply lookup_released. exact Ha.
  - intros a Ha. rewrite Hh3. apply lookup_not_released. exact Ha.
Qed.

Lemma unload_model_releases_witness :
  exists w',
    YOLO.unload_model loaded (loaded_world idle)
    = Ok (YOLO.mkState false None [] [] [] []
            (YOLO.input_names loaded) (YOLO.output_names loaded) [],
          w', map CudaFree [1; 2; 3; 4; 5])
    /\ Forall (fun a => lookup (host w') a = None) [101; 102; 103; 104; 105].
Proof.
  destruct (unload_model_releases loaded (loaded_world idle)
              101 102 103 104 105) as (w' & Hrun & Hnone & _).
  - reflexivity.
  - reflexivity.
  - repeat constructor; simpl; intuition discriminate.
  - repeat constructor; simpl; discriminate.
  - exists w'. split; [exact Hrun|exact Hnone].
Defined.

(* ================================================================== *)
(** ** dims_volume *)

Lemma to_int_small : forall z, - 2 ^ 31 <= z < 2 ^ 31 -> to_int z = z.
Proof. intros z H. unfold to_int. rewrite Z.mod_small; lia. Qed.

Lemma to_size_t_small : forall z, 0 <= z < 2 ^ 31 -> to_size_t z = z.
Proof.
  intros z H. unfold to_size_t, SIZE_MAX_plus_1. apply Z.mod_small. lia.
Qed.

Lemma accumulate_value :
  forall d acc,
    Forall (fun x => 0 < x) d ->
    0 < acc ->
    acc * product d < 2 ^ 31 ->
    TRT.accumulate d acc = acc * product d.
Proof.
  induction d as [|x d IH]; intros acc Hd Hacc Hsmall; simpl in *.
  - lia.
  - inversion Hd as [|? ? Hx Hd']; subst.
    pose proof (product_positive d Hd') as Hp.
    assert (Hax : 0 < acc * x < 2 ^ 31) by nia.
    assert (Ha : 0 <= acc < 2 ^ 31) by nia.
    assert (Hx' : 0 <= x < 2 ^ 31) by nia.
    rewrite (to_size_t_small acc Ha), (to_size_t_small x Hx').
    rewrite to_size_t_small by lia. rewrite to_int_small by lia.
    rewrite IH; auto; lia.
Qed.

(** X20.  For a shape with at least one axis, all axes positive, whose
    product is below 2^31, [dims_volume] returns that product, as
    [validate_and_calculate_elements] does. *)
Theorem dims_volume_agrees :
  forall d name,
    d <> [] ->
    Forall (fun x => 0 < x) d ->
    product d < 2 ^ 31 ->
    TRT.dims_volume d = product d
    /\ TRT.validate_and_calculate_elements d name = Ok (TRT.dims_volume d).
Proof.
  intros d name Hne Hpos Hsmall.
  pose proof (product_positive d Hpos) as Hp.
  assert (Hv : TRT.dims_volume d = product d).
  { unfold TRT.dims_volume. rewrite accumulate_value; auto; try lia.
    rewrite Z.mul_1_l. apply to_size_t_small. lia. }
  split; [exact Hv|].
  rewrite validate_and_calculate_elements_value by assumption.
  rewrite Hv, to_size_t_small by lia. reflexivity.
Qed.

Lemma dims_volume_agrees_witness :
  TRT.dims_volume [1; 3; 640; 640] = 1228800
  /\ TRT.validate_and_calculate_elements [1; 3; 640; 640] "input"
     = Ok (TRT.dims_volume [1; 3; 640; 640]).
Proof.
  apply (dims_volume_agrees [1; 3; 640; 640] "input"%string).
  - discriminate.
  - repeat constructor.
  - reflexivity.
Defined.
